(** * fhir-package-loader: the load module and the definition store

    A shallow embedding of [src/load.ts] (package resolution, cache,
    download and orchestration) and of the lookup interface of
    [FHIRDefinitions], followed by the properties of the specification
    that were checked against it.

    Conventions of the embedding.
    - JavaScript strings are Rocq [string]s (sequences of 8-bit characters);
      letter case and white space are those of ASCII.
    - Mutable process state (the static [PackageCache], the file system, the
      list of HTTP requests issued, the log, the number of clock reads) is a
      record [World] threaded through a state-and-exception monad [M].
    - An [async] function taken by itself is a computation of [M], from its
      call to its end.  Where several calls are under way at once (the
      merges of [loadDependencies]), each is a [Task], taken up again turn
      by turn in an order that the program does not choose.
    - What the module imports from outside (HTTP, tar, JSON, the clock, the
      environment, the error classes' message texts) is a record [Env] of
      oracles. *)

From Stdlib Require Import ZArith String Ascii List Bool Lia.
From stdpp Require Import base strings gmap list option.

Open Scope string_scope.
Open Scope list_scope.

(** ** JavaScript string primitives used by the module *)

Module Js.

Definition startsWith (s p : string) : bool := String.prefix p s.

Definition endsWith (s suffix : string) : bool :=
  let n := String.length s in
  let m := String.length suffix in
  (m <=? n)%nat && String.eqb (String.substring (n - m) m s) suffix.

Definition lower (c : ascii) : ascii :=
  let n := nat_of_ascii c in
  if (65 <=? n)%nat && (n <=? 90)%nat then ascii_of_nat (n + 32) else c.

Fixpoint toLowerCase (s : string) : string :=
  match s with
  | EmptyString => EmptyString
  | String c s' => String (lower c) (toLowerCase s')
  end.

(** [needle] occurs somewhere in [s]: [/needle/.test(s)] for a literal. *)
Fixpoint includes (needle s : string) : bool :=
  String.prefix needle s ||
  match s with
  | EmptyString => false
  | String _ s' => includes needle s'
  end.

(** [s.split(sep)] for a one-character separator. *)
Fixpoint split (sep : ascii) (s : string) : list string :=
  match s with
  | EmptyString => [EmptyString]
  | String c s' =>
      if Ascii.eqb c sep then EmptyString :: split sep s'
      else match split sep s' with
           | h :: t => String c h :: t
           | [] => [String c EmptyString]
           end
  end.

(** [s.indexOf(sep) !== -1 ? s.slice(s.indexOf(sep) + 1) : undefined] *)
Fixpoint afterFirst (sep : ascii) (s : string) : option string :=
  match s with
  | EmptyString => None
  | String c s' => if Ascii.eqb c sep then Some s' else afterFirst sep s'
  end.

(** [s.slice(0, -k)] *)
Definition dropLast (k : nat) (s : string) : string :=
  String.substring 0 (String.length s - k) s.

Definition isDigit (c : ascii) : bool :=
  let n := nat_of_ascii c in (48 <=? n)%nat && (n <=? 57)%nat.

(** The longest prefix of decimal digits, and what follows it. *)
Fixpoint spanDigits (s : string) : string * string :=
  match s with
  | EmptyString => (EmptyString, EmptyString)
  | String c s' =>
      if isDigit c then let (d, r) := spanDigits s' in (String c d, r)
      else (EmptyString, s)
  end.

Definition nonEmpty (s : string) : bool := negb (String.eqb s "").

(** A line terminator, which [.] of a regular expression does not match. *)
Definition isLineTerminator (c : ascii) : bool :=
  let n := nat_of_ascii c in (n =? 10)%nat || (n =? 13)%nat.

Fixpoint noLineTerminator (s : string) : bool :=
  match s with
  | EmptyString => true
  | String c s' => negb (isLineTerminator c) && noLineTerminator s'
  end.

(** JavaScript truthiness of an optional string. *)
Definition truthy (o : option string) : bool :=
  match o with Some s => nonEmpty s | None => false end.

(** An optional string inside a template literal. *)
Definition show (o : option string) : string := default "undefined" o.

End Js.

(** ** The three version patterns of [mergeDependency] *)

(** [/^\d+\.\d+\.x$/.test(version)] *)
Definition isPatchWildcard (version : string) : bool :=
  let (a, r1) := Js.spanDigits version in
  Js.nonEmpty a &&
  match r1 with
  | String "."%char r2 =>
      let (b, r3) := Js.spanDigits r2 in
      Js.nonEmpty b && String.eqb r3 ".x"
  | _ => false
  end.

(** [/^\d+\.x$/.test(version)] *)
Definition isMinorWildcard (version : string) : bool :=
  let (a, r1) := Js.spanDigits version in
  Js.nonEmpty a && String.eqb r1 ".x".

(** [/^current(\$.+)?$/.test(version)] *)
Definition isCurrentVersion (version : string) : bool :=
  String.eqb version "current" ||
  (Js.startsWith version "current$" &&
   let branch := String.substring 8 (String.length version - 8) version in
   Js.nonEmpty branch && Js.noLineTerminator branch).

(** ** [formatDate]: YYYYMMDDHHmmss to YYYY-MM-DDTHH:mm:ss *)

Fixpoint takeDigits (n : nat) (s : string) : option (string * string) :=
  match n with
  | O => Some (EmptyString, s)
  | S n' =>
      match s with
      | String c s' =>
          if Js.isDigit c then
            match takeDigits n' s' with
            | Some (d, r) => Some (String c d, r)
            | None => None
            end
          else None
      | EmptyString => None
      end
  end.

Definition dashed (d : string) : string :=
  String.substring 0 4 d +:+ "-" +:+ String.substring 4 2 d +:+ "-" +:+
  String.substring 6 2 d +:+ "T" +:+ String.substring 8 2 d +:+ ":" +:+
  String.substring 10 2 d +:+ ":" +:+ String.substring 12 2 d.

(** The first run of fourteen digits is rewritten, the rest is kept. *)
Fixpoint replaceFirstStamp (s : string) : string :=
  match takeDigits 14 s with
  | Some (d, r) => dashed d +:+ r
  | None =>
      match s with
      | EmptyString => EmptyString
      | String c s' => String c (replaceFirstStamp s')
      end
  end.

Definition formatDate (date : option string) : string :=
  match date with
  | Some d => if Js.nonEmpty d then replaceFirstStamp d else ""
  | None => ""
  end.


(** ** Data *)

(** A parsed JSON document, reduced to the fields that the loader and the
    store read; [j_body] stands for everything else in the document. *)
Record RawRecord := {
  j_resourceType : option string;
  j_id : option string;
  j_name : option string;
  j_url : option string;
  j_version : option string;
  j_kind : option string;
  j_derivation : option string;
  j_type : option string;
  j_date : option string;
  j_body : string
}.

(** [class LoadedPackage]; [package] is the cache key, [packageJson] stays
    [undefined] when the directory holds no [package.json]. *)
Record LoadedPackage := {
  package : string;
  defs : list RawRecord;
  packageJson : option RawRecord
}.

#[local] Set Warnings "-register-all".

(** Files and directories.  A directory lists its entries in the order in
    which [readdirSync] reports them. *)
Inductive node :=
| File (content : string)
| Dir (entries : list (string * node)).

Abbreviation entries_t := (list (string * node)).

Fixpoint lookupEntry (name : string) (es : entries_t) : option node :=
  match es with
  | [] => None
  | (n, x) :: es' => if String.eqb n name then Some x else lookupEntry name es'
  end.

Fixpoint removeEntry (name : string) (es : entries_t) : entries_t :=
  match es with
  | [] => []
  | (n, x) :: es' =>
      if String.eqb n name then removeEntry name es' else (n, x) :: removeEntry name es'
  end.

Fixpoint replaceEntry (name : string) (x : node) (es : entries_t) : entries_t :=
  match es with
  | [] => []
  | (n, y) :: es' =>
      if String.eqb n name then (n, x) :: es' else (n, y) :: replaceEntry name x es'
  end.

Definition names (es : entries_t) : list string := fst <$> es.

(** The exceptions that leave the module.  The first four are the classes
    of [src/errors]; [OtherError] stands for every exception raised by the
    runtime or a library (a [TypeError], a Node file-system error, a
    rejected HTTP request, a [SyntaxError] of [JSON.parse]), with its
    message. *)
Inductive Error :=
| IncorrectWildcardVersionFormatError (pkg version : string)
| LatestVersionUnavailableError (pkg : string) (customRegistry : option string)
                                (isPatchWildCard : bool)
| CurrentPackageLoadError (fullPackageName : string)
| PackageLoadError (fullPackageName : string) (customRegistry : option string)
| OtherError (msg : string).

(** One entry of the build server's [qas.json]. *)
Record QAEntry := {
  package_id : string;
  qa_date : option string;
  repo : string
}.

(** The body of an HTTP answer, at the shapes of the external interfaces:
    registry metadata ([dist-tags.latest] and, per listed version, its
    [dist.tarball]), the build-status listing, a build manifest, and
    content that is not JSON (the bytes of an archive, or a text).  An
    answer of another shape than the one a call site reads counts there as
    lacking the fields read; a text has a [length], though, which the
    check of the build listing reads. *)
Inductive ResponseData :=
| RegistryInfo (latest : option string)
               (versions : option (list (string * option string)))
| QAList (entries : list QAEntry)
| Manifest (date : option string)
| Binary (bytes : string).

(** One call of [axiosGet]: the URL and the [responseType] option, if any. *)
Record Call := {
  call_url : string;
  call_responseType : option string
}.

Inductive Completion (A : Type) :=
| Returns (a : A)
| Throws (e : Error).
Arguments Returns {A} a.
Arguments Throws {A} e.

(** ** The definition store, as far as the load module touches it *)

(** The categories of the store ([enum Type]). *)
Inductive FType :=
| Resource | Logical | Type' | Profile | Extension
| ValueSet | CodeSystem | ImplementationGuide | Instance.

#[global] Instance FType_eq_dec : EqDecision FType.
Proof. solve_decision. Defined.

(** Modelled from the spec: [src/FHIRDefinitions.ts] is not among the
    sources, only its callers ([load.ts]) and its tests are.  The record
    follows the data model of the specification (section 3): a label (the
    [package] property), the definitions loaded directly into the node with
    the category given to each at add-time, the children in insertion
    order, the failure flag, and the package metadata by label. *)
Inductive FHIRDefinitions := mkFHIRDefinitions {
  label : string;
  ownDefinitions : list (RawRecord * FType);
  childFHIRDefs : list FHIRDefinitions;
  unsuccessfulPackageLoad : bool;
  packageMetadataByLabel : list (string * option RawRecord)
}.

(** [new FHIRDefinitions()] *)
Definition newFHIRDefinitions : FHIRDefinitions :=
  mkFHIRDefinitions "" [] [] false [].

Definition isStr (o : option string) (s : string) : bool :=
  match o with Some x => String.eqb x s | None => false end.

(** Modelled from the spec: the classification rule of section 3, applied
    once, when a record is added. *)
Definition classify (d : RawRecord) : FType :=
  if isStr (j_resourceType d) "StructureDefinition" then
    if isStr (j_kind d) "primitive-type" || isStr (j_kind d) "complex-type" then Type'
    else if isStr (j_kind d) "logical" then
      if isStr (j_derivation d) "constraint" then Profile else Logical
    else if isStr (j_kind d) "resource" then
      if isStr (j_derivation d) "specialization" then Resource
      else if isStr (j_derivation d) "constraint" then
        if isStr (j_type d) "Extension" then Extension else Profile
      else Instance
    else Instance
  else if isStr (j_resourceType d) "ValueSet" then ValueSet
  else if isStr (j_resourceType d) "CodeSystem" then CodeSystem
  else if isStr (j_resourceType d) "ImplementationGuide" then ImplementationGuide
  else Instance.

(** Modelled from the spec: [FHIRDefinitions.add]. *)
Definition add (d : RawRecord) (s : FHIRDefinitions) : FHIRDefinitions :=
  mkFHIRDefinitions (label s) (ownDefinitions s ++ [(d, classify d)])
    (childFHIRDefs s) (unsuccessfulPackageLoad s) (packageMetadataByLabel s).

(** Modelled from the spec: [FHIRDefinitions.addPackageJson]. *)
Definition addPackageJson (id : string) (json : option RawRecord)
    (s : FHIRDefinitions) : FHIRDefinitions :=
  mkFHIRDefinitions (label s) (ownDefinitions s) (childFHIRDefs s)
    (unsuccessfulPackageLoad s) (packageMetadataByLabel s ++ [(id, json)]).

Definition setPackage (l : string) (s : FHIRDefinitions) : FHIRDefinitions :=
  mkFHIRDefinitions l (ownDefinitions s) (childFHIRDefs s)
    (unsuccessfulPackageLoad s) (packageMetadataByLabel s).

Definition setUnsuccessfulPackageLoad (b : bool) (s : FHIRDefinitions)
    : FHIRDefinitions :=
  mkFHIRDefinitions (label s) (ownDefinitions s) (childFHIRDefs s) b
    (packageMetadataByLabel s).

Definition pushChild (c : FHIRDefinitions) (s : FHIRDefinitions)
    : FHIRDefinitions :=
  mkFHIRDefinitions (label s) (ownDefinitions s) (childFHIRDefs s ++ [c])
    (unsuccessfulPackageLoad s) (packageMetadataByLabel s).

(** [merge(pkg, defs)] *)
Definition merge (pkg : LoadedPackage) (defs0 : FHIRDefinitions)
    : FHIRDefinitions :=
  let s1 := fold_left (fun s d => add d s) (defs pkg) defs0 in
  let s2 := addPackageJson (package pkg) (packageJson pkg) s1 in
  setPackage (package pkg) s2.

(** ** The environment and the process state *)

Record Env := {
  (** [axiosGet(url, options)], which may depend on the requests made
      before; [Throws] is a rejected request, [Returns None] an answer
      without [data]. *)
  axiosGet : list Call -> Call -> Completion (option ResponseData);
  (** Writing the downloaded content to a temporary file and extracting
      it in strict mode: the top-level entries of the extraction. *)
  tar_x : ResponseData -> Completion entries_t;
  (** [JSON.parse(text.trim())] *)
  JSON_parse : string -> Completion RawRecord;
  (** [Date.parse]; [None] is [NaN]. *)
  Date_parse : option string -> option Z;
  (** The value of the [n]-th [new Date().getTime()] of the process. *)
  clock : nat -> Z;
  (** [process.env.FPL_REGISTRY], as [getCustomRegistry] returns it (the
      notice that [getCustomRegistry] may log is left out). *)
  FPL_REGISTRY : option string;
  (** The error a Node file-system call raises, by code and path. *)
  fsError : string -> list string -> Error;
  (** The [message] of an instance of the classes of [src/errors]. *)
  errorMessage : Error -> string
}.

Record World := mkWorld {
  files : gmap string node;
  lastCurrentUpdate : option Z;
  cache : gmap string LoadedPackage;
  requests : list Call;
  logged : list (string * string);
  clockReads : nat
}.

Definition M (A : Type) : Type := World -> Completion A * World.

Definition ret {A} (a : A) : M A := fun w => (Returns a, w).

Definition throw {A} (e : Error) : M A := fun w => (Throws e, w).

Definition bind {A B} (m : M A) (k : A -> M B) : M B :=
  fun w =>
    match m w with
    | (Returns a, w') => k a w'
    | (Throws e, w') => (Throws e, w')
    end.

(** [try { m } catch (e) { h e }] *)
Definition tryCatch {A} (m : M A) (h : Error -> M A) : M A :=
  fun w =>
    match m w with
    | (Returns a, w') => (Returns a, w')
    | (Throws e, w') => h e w'
    end.

Declare Scope js_scope.
Delimit Scope js_scope with js.
Notation "'let*' x ':=' m 'in' k" := (bind m (fun x => k))
  (at level 10, x pattern, m at level 100, k at level 200) : js_scope.
Notation "m ';;' k" := (bind m (fun _ => k))
  (at level 100, k at level 200, right associativity) : js_scope.
Open Scope js_scope.

Definition message (E : Env) (e : Error) : string :=
  match e with
  | OtherError m => m
  | _ => errorMessage E e
  end.

(** ** The part of the [semver] package that [lookUpLatestPatchVersion] uses

    [semver] is a dependency, not part of the repository.  The module below
    follows node-semver 7 in strict mode without [includePrerelease]: the
    grammar of a version, precedence ([compare]), the range [X.Y.x]
    (which the package desugars to [>=X.Y.0 <X.(Y+1).0-0]) and
    [maxSatisfying].  Ranges of another form are not modelled, since the
    caller passes on none; numeric pre-release identifiers are compared
    exactly. *)

Module semver.

Definition MAX_LENGTH : nat := 256.
Definition MAX_SAFE_INTEGER : N := 9007199254740991.

Inductive identifier :=
| Num (n : N)
| Alnum (s : string).

Record SemVer := {
  raw : string;
  major : N;
  minor : N;
  patch : N;
  prerelease : list identifier;
  build : list string
}.

Fixpoint allChars (p : ascii -> bool) (s : string) : bool :=
  match s with
  | EmptyString => true
  | String c s' => p c && allChars p s'
  end.

Definition isLetter (c : ascii) : bool :=
  let n := nat_of_ascii c in
  ((65 <=? n)%nat && (n <=? 90)%nat) || ((97 <=? n)%nat && (n <=? 122)%nat).

Definition isIdentChar (c : ascii) : bool :=
  Js.isDigit c || isLetter c || Ascii.eqb c "-".

Fixpoint digitsToN (acc : N) (s : string) : N :=
  match s with
  | EmptyString => acc
  | String c s' => digitsToN (acc * 10 + N.of_nat (nat_of_ascii c - 48)) s'
  end.

(** [0|[1-9]\d*] *)
Definition numericIdentifier (s : string) : option N :=
  match s with
  | EmptyString => None
  | String c s' =>
      if allChars Js.isDigit s && (negb (Ascii.eqb c "0") || String.eqb s' "")
      then Some (digitsToN 0 s) else None
  end.

Definition prereleaseIdentifier (s : string) : option identifier :=
  if allChars Js.isDigit s then Num <$> numericIdentifier s
  else if allChars isIdentChar s then Some (Alnum s)
  else None.

Definition buildIdentifier (s : string) : option string :=
  if Js.nonEmpty s && allChars isIdentChar s then Some s else None.

Definition isSpace (c : ascii) : bool :=
  let n := nat_of_ascii c in ((9 <=? n)%nat && (n <=? 13)%nat) || (n =? 32)%nat.

Fixpoint trimStart (s : string) : string :=
  match s with
  | String c s' => if isSpace c then trimStart s' else s
  | EmptyString => EmptyString
  end.

Fixpoint trimEnd (s : string) : string :=
  match s with
  | EmptyString => EmptyString
  | String c s' =>
      match trimEnd s' with
      | EmptyString => if isSpace c then EmptyString else String c EmptyString
      | t => String c t
      end
  end.

Definition trim (s : string) : string := trimEnd (trimStart s).

(** The qualifiers after [MAJOR.MINOR.PATCH]: nothing, [-pre], [+build]
    or [-pre+build]. *)
Definition qualifiers (rest : string)
    : option (list identifier * list string) :=
  match rest with
  | EmptyString => Some ([], [])
  | String "-"%char r =>
      match Js.split "+" r with
      | [p] =>
          pre ← mapM prereleaseIdentifier (Js.split "." p); Some (pre, [])
      | [p; b] =>
          pre ← mapM prereleaseIdentifier (Js.split "." p);
          bld ← mapM buildIdentifier (Js.split "." b);
          Some (pre, bld)
      | _ => None
      end
  | String "+"%char b =>
      bld ← mapM buildIdentifier (Js.split "." b); Some ([], bld)
  | _ => None
  end.

Definition dotThen (s : string) : option string :=
  match s with
  | String "."%char r => Some r
  | _ => None
  end.

(** [new SemVer(version)]; [None] when the constructor throws. *)
Definition parse (version : string) : option SemVer :=
  if (MAX_LENGTH <? String.length version)%nat then None else
  let t := trim version in
  let t := match t with String "v"%char r => r | _ => t end in
  let (a, r1) := Js.spanDigits t in
  M ← numericIdentifier a;
  r1' ← dotThen r1;
  let (b, r2) := Js.spanDigits r1' in
  m ← numericIdentifier b;
  r2' ← dotThen r2;
  let (c, r3) := Js.spanDigits r2' in
  p ← numericIdentifier c;
  q ← qualifiers r3;
  if (MAX_SAFE_INTEGER <? M)%N || (MAX_SAFE_INTEGER <? m)%N
     || (MAX_SAFE_INTEGER <? p)%N
  then None
  else Some {| raw := version; major := M; minor := m; patch := p;
               prerelease := q.1; build := q.2 |}.

Definition compareIdentifiers (a b : identifier) : comparison :=
  match a, b with
  | Num x, Num y => N.compare x y
  | Num _, Alnum _ => Lt
  | Alnum _, Num _ => Gt
  | Alnum x, Alnum y => String.compare x y
  end.

Definition compareMain (a b : SemVer) : comparison :=
  match N.compare (major a) (major b) with
  | Eq =>
      match N.compare (minor a) (minor b) with
      | Eq => N.compare (patch a) (patch b)
      | c => c
      end
  | c => c
  end.

Fixpoint comparePreLoop (a b : list identifier) : comparison :=
  match a, b with
  | [], [] => Eq
  | _ :: _, [] => Gt
  | [], _ :: _ => Lt
  | x :: a', y :: b' =>
      match compareIdentifiers x y with
      | Eq => comparePreLoop a' b'
      | c => c
      end
  end.

(** A version without pre-release is above the same version with one. *)
Definition comparePre (a b : SemVer) : comparison :=
  match prerelease a, prerelease b with
  | _ :: _, [] => Lt
  | [], _ :: _ => Gt
  | [], [] => Eq
  | pa, pb => comparePreLoop pa pb
  end.

Definition compare (a b : SemVer) : comparison :=
  match compareMain a b with
  | Eq => comparePre a b
  | c => c
  end.

Inductive operator := GE | LT.

Record Comparator := {
  op : operator;
  operand : SemVer
}.

Definition plain (M m p : N) (pre : list identifier) : SemVer :=
  {| raw := ""; major := M; minor := m; patch := p;
     prerelease := pre; build := [] |}.

(** [new Range("X.Y.x")]: the comparators [>=X.Y.0] and [<X.(Y+1).0-0];
    [None] when the constructor throws. *)
Definition patchRange (range : string) : option (list Comparator) :=
  let (a, r1) := Js.spanDigits range in
  M ← numericIdentifier a;
  r1' ← dotThen r1;
  let (b, r2) := Js.spanDigits r1' in
  m ← numericIdentifier b;
  if negb (String.eqb r2 ".x") then None
  else if (MAX_SAFE_INTEGER <? M)%N || (MAX_SAFE_INTEGER <? m + 1)%N then None
  else Some [ {| op := GE; operand := plain M m 0 [] |};
              {| op := LT; operand := plain M (m + 1) 0 [Num 0] |} ].

(** [comparator.test(version)] *)
Definition testComparator (c : Comparator) (v : SemVer) : bool :=
  match op c, compare v (operand c) with
  | GE, Lt => false
  | GE, _ => true
  | LT, Lt => true
  | LT, _ => false
  end.

Definition sameTuple (a b : SemVer) : bool :=
  (major a =? major b)%N && (minor a =? minor b)%N && (patch a =? patch b)%N.

(** [testSet]: every comparator holds and, for a version with a
    pre-release, some comparator carries a pre-release on the same
    [MAJOR.MINOR.PATCH]. *)
Definition testSet (set : list Comparator) (v : SemVer) : bool :=
  forallb (fun c => testComparator c v) set &&
  match prerelease v with
  | [] => true
  | _ :: _ =>
      existsb (fun c =>
                 match prerelease (operand c) with
                 | [] => false
                 | _ :: _ => sameTuple (operand c) v
                 end) set
  end.

(** [range.test(version)] on a version string *)
Definition test (set : list Comparator) (version : string) : bool :=
  match parse version with
  | Some v => testSet set v
  | None => false
  end.

Definition maxStep (set : list Comparator) (acc : option (string * SemVer))
    (v : string) : option (string * SemVer) :=
  match parse v with
  | Some sv =>
      if testSet set sv then
        match acc with
        | None => Some (v, sv)
        | Some (_, maxSV) =>
            match compare maxSV sv with
            | Lt => Some (v, sv)
            | _ => acc
            end
        end
      else acc
  | None => acc
  end.

(** [maxSatisfying(versions, range)]; [None] is [null]. *)
Definition maxSatisfying (versions : list string) (range : string)
    : option string :=
  match patchRange range with
  | None => None
  | Some set => fst <$> fold_left (maxStep set) versions None
  end.

End semver.

(** ** The load module *)

Definition setFiles (f : gmap string node) (w : World) : World :=
  mkWorld f (lastCurrentUpdate w) (cache w) (requests w) (logged w) (clockReads w).

Definition setLastCurrentUpdate (t : option Z) (w : World) : World :=
  mkWorld (files w) t (cache w) (requests w) (logged w) (clockReads w).

Definition setCache (c : gmap string LoadedPackage) (w : World) : World :=
  mkWorld (files w) (lastCurrentUpdate w) c (requests w) (logged w) (clockReads w).

Definition setRequests (r : list Call) (w : World) : World :=
  mkWorld (files w) (lastCurrentUpdate w) (cache w) r (logged w) (clockReads w).

Definition setLogged (l : list (string * string)) (w : World) : World :=
  mkWorld (files w) (lastCurrentUpdate w) (cache w) (requests w) l (clockReads w).

Definition setClockReads (n : nat) (w : World) : World :=
  mkWorld (files w) (lastCurrentUpdate w) (cache w) (requests w) (logged w) n.

Definition liftC {A} (c : Completion A) : M A := fun w => (c, w).

(** [log(level, message)] *)
Definition log (level msg : string) : M unit :=
  fun w => (Returns tt, setLogged (logged w ++ [(level, msg)]) w).

(** Walking down from a directory; the failure is the Node error code. *)
Fixpoint resolve (n : node) (path : list string) : string + node :=
  match path with
  | [] => inr n
  | s :: p =>
      match n with
      | Dir es =>
          match lookupEntry s es with
          | Some c => resolve c p
          | None => inl "ENOENT"
          end
      | File _ => inl "ENOTDIR"
      end
  end.

(** One [fs.renameSync(dir/file, dir/package/file)], with the POSIX rules
    for a target that exists already. *)
Definition renameIntoPackage (E : Env) (file : string) (es : entries_t)
    : Completion entries_t :=
  match lookupEntry "package" es, lookupEntry file es with
  | Some (Dir pk), Some src =>
      let moved x := Returns (replaceEntry "package" (Dir x) (removeEntry file es)) in
      match lookupEntry file pk, src with
      | None, _ => moved (pk ++ [(file, src)])
      | Some (File _), File _ => moved (replaceEntry file src pk)
      | Some (Dir []), Dir _ => moved (replaceEntry file src pk)
      | Some (File _), Dir _ => Throws (fsError E "ENOTDIR" ["package"; file])
      | Some (Dir _), File _ => Throws (fsError E "EISDIR" ["package"; file])
      | Some (Dir (_ :: _)), Dir _ => Throws (fsError E "ENOTEMPTY" ["package"; file])
      end
  | Some (File _), Some _ => Throws (fsError E "ENOTDIR" ["package"; file])
  | _, _ => Throws (fsError E "ENOENT" [file])
  end.

Fixpoint renameAll (E : Env) (todo : list string) (es : entries_t)
    : entries_t * option Error :=
  match todo with
  | [] => (es, None)
  | file :: rest =>
      match renameIntoPackage E file es with
      | Returns es' => renameAll E rest es'
      | Throws e => (es, Some e)
      end
  end.

(** [cleanCachedPackage(packageDirectory)], on the entries of the
    directory: the entries afterwards, and the exception if a rename
    raised one. *)
Definition cleanCachedPackage (E : Env) (es : entries_t)
    : entries_t * option Error :=
  if bool_decide (is_Some (lookupEntry "package" es)) then
    renameAll E (filter (fun file => file <> "package") (names es)) es
  else (es, None).

(** [PackageCache.isCurrentPackageRefreshNeeded], given the time of the
    last refresh and the current time in milliseconds. *)
Definition isCurrentPackageRefreshNeeded (lastCurrentUpdate : option Z)
    (now : Z) : bool :=
  match lastCurrentUpdate with
  | None => true
  | Some last => (last - now >? 86400000)%Z
  end.

(** ** Reading the file system *)

(** Sequencing of synchronous code that may throw. *)
Definition andThen {A B} (c : Completion A) (k : A -> Completion B)
    : Completion B :=
  match c with
  | Returns a => k a
  | Throws e => Throws e
  end.

(** [fs.existsSync(path.join(root, ...path))] *)
Definition existsSync (fs : gmap string node) (root : string)
    (path : list string) : bool :=
  match fs !! root with
  | Some n => match resolve n path with inr _ => true | inl _ => false end
  | None => false
  end.

(** [fs.readdirSync(path.join(root, ...path))] *)
Definition readdirSync (E : Env) (fs : gmap string node) (root : string)
    (path : list string) : Completion (list string) :=
  match fs !! root with
  | Some n =>
      match resolve n path with
      | inr (Dir es) => Returns (names es)
      | inr (File _) => Throws (fsError E "ENOTDIR" (root :: path))
      | inl code => Throws (fsError E code (root :: path))
      end
  | None => Throws (fsError E "ENOENT" (root :: path))
  end.

(** [fs.readFileSync(path.join(root, ...path), 'utf-8')] *)
Definition readFileSync (E : Env) (fs : gmap string node) (root : string)
    (path : list string) : Completion string :=
  match fs !! root with
  | Some n =>
      match resolve n path with
      | inr (File content) => Returns content
      | inr (Dir _) => Throws (fsError E "EISDIR" (root :: path))
      | inl code => Throws (fsError E code (root :: path))
      end
  | None => Throws (fsError E "ENOENT" (root :: path))
  end.

(** The body of the [forEach] of [loadFromPath], over the [.json] files in
    listing order. *)
Fixpoint readDefs (E : Env) (fs : gmap string node) (root : string)
    (dir : list string) (todo : list string) (result : LoadedPackage)
    : Completion LoadedPackage :=
  match todo with
  | [] => Returns result
  | file :: rest =>
      andThen (readFileSync E fs root (dir ++ [file])) (fun text =>
      andThen (JSON_parse E text) (fun def =>
      readDefs E fs root dir rest
        {| package := package result;
           defs := defs result ++ [def];
           packageJson := if String.eqb file "package.json" then Some def
                          else packageJson result |}))
  end.

(** [loadFromPath] between the look-up in the process cache and the
    [PackageCache.put]: the directory whose lower-cased name is the key,
    read into a [LoadedPackage]; [None] when there is no such directory. *)
Definition readCachedPackage (E : Env) (fs : gmap string node)
    (cachePath targetPackage : string) : Completion (option LoadedPackage) :=
  andThen (if existsSync fs cachePath [] then readdirSync E fs cachePath []
           else Returns []) (fun packages =>
  match find (fun packageName =>
                String.eqb (Js.toLowerCase packageName) targetPackage)
             packages with
  | None => Returns None
  | Some cachedPackage =>
      let dir := [cachedPackage; "package"] in
      andThen (readdirSync E fs cachePath dir) (fun listing =>
      andThen (readDefs E fs cachePath dir
                 (filter (fun file => Js.endsWith file ".json" = true) listing)
                 {| package := targetPackage; defs := []; packageJson := None |})
              (fun result => Returns (Some result)))
  end).

Section Loader.

Variable E : Env.

(** [new Date().getTime()] *)
Definition newDate : M Z :=
  fun w => (Returns (clock E (clockReads w)), setClockReads (S (clockReads w)) w).

(** The call as the process makes it: the clock is read only when a
    refresh has been recorded. *)
Definition PackageCache_isCurrentPackageRefreshNeeded : M bool :=
  fun w =>
    match lastCurrentUpdate w with
    | None => (Returns (isCurrentPackageRefreshNeeded None 0), w)
    | Some last =>
        (let* now := newDate in
         ret (isCurrentPackageRefreshNeeded (Some last) now)) w
    end.

Definition PackageCache_markCurrentPackageRefreshed : M unit :=
  let* now := newDate in
  fun w => (Returns tt, setLastCurrentUpdate (Some now) w).

(** Synchronous code that reads the file system. *)
Definition reading {A} (f : gmap string node -> Completion A) : M A :=
  fun w => (f (files w), w).

(** [axiosGet(url, options)]; the request is recorded whether or not it
    succeeds. *)
Definition get (url : string) (responseType : option string)
    : M (option ResponseData) :=
  fun w =>
    let c := {| call_url := url; call_responseType := responseType |} in
    (axiosGet E (requests w) c, setRequests (requests w ++ [c]) w).

Definition getCustomRegistry : option string := FPL_REGISTRY E.

(** [loadFromPath(cachePath, targetPackage)]; [None] is [null].  A key
    in the process cache is answered from it; otherwise the package is
    read from the disk and, when found, put into the process cache. *)
Definition loadFromPath (cachePath targetPackage : string)
    : M (option LoadedPackage) :=
  fun w =>
    match cache w !! targetPackage with
    | Some p => (Returns (Some p), w)
    | None =>
        match readCachedPackage E (files w) cachePath targetPackage with
        | Returns (Some result) =>
            (Returns (Some result),
             setCache (<[targetPackage := result]> (cache w)) w)
        | Returns None => (Returns None, w)
        | Throws e => (Throws e, w)
        end
    end.

Definition stripTrailingSlash (registry : string) : string :=
  if Js.endsWith registry "/" then Js.dropLast 1 registry else registry.

(** [getDistUrl(registry, packageName, version)] *)
Definition getDistUrl (registry packageName version : string) : M string :=
  let cleanedRegistry := stripTrailingSlash registry in
  let* res := get (cleanedRegistry +:+ "/" +:+ packageName) None in
  let npmLocation :=
    match res with
    | Some (RegistryInfo _ (Some versions)) =>
        match find (fun kv => String.eqb kv.1 version) versions with
        | Some (_, tarball) => tarball
        | None => None
        end
    | _ => None
    end in
  if Js.truthy npmLocation then ret (default "" npmLocation)
  else ret (cleanedRegistry +:+ "/" +:+ packageName +:+ "/" +:+ version).

(** The registry metadata request shared by the two look-ups: the custom
    registry when one is set, else [packages.fhir.org] with
    [packages2.fhir.org] as fallback; any failure becomes
    [LatestVersionUnavailableError]. *)
Definition registryMetadata (packageName : string) (isPatch : bool)
    : M (option ResponseData) :=
  let customRegistry := getCustomRegistry in
  tryCatch
    (if Js.truthy customRegistry then
       get (stripTrailingSlash (default "" customRegistry) +:+ "/" +:+ packageName)
           (Some "json")
     else
       tryCatch
         (get ("https://packages.fhir.org/" +:+ packageName) (Some "json"))
         (fun _ =>
            get ("https://packages2.fhir.org/packages/" +:+ packageName)
                (Some "json")))
    (fun _ =>
       throw (LatestVersionUnavailableError packageName customRegistry isPatch)).

(** [lookUpLatestVersion(packageName)] *)
Definition lookUpLatestVersion (packageName : string) : M string :=
  let* res := registryMetadata packageName false in
  match res with
  | Some (RegistryInfo (Some latest) _) =>
      if Js.nonEmpty latest then ret latest
      else throw (LatestVersionUnavailableError packageName getCustomRegistry false)
  | _ => throw (LatestVersionUnavailableError packageName getCustomRegistry false)
  end.

(** [lookUpLatestPatchVersion(packageName, version)] *)
Definition lookUpLatestPatchVersion (packageName version : string)
    : M string :=
  if negb (isPatchWildcard version) then
    throw (IncorrectWildcardVersionFormatError packageName version)
  else
    let* res := registryMetadata packageName true in
    match res with
    | Some (RegistryInfo _ (Some listing)) =>
        let versions := map fst listing in
        match semver.maxSatisfying versions version with
        | Some latest => ret latest
        | None =>
            throw (LatestVersionUnavailableError packageName getCustomRegistry true)
        end
    | _ => throw (LatestVersionUnavailableError packageName getCustomRegistry true)
    end.

End Loader.

Section Merge.

Variable E : Env.

Definition baseUrl : string := "https://build.fhir.org/ig".

(** [(p1, p2) => Date.parse(p2.date) - Date.parse(p1.date)]; a [NaN]
    result counts as zero, as [Array.prototype.sort] takes it. *)
Definition byDateDescending (p1 p2 : QAEntry) : Z :=
  match Date_parse E (qa_date p2), Date_parse E (qa_date p1) with
  | Some d2, Some d1 => d2 - d1
  | _, _ => 0
  end.

Fixpoint insertSorted (cmp : QAEntry -> QAEntry -> Z) (x : QAEntry)
    (l : list QAEntry) : list QAEntry :=
  match l with
  | [] => [x]
  | y :: l' => if (cmp x y <=? 0)%Z then x :: y :: l' else y :: insertSorted cmp x l'
  end.

(** [Array.prototype.sort(cmp)] as a stable insertion sort. *)
Definition sort (cmp : QAEntry -> QAEntry -> Z) (l : list QAEntry)
    : list QAEntry :=
  fold_right (insertSorted cmp) [] l.

(** The newest build of [packageName] on the branch asked for. *)
Definition newestBuild (packageName : string) (branch : option string)
    (qaData : list QAEntry) : option QAEntry :=
  if (0 <? length qaData)%nat then
    let matchingPackages :=
      filter (fun p => package_id p = packageName) qaData in
    let matchingPackages :=
      match branch with
      | None =>
          filter (fun p => Js.endsWith (repo p) "/master/qa.json"
                           || Js.endsWith (repo p) "/main/qa.json" = true)
                 matchingPackages
      | Some b =>
          filter (fun p => Js.endsWith (repo p) ("/" +:+ b +:+ "/qa.json") = true)
                 matchingPackages
      end in
    head (sort byDateDescending matchingPackages)
  else None.

(** The part of [doDownload] between extraction and reload: the
    directory [cachePath/fullPackageName] is removed if present and the
    extracted directory is moved there (the cache root is created when
    it is missing).  [fullPackageName] is taken as the name of one entry
    of the cache root, which it is when it holds no path separator; of a
    name that holds one [path.join] makes a nested or another path, which
    is not followed here. *)
Definition install (cachePath fullPackageName : string) (es : entries_t)
    : M unit :=
  fun w =>
    match files w !! cachePath with
    | None =>
        (Returns tt,
         setFiles (<[cachePath := Dir [(fullPackageName, Dir es)]]> (files w)) w)
    | Some (Dir root) =>
        (Returns tt,
         setFiles (<[cachePath :=
                      Dir (removeEntry fullPackageName root
                             ++ [(fullPackageName, Dir es)])]> (files w)) w)
    | Some (File _) =>
        (Throws (fsError E "ENOTDIR" [cachePath; fullPackageName]), w)
    end.

(** [doDownload(url)]; the value is that of [loadedPackage] afterwards. *)
Definition doDownload (cachePath fullPackageName : string)
    (loadedPackage : option LoadedPackage) (url : string)
    : M (option LoadedPackage) :=
  log "info" ("Downloading " +:+ fullPackageName +:+ "... " +:+ url) ;;
  let* res := get E url (Some "arraybuffer") in
  match res with
  | Some data =>
      log "info" ("Downloaded " +:+ fullPackageName) ;;
      let* tempDirectory := liftC (tar_x E data) in
      let* cleaned :=
        match cleanCachedPackage E tempDirectory with
        | (es, None) => ret es
        | (_, Some e) => throw e
        end in
      install cachePath fullPackageName cleaned ;;
      loadFromPath E cachePath fullPackageName
  | None =>
      log "info" ("Unable to download most current version of "
                  +:+ fullPackageName) ;;
      ret loadedPackage
  end.

(** The first statement of [mergeDependency]: the version to load. *)
Definition resolveVersion (packageName version : string) : M string :=
  if String.eqb version "latest" then lookUpLatestVersion E packageName
  else if isPatchWildcard version then
    lookUpLatestPatchVersion E packageName version
  else if isMinorWildcard version then
    throw (IncorrectWildcardVersionFormatError packageName version)
  else ret version.

(** The fallback from [dev] to [current]: the version, the cache key and
    the loaded package afterwards. *)
Definition devFallback (packageName version fullPackageName : string)
    (loadedPackage : option LoadedPackage) (cachePath : string)
    : M (string * string * option LoadedPackage) :=
  match loadedPackage with
  | None =>
      if String.eqb version "dev" then
        log "info"
          ("Falling back to " +:+ packageName +:+ "#current since "
           +:+ fullPackageName
           +:+ " is not locally cached. To avoid this, add "
           +:+ fullPackageName
           +:+ " to your local FHIR cache by building it locally with the HL7 FHIR IG Publisher.") ;;
        let* reloaded := loadFromPath E cachePath (packageName +:+ "#current") in
        ret ("current", packageName +:+ "#current", reloaded)
      else ret (version, fullPackageName, loadedPackage)
  | Some _ => ret (version, fullPackageName, loadedPackage)
  end.

(** The [current] branch of [mergeDependency] when a refresh is due: the
    URL to download from, if the cached package is not the newest build.
    Of the answer to the request for [qas.json] the code reads the
    [length] and, when that is above zero, calls [filter]: a listing is
    filtered, an object has no [length] and is passed over, and a text
    that is not empty has a [length] but no [filter], which is a
    [TypeError]. *)
Definition checkCurrentBuild (packageName version fullPackageName : string)
    (loadPath : list string) (cachePath : string) : M (option string) :=
  let branch := Js.afterFirst "$" version in
  let* res := get E (baseUrl +:+ "/qas.json") None in
  let* qaData :=
    match res with
    | Some (QAList l) => ret l
    | Some (Binary text) =>
        if Js.nonEmpty text
        then throw (OtherError "qaData.filter is not a function")
        else ret []
    | _ => ret []
    end in
  match newestBuild packageName branch qaData with
  | Some newestPackage =>
      if Js.nonEmpty (repo newestPackage) then
        let packagePath := Js.dropLast 8 (repo newestPackage) in
        let igUrl := baseUrl +:+ "/" +:+ packagePath in
        let* manifest := get E (igUrl +:+ "/package.manifest.json") None in
        let manifestDate :=
          match manifest with Some (Manifest d) => d | _ => None end in
        let* cachedPackageJSON :=
          reading (fun fs =>
            if existsSync fs cachePath (loadPath ++ ["package.json"]) then
              andThen (readFileSync E fs cachePath (loadPath ++ ["package.json"]))
                (fun text =>
              andThen (JSON_parse E text) (fun json => Returns (Some json)))
            else Returns None) in
        if bool_decide (manifestDate <> (cachedPackageJSON ≫= j_date)) then
          match cachedPackageJSON with
          | Some json =>
              log "debug"
                ("Cached package date for " +:+ fullPackageName +:+ " ("
                 +:+ formatDate (j_date json)
                 +:+ ") does not match last build date on build.fhir.org ("
                 +:+ formatDate manifestDate +:+ ")") ;;
              log "info"
                ("Cached package " +:+ fullPackageName
                 +:+ " is out of date and will be replaced by the more recent version found on build.fhir.org.") ;;
              ret (Some (igUrl +:+ "/package.tgz"))
          | None => ret (Some (igUrl +:+ "/package.tgz"))
          end
        else
          match cachedPackageJSON with
          | Some json =>
              log "debug"
                ("Cached package date for " +:+ fullPackageName +:+ " ("
                 +:+ formatDate (j_date json)
                 +:+ ") matches last build date on build.fhir.org ("
                 +:+ formatDate manifestDate
                 +:+ "), so the cached package will be used") ;;
              ret None
          | None =>
              throw (OtherError
                       "Cannot read properties of undefined (reading 'date')")
          end
      else throw (CurrentPackageLoadError fullPackageName)
  | None => throw (CurrentPackageLoadError fullPackageName)
  end.

(** The [if / else if / else if] of [mergeDependency] that sets
    [packageUrl]; [None] leaves it unset. *)
Definition choosePackageUrl (packageName version fullPackageName : string)
    (loadPath : list string) (loadedPackage : option LoadedPackage)
    (cachePath : string) : M (option string) :=
  if Js.startsWith packageName "hl7.fhir.r5." && String.eqb version "current"
  then
    (match loadedPackage with
     | Some _ =>
         log "info"
           ("Downloading " +:+ fullPackageName
            +:+ " since FHIR Package Loader cannot determine if the version in "
            +:+ cachePath +:+ " is the most recent build.")
     | None => ret tt
     end) ;;
    ret (Some ("https://build.fhir.org/" +:+ packageName +:+ ".tgz"))
  else if isCurrentVersion version then
    let* due := PackageCache_isCurrentPackageRefreshNeeded E in
    if due then
      PackageCache_markCurrentPackageRefreshed E ;;
      checkCurrentBuild packageName version fullPackageName loadPath cachePath
    else ret None
  else
    match loadedPackage with
    | None =>
        let customRegistry := getCustomRegistry E in
        if Js.truthy customRegistry then
          let* url := getDistUrl E (default "" customRegistry) packageName version in
          ret (Some url)
        else
          ret (Some ("https://packages.fhir.org/" +:+ packageName +:+ "/" +:+ version))
    | Some _ => ret None
    end.

(** The [if (packageUrl)] of [mergeDependency]: the download, with the
    second registry as fallback for a [packages.fhir.org] URL; the value is
    that of [loadedPackage] afterwards. *)
Definition download (packageName version fullPackageName : string)
    (loadedPackage : option LoadedPackage) (cachePath : string)
    (packageUrl : option string) : M (option LoadedPackage) :=
  match packageUrl with
  | Some url =>
      tryCatch
        (doDownload cachePath fullPackageName loadedPackage url)
        (fun _ =>
           if String.eqb url
                ("https://packages.fhir.org/" +:+ packageName +:+ "/" +:+ version)
           then
             tryCatch
               (doDownload cachePath fullPackageName loadedPackage
                  ("https://packages2.fhir.org/packages/" +:+ packageName
                   +:+ "/" +:+ version))
               (fun _ => throw (PackageLoadError fullPackageName None))
           else
             throw (PackageLoadError fullPackageName (getCustomRegistry E)))
  | None => ret loadedPackage
  end.

(** The last statements of [mergeDependency]. *)
Definition finish (fullPackageName : string)
    (loadedPackage : option LoadedPackage) (FHIRDefs : FHIRDefinitions)
    : M FHIRDefinitions :=
  match loadedPackage with
  | None => throw (PackageLoadError fullPackageName (getCustomRegistry E))
  | Some pkg =>
      let merged := merge pkg FHIRDefs in
      log "info" ("Loaded package " +:+ fullPackageName) ;;
      ret merged
  end.

(** [mergeDependency] after its first statement. *)
Definition mergeResolved (packageName version : string)
    (FHIRDefs : FHIRDefinitions) (cachePath : string) : M FHIRDefinitions :=
  let fullPackageName := packageName +:+ "#" +:+ version in
  let loadPath := [fullPackageName; "package"] in
  log "info" ("Checking " +:+ cachePath +:+ " for " +:+ fullPackageName +:+ "...") ;;
  let* loadedPackage := loadFromPath E cachePath fullPackageName in
  (match loadedPackage with
   | Some _ => log "info" ("Found " +:+ fullPackageName +:+ " in " +:+ cachePath +:+ ".")
   | None => log "info" ("Did not find " +:+ fullPackageName +:+ " in " +:+ cachePath +:+ ".")
   end) ;;
  let* (version, fullPackageName, loadedPackage) :=
    devFallback packageName version fullPackageName loadedPackage cachePath in
  let* packageUrl :=
    choosePackageUrl packageName version fullPackageName loadPath loadedPackage
      cachePath in
  let* loadedPackage :=
    download packageName version fullPackageName loadedPackage cachePath
      packageUrl in
  finish fullPackageName loadedPackage FHIRDefs.

(** [mergeDependency(packageName, version, FHIRDefs, cachePath, log)] *)
Definition mergeDependency (packageName version : string)
    (FHIRDefs : FHIRDefinitions) (cachePath : string) : M FHIRDefinitions :=
  let* version := resolveVersion packageName version in
  mergeResolved packageName version FHIRDefs cachePath.

End Merge.

(** ** Promises and the turns of the event loop *)

(** What has become of a call of an [async] function between two turns of
    the event loop.  Either it has ended, with [r], or the function waits
    at an [await]; when the event loop takes it up again, in the state [w]
    that the process has by then, it runs to its next [await] or to its
    end, which makes [next w] of it and leaves the process in the state
    [after w].  Other code may have run between any two turns, which is
    why both depend on [w]. *)
Inductive Task (R : Type) : Type :=
| Settled (r : R)
| Awaits (next : World -> Task R) (after : World -> World).
Arguments Settled {R} r.
Arguments Awaits {R} next after.

(** A call of an [async] function: the body runs at once, up to its first
    [await] or to its end. *)
Definition Async (R : Type) : Type := World -> Task R * World.

(** An [async] function that awaits nothing: it has ended when the call
    returns. *)
Definition atOnce {R} (body : World -> R * World) : Async R :=
  fun w => let (r, w') := body w in (Settled r, w').

(** An [async] function that awaits once before it does [body]. *)
Definition later {R} (body : World -> R * World) : Async R :=
  fun w => (Awaits (fun w' => Settled (body w').1) (fun w' => (body w').2), w).

(** What a call of the merge has ended with: the completion of its
    promise, and the store that was passed to the call, as the merge has
    left it by then (the merge writes to the object that it is given). *)
Record MergeEnd := {
  completion : Completion FHIRDefinitions;
  storeGiven : FHIRDefinitions
}.

(** [promise.catch(handler)] on the promise of a merge: a fulfilment is
    passed on; the handler of a rejection runs in a turn of its own, after
    the rejection, and finds the store that was passed to the merge as the
    merge has left it. *)
Fixpoint catch (merge : Task MergeEnd)
    (handler : FHIRDefinitions -> Error -> M FHIRDefinitions)
    : Task (Completion FHIRDefinitions) :=
  match merge with
  | Settled {| completion := Returns s |} => Settled (Returns s)
  | Settled {| completion := Throws e; storeGiven := fhirDefs |} =>
      Awaits (fun w => Settled (handler fhirDefs e w).1)
             (fun w => (handler fhirDefs e w).2)
  | Awaits next after => Awaits (fun w => catch (next w) handler) after
  end.

(** The state of a promise. *)
Inductive Promise (A : Type) : Type :=
| Pending
| Fulfilled (a : A)
| Rejected (e : Error).
Arguments Pending {A}.
Arguments Fulfilled {A} a.
Arguments Rejected {A} e.

(** [calls.map(call => call())]: the calls in order, each running up to
    its first [await] before the next one is made. *)
Fixpoint callAll {R} (calls : list (Async R)) (w : World)
    : list (Task R) * World :=
  match calls with
  | [] => ([], w)
  | call :: rest =>
      let (t, w1) := call w in
      let (ts, w2) := callAll rest w1 in
      (t :: ts, w2)
  end.

(** One turn of the event loop: the task at index [i] is taken up again,
    if it waits. *)
Definition turn {R} (i : nat) (tasks : list (Task R)) (w : World)
    : list (Task R) * World :=
  match tasks !! i with
  | Some (Awaits next after) => (<[i := next w]> tasks, after w)
  | _ => (tasks, w)
  end.

(** The first rejection among the tasks, and the values of the tasks if
    all of them have fulfilled. *)
Fixpoint firstRejection {A} (tasks : list (Task (Completion A)))
    : option Error :=
  match tasks with
  | [] => None
  | Settled (Throws e) :: _ => Some e
  | _ :: rest => firstRejection rest
  end.

Fixpoint fulfilments {A} (tasks : list (Task (Completion A)))
    : option (list A) :=
  match tasks with
  | [] => Some []
  | Settled (Returns a) :: rest => cons a <$> fulfilments rest
  | _ :: _ => None
  end.

(** The state of [Promise.all(promises)] after a turn, given its state
    before: it rejects with the first rejection among the promises and
    stays so; it fulfils, with the values in the order of the promises,
    when every promise has fulfilled. *)
Definition Promise_all {A} (before : Promise (list A))
    (promises : list (Task (Completion A))) : Promise (list A) :=
  match before with
  | Rejected e => Rejected e
  | _ =>
      match firstRejection promises with
      | Some e => Rejected e
      | None =>
          match fulfilments promises with
          | Some values => Fulfilled values
          | None => Pending
          end
      end
  end.

(** The turns of the event loop: [order] names, turn by turn, the task
    that is taken up.  The order is not in the hands of the program: a
    task is taken up when what it awaits has arrived. *)
Fixpoint turns {A} (order : list nat) (tasks : list (Task (Completion A)))
    (all : Promise (list A)) (w : World)
    : list (Task (Completion A)) * Promise (list A) * World :=
  match order with
  | [] => (tasks, all, w)
  | i :: rest =>
      let (tasks', w') := turn i tasks w in
      turns rest tasks' (Promise_all all tasks') w'
  end.

(** [promise.then(handler)] for a handler that does not throw. *)
Definition then_ {A B} (promise : Promise A) (handler : A -> B) : Promise B :=
  match promise with
  | Pending => Pending
  | Fulfilled a => Fulfilled (handler a)
  | Rejected e => Rejected e
  end.

Section Batch.

Variable E : Env.

(** [exports.mergeDependency]: [loadDependencies] calls the merge through
    the export object of the module, so that it can be replaced.  It is
    an [async] function, of which nothing more is assumed: a call runs up
    to a first [await], and the promise settles after some number of
    turns, with whatever value or error, the store passed to the call
    having been left in whatever state. *)
Variable exports_mergeDependency :
  string -> string -> FHIRDefinitions -> string -> Async MergeEnd.

Definition nl : string := String (ascii_of_nat 10) EmptyString.

Definition certificateGuidance : string :=
  nl +:+ nl +:+
  "Sometimes this error occurs in corporate or educational environments that use proxies and/or SSL "
  +:+ "inspection." +:+ nl +:+ "Troubleshooting tips:" +:+ nl
  +:+ "  1. If a non-proxied network is available, consider connecting to that network instead." +:+ nl
  +:+ "  2. Set NODE_EXTRA_CA_CERTS as described at https://bit.ly/3ghJqJZ (RECOMMENDED)." +:+ nl
  +:+ "  3. Disable certificate validation as described at https://bit.ly/3syjzm7 (NOT RECOMMENDED)." +:+ nl.

(** The two parts of a request [packageId#version]; the version is
    absent when the request has no [#]. *)
Definition requestId (fhirPackage : string) : string :=
  default "" (head (Js.split "#" fhirPackage)).

Definition requestVersion (fhirPackage : string) : option string :=
  Js.split "#" fhirPackage !! 1%nat.

Definition requestLabel (fhirPackage : string) : string :=
  requestId fhirPackage +:+ "#" +:+ Js.show (requestVersion fhirPackage).

(** The text logged by the [catch] handler of one request. *)
Definition failureMessage (fhirPackage : string) (e : Error) : string :=
  let message0 :=
    "Failed to load " +:+ requestLabel fhirPackage +:+ ": " +:+ message E e in
  if Js.includes "certificate" (message E e)
  then message0 +:+ certificateGuidance
  else message0.

(** The store that the [catch] handler makes of [fhirDefs]. *)
Definition failedStore (fhirPackage : string) (fhirDefs : FHIRDefinitions)
    : FHIRDefinitions :=
  setPackage (requestLabel fhirPackage)
    (setUnsuccessfulPackageLoad true fhirDefs).

(** The [catch] handler of one request; [fhirDefs] is the store that was
    passed to the merge, as the handler finds it. *)
Definition onFailure (fhirPackage : string) (fhirDefs : FHIRDefinitions)
    (e : Error) : M FHIRDefinitions :=
  log "error" (failureMessage fhirPackage e) ;;
  ret (failedStore fhirPackage fhirDefs).

(** The call of the merge for one request, into a fresh store. *)
Definition mergeOne (cachePath : string) (fhirPackage : string)
    : Async MergeEnd :=
  exports_mergeDependency (requestId fhirPackage)
    (Js.show (requestVersion fhirPackage)) newFHIRDefinitions cachePath.

(** The function mapped over the requests: the call of the merge, and
    the [catch] handler put on its promise. *)
Definition loadOne (cachePath : string) (fhirPackage : string)
    : Async (Completion FHIRDefinitions) :=
  fun w =>
    let (promise, w') := mergeOne cachePath fhirPackage w in
    (catch promise (onFailure fhirPackage), w').

(** The [then] handler; [None] is [undefined]. *)
Definition assemble (fhirDefs : list FHIRDefinitions)
    : option FHIRDefinitions :=
  if (1 <? length fhirDefs)%nat then
    Some (fold_left (fun mainFHIRDefs d => pushChild d mainFHIRDefs)
            fhirDefs newFHIRDefinitions)
  else head fhirDefs.

(** [loadDependencies(fhirPackages, cachePath, log)], after the turns
    [order] of the event loop: the merges are called one after the other
    in [map], each up to its first [await], before any of them is taken up
    again; the state of the promise returned follows that of
    [Promise.all]. *)
Definition loadDependencies (fhirPackages : list string)
    (cachePath : string) (order : list nat) (w : World)
    : Promise (option FHIRDefinitions) * World :=
  let (promises, w0) := callAll (map (loadOne cachePath) fhirPackages) w in
  let '(_, all, w') := turns order promises (Promise_all Pending promises) w0 in
  (then_ all assemble, w').

End Batch.

(** ** Lookup in the definition store *)

(** The separator between a lookup key and a version. *)
Definition versionSeparator : ascii := "|"%char.

(** The text after the last separator, if there is a separator. *)
Fixpoint afterLast (sep : ascii) (s : string) : option string :=
  match s with
  | EmptyString => None
  | String c s' =>
      match afterLast sep s' with
      | Some r => Some r
      | None => if Ascii.eqb c sep then Some s' else None
      end
  end.

(** The text before the last separator (all of it without a separator). *)
Fixpoint beforeLast (sep : ascii) (s : string) : string :=
  match s with
  | EmptyString => EmptyString
  | String c s' =>
      match afterLast sep s' with
      | Some _ => String c (beforeLast sep s')
      | None => if Ascii.eqb c sep then EmptyString else String c (beforeLast sep s')
      end
  end.

(** [c] does not occur in [s]. *)
Fixpoint without (c : ascii) (s : string) : bool :=
  match s with
  | EmptyString => true
  | String x s' => negb (Ascii.eqb x c) && without c s'
  end.

(** How a lookup string divides into key and requested version, in the
    words of the specification (section 4.7): at the last separator. *)
Definition splitAtLast (item : string) : string * option string :=
  (beforeLast versionSeparator item, afterLast versionSeparator item).

Definition defaultTypes : list FType :=
  [Resource; Logical; Type'; Profile; Extension; ValueSet; CodeSystem; Instance].

(** No category asked for means all of them, in the default order. *)
Definition requestedTypes (types : list FType) : list FType :=
  match types with
  | [] => defaultTypes
  | _ :: _ => types
  end.

Definition keySpaces : list (RawRecord -> option string) := [j_id; j_name; j_url].

Fixpoint firstSome {A B} (f : A -> option B) (l : list A) : option B :=
  match l with
  | [] => None
  | x :: l' =>
      match f x with
      | Some b => Some b
      | None => firstSome f l'
      end
  end.

(** A versioned query accepts a definition only on an equal [version]
    attribute. *)
Definition accepts (version : option string) (d : RawRecord) : bool :=
  match version with
  | None => true
  | Some v => isStr (j_version d) v
  end.

Definition hit (base : string) (version : option string) (category : FType)
    (key : RawRecord -> option string) (own : list (RawRecord * FType))
    : option RawRecord :=
  fst <$> find (fun e => isStr (key e.1) base
                         && bool_decide (e.2 = category)
                         && accepts version e.1) own.

(** Modelled from the spec: steps 1 and 2 of [fishForFHIR] (section 4.7) at
    one node: the categories in the order asked for and, per category, the
    key spaces by id, by name, by url. *)
Definition fishHere (base : string) (version : option string)
    (types : list FType) (s : FHIRDefinitions) : option RawRecord :=
  firstSome (fun category =>
               firstSome (fun key => hit base version category key (ownDefinitions s))
                         keySpaces)
            types.

(** The nodes at depth [d] below [s], from left to right. *)
Fixpoint level (d : nat) (s : FHIRDefinitions) : list FHIRDefinitions :=
  match d with
  | O => [s]
  | S d' => flat_map (level d') (childFHIRDefs s)
  end.

Fixpoint height (s : FHIRDefinitions) : nat :=
  match s with
  | mkFHIRDefinitions _ _ children _ _ =>
      S (fold_right (fun c h => Nat.max (height c) h) O children)
  end.

(** Modelled from the spec: [FHIRDefinitions.fishForFHIR(item, ...types)]
    ([src/FHIRDefinitions.ts] is not among the sources).  Steps 1 to 4 of
    section 4.7: the lookup string divided at its last separator, then the
    node itself, then its descendants level by level, the nodes of a level
    in insertion order. *)
Definition fishForFHIR (s : FHIRDefinitions) (item : string)
    (types : list FType) : option RawRecord :=
  let (base, version) := splitAtLast item in
  firstSome (fun d => firstSome (fishHere base version (requestedTypes types))
                                (level d s))
            (seq 0 (height s)).

(** ** The words of the specification, for comparison *)

(** Section 4.2: a refresh is due when none has happened in the process or
    more than 24 hours have passed since the last one. *)
Definition refreshDueByWindow (lastCurrentUpdate : option Z) (now : Z) : bool :=
  match lastCurrentUpdate with
  | None => true
  | Some last => (now - last >? 86400000)%Z
  end.

(** Section 4.4: nothing when [package/] exists already; otherwise every
    top-level entry moves into a new [package/]. *)
Definition normalizeLayoutAsSpecified (es : entries_t) : entries_t :=
  match lookupEntry "package" es with
  | Some _ => es
  | None => [("package", Dir es)]
  end.

(** ** Sample data: an environment, caches and stores to run the model on *)

Module Sample.

(** A stand-in for [JSON.parse]: the text becomes the [id] and the [date]
    of the record. *)
Definition parsed (text : string) : RawRecord :=
  {| j_resourceType := None; j_id := Some text; j_name := None;
     j_url := None; j_version := None; j_kind := None;
     j_derivation := None; j_type := None; j_date := Some text;
     j_body := text |}.

Definition qas : list QAEntry :=
  [ {| package_id := "sushi-test"; qa_date := None;
       repo := "sushi/sushi-test/branches/master/qa.json" |};
    {| package_id := "sushi-test-old"; qa_date := None;
       repo := "sushi/sushi-test-old/branches/master/qa.json" |} ].

Definition answers : list (string * ResponseData) :=
  [ ("https://build.fhir.org/ig/qas.json", QAList qas);
    ("https://build.fhir.org/ig/sushi/sushi-test/branches/master/package.manifest.json",
     Manifest (Some "20200413230227"));
    ("https://build.fhir.org/ig/sushi/sushi-test-old/branches/master/package.manifest.json",
     Manifest (Some "20200413230227"));
    ("https://build.fhir.org/ig/sushi/sushi-test-old/branches/master/package.tgz",
     Binary "20200413230227");
    ("https://packages.fhir.org/hl7.patches.with.snapshots",
     RegistryInfo None
       (Some [("2.0.0", None); ("2.0.1", None); ("2.0.2-snapshot1", None)]));
    ("https://packages.fhir.org/hl7.patches.with.build",
     RegistryInfo None (Some [("2.0.0", None); ("2.0.1+build5", None)])) ].

Definition env : Env :=
  {| axiosGet := fun _ c =>
       match find (fun a => String.eqb a.1 (call_url c)) answers with
       | Some (_, d) => Returns (Some d)
       | None => Throws (OtherError "Not found")
       end;
     tar_x := fun d =>
       match d with
       | Binary b =>
           Returns [("package",
                     Dir [("package.json", File b);
                          ("StructureDefinition-fresh.json", File "fresh")])]
       | _ => Throws (OtherError "not an archive")
       end;
     JSON_parse := fun text => Returns (parsed text);
     Date_parse := fun _ => None;
     clock := fun _ => 90000000%Z;
     FPL_REGISTRY := None;
     fsError := fun code _ => OtherError code;
     errorMessage := fun _ => "the package could not be loaded" |}.

(** A cache root with an up-to-date [current] package, a stale one, an
    exact version, and a directory whose name has capitals. *)
Definition cacheRoot : entries_t :=
  [ ("sushi-test#current",
     Dir [("package", Dir [("package.json", File "20200413230227");
                           ("StructureDefinition-a.json", File "a")])]);
    ("sushi-test-old#current",
     Dir [("package", Dir [("package.json", File "20190101000000");
                           ("StructureDefinition-stale.json", File "stale")])]);
    ("sushi-test#0.1.0",
     Dir [("package", Dir [("package.json", File "20180101000000");
                           ("notes.txt", File "not a definition")])]);
    ("Sushi-Test-Caps#0.1.0",
     Dir [("package", Dir [("StructureDefinition-c.json", File "c")])]) ].

Definition world : World :=
  {| files := {[ "cache" := Dir cacheRoot ]};
     lastCurrentUpdate := None;
     cache := ∅;
     requests := [];
     logged := [];
     clockReads := 0 |}.

(** An archive laid out wrongly, one without [package/], and one laid
    out well. *)
Definition wrongFormat : entries_t :=
  [ ("package", Dir [("package.json", File "p")]);
    ("other", Dir [("nested.json", File "n")]);
    ("StructureDefinition-MyPatient.json", File "m") ].

Definition noPackage : entries_t :=
  [ ("StructureDefinition-MyPatient.json", File "m") ].

(** The stores of the tests of [fishForFHIR]: three packages with and
    without a [Condition] resource, and a profile whose version contains
    the separator. *)
Definition structureDefinition (id version : option string)
    (kind derivation type : string) : RawRecord :=
  {| j_resourceType := Some "StructureDefinition"; j_id := id; j_name := id;
     j_url := None; j_version := version; j_kind := Some kind;
     j_derivation := Some derivation; j_type := Some type;
     j_date := None; j_body := "" |}.

Definition condition (version : string) : RawRecord :=
  structureDefinition (Some "Condition") (Some version) "resource"
    "specialization" "Condition".

Definition simpleProfile : RawRecord :=
  structureDefinition (Some "SimpleProfile") (Some "1.0.0|a") "resource"
    "constraint" "Patient".

Definition simpleProfileNoVersion : RawRecord :=
  structureDefinition (Some "SimpleProfileNoVersion") None "resource"
    "constraint" "Patient".

Definition package3 : FHIRDefinitions :=
  setPackage "package3" (add (condition "4.0.3") newFHIRDefinitions).

Definition package2 : FHIRDefinitions :=
  setPackage "package2" (add (condition "4.0.2") newFHIRDefinitions).

Definition package1 : FHIRDefinitions :=
  pushChild package3
    (setPackage "package1" (add simpleProfileNoVersion newFHIRDefinitions)).

Definition defsWithChildDefs : FHIRDefinitions :=
  pushChild package2 (pushChild package1 newFHIRDefinitions).

Definition r4Definitions : FHIRDefinitions :=
  setPackage "r4-definitions"
    (add simpleProfileNoVersion (add simpleProfile newFHIRDefinitions)).

(** A replacement for [mergeDependency] in the manner of the mock of the
    tests of [loadDependencies]: it finds the core packages, meets a
    certificate that it does not trust for [self-signed.package], and
    finds no other package. *)
Definition corePackages : list string :=
  [ "hl7.fhir.r2.core"; "hl7.fhir.r3.core"; "hl7.fhir.r4.core";
    "hl7.fhir.r4b.core"; "hl7.fhir.r5.core"; "hl7.fhir.us.core" ].

Definition mockMerge (packageName version : string) (FHIRDefs : FHIRDefinitions)
    (cachePath : string) (w : World) : MergeEnd * World :=
  if bool_decide (packageName ∈ corePackages) then
    let found := setPackage (packageName +:+ "#" +:+ version) FHIRDefs in
    ({| completion := Returns found; storeGiven := found |}, w)
  else if String.eqb packageName "self-signed.package" then
    ({| completion :=
          Throws (OtherError "self signed certificate in certificate chain");
        storeGiven := FHIRDefs |}, w)
  else
    ({| completion :=
          Throws (PackageLoadError (packageName +:+ "#" +:+ version) None);
        storeGiven := FHIRDefs |}, w).

(** A merge that has written a definition to the store it was given when
    it rejects, after an [await]. *)
Definition mockHalfway (packageName version : string)
    (FHIRDefs : FHIRDefinitions) (cachePath : string) : Async MergeEnd :=
  later (fun w =>
           ({| completion := Throws (OtherError "socket hang up");
               storeGiven := add (condition "4.0.1") FHIRDefs |}, w)).

(** The mock as the tests have it, ended at the call, and a variant that
    awaits once before it answers. *)
Definition mockAtOnce (packageName version : string) (FHIRDefs : FHIRDefinitions)
    (cachePath : string) : Async MergeEnd :=
  atOnce (mockMerge packageName version FHIRDefs cachePath).

Definition mockLater (packageName version : string) (FHIRDefs : FHIRDefinitions)
    (cachePath : string) : Async MergeEnd :=
  later (mockMerge packageName version FHIRDefs cachePath).

(** The process after a first load of the stale [current] package, and the
    package memoized by that load. *)
Definition memoizedWorld : World :=
  (loadFromPath env "cache" "sushi-test-old#current" world).2.

Definition stalePackage : LoadedPackage :=
  {| package := "sushi-test-old#current";
     defs := [parsed "20190101000000"; parsed "stale"];
     packageJson := Some (parsed "20190101000000") |}.

End Sample.

(** ** Auxiliary notions for the statements *)

(** The top-level entries other than [package]. *)
Definition otherEntries (es : entries_t) : entries_t :=
  filter (fun e => e.1 <> "package") es.

(** The entries whose name is not among [ns]. *)
Definition keepOut (ns : list string) (es : entries_t) : entries_t :=
  filter (fun e => e.1 ∉ ns) es.

(** [t0], taken up again some number of times, in whatever states of
    the process, has become [t]. *)
Inductive becomes {R} (t0 : Task R) : Task R -> Prop :=
| becomes_itself : becomes t0 t0
| becomes_next (next : World -> Task R) (after : World -> World) (w : World) :
    becomes t0 (Awaits next after) -> becomes t0 (next w).

(** The entries of level [error] in the log. *)
Definition errorsLogged (w : World) : list (string * string) :=
  filter (fun entry => entry.1 = "error") (logged w).

(** A task that logs no error: whenever it is taken up, it leaves the
    entries of level [error] as they are. *)
Inductive quiet {R} : Task R -> Prop :=
| quiet_settled (r : R) : quiet (Settled r)
| quiet_awaits (next : World -> Task R) (after : World -> World) :
    (forall w, errorsLogged (after w) = errorsLogged w) ->
    (forall w, quiet (next w)) ->
    quiet (Awaits next after).

Definition quietCall {R} (call : Async R) : Prop :=
  forall w, errorsLogged (call w).2 = errorsLogged w /\ quiet (call w).1.

Section Outcomes.

Variable E : Env.

(** The store of a request whose merge has ended with [m]: the store
    that the merge fulfilled with, or the store that was passed to the
    merge, flagged as failed and labelled with the request. *)
Definition storeFor (req : string) (m : MergeEnd) : FHIRDefinitions :=
  match completion m with
  | Returns s => s
  | Throws _ => failedStore req (storeGiven m)
  end.

(** The entry that the batch logs for a request whose merge has ended
    with [m]: none for a fulfilment, one for a rejection. *)
Definition failureEntry (req : string) (m : MergeEnd)
    : list (string * string) :=
  match completion m with
  | Returns _ => []
  | Throws e => [("error", failureMessage E req e)]
  end.

(** How the promise of a request stands in the course of a batch, given
    the task [merge] that the call of its merge gave: either the merge
    has become [t] and the promise is [t] with the handler on it, no
    failure having been handled; or the merge has rejected with [e], the
    handler has run, and the promise has fulfilled with the store flagged
    as failed. *)
Inductive tracks (req : string) (merge : Task MergeEnd)
  : Task (Completion FHIRDefinitions) -> option Error -> Prop :=
| tracks_merging (t : Task MergeEnd) :
    becomes merge t ->
    tracks req merge (catch t (onFailure E req)) None
| tracks_handled (e : Error) (fhirDefs : FHIRDefinitions) :
    becomes merge (Settled {| completion := Throws e; storeGiven := fhirDefs |}) ->
    tracks req merge (Settled (Returns (failedStore req fhirDefs))) (Some e).

Inductive tracked
  : list string -> list (Task MergeEnd) ->
    list (Task (Completion FHIRDefinitions)) -> list (option Error) -> Prop :=
| tracked_nil : tracked [] [] [] []
| tracked_cons req merge promise handled reqs merges promises handleds :
    tracks req merge promise handled ->
    tracked reqs merges promises handleds ->
    tracked (req :: reqs) (merge :: merges) (promise :: promises)
      (handled :: handleds).

(** The entries logged for the failures handled so far. *)
Definition handledEntry (req : string) (handled : option Error)
    : list (string * string) :=
  match handled with
  | Some e => [("error", failureMessage E req e)]
  | None => []
  end.

End Outcomes.

(** The comparators of the range [X.Y.x]. *)
Definition patchSet (X Y : N) : list semver.Comparator :=
  [ {| semver.op := semver.GE; semver.operand := semver.plain X Y 0 [] |};
    {| semver.op := semver.LT;
       semver.operand := semver.plain X (Y + 1) 0 [semver.Num 0] |} ].

(** What [maxSatisfying] holds after the versions [seen]. *)
Definition bestSoFar (set : list semver.Comparator) (seen : list string)
    (acc : option (string * semver.SemVer)) : Prop :=
  match acc with
  | None => forall v, v ∈ seen -> semver.test set v = false
  | Some (v, sv) =>
      v ∈ seen /\ semver.parse v = Some sv /\ semver.testSet set sv = true
      /\ forall v' sv', v' ∈ seen -> semver.parse v' = Some sv' ->
                        semver.testSet set sv' = true ->
                        semver.compare sv sv' <> Lt
  end.

(** Every memoized package is still memoized, unchanged. *)
Definition cacheKept (w w' : World) : Prop :=
  forall k p, cache w !! k = Some p -> cache w' !! k = Some p.

(** A computation that never drops or replaces a memoized package. *)
Definition keeps {A} (m : M A) : Prop := forall w, cacheKept w (m w).2.

(** What [PackageCache.isCurrentPackageRefreshNeeded()] answers in [w]. *)
Definition refreshDue (E : Env) (w : World) : bool :=
  match lastCurrentUpdate w with
  | None => true
  | Some last => isCurrentPackageRefreshNeeded (Some last) (clock E (clockReads w))
  end.

(** The requests for which [mergeDependency] turns to the build server even
    though the package is cached: [current] of an R5 core package, and
    [current] or [current$branch] when the refresh of the build listing is
    due. *)
Definition contactsBuildServer (E : Env) (packageName version : string)
    (w : World) : bool :=
  (Js.startsWith packageName "hl7.fhir.r5." && String.eqb version "current")
  || (isCurrentVersion version && refreshDue E w).

(** ** The arguments of the command line, and [loadDependency] *)

(** [s.replace(old, new)] for one-character strings: the first occurrence
    only. *)
Fixpoint replaceFirst (old new : ascii) (s : string) : string :=
  match s with
  | EmptyString => EmptyString
  | String c s' =>
      if Ascii.eqb c old then String new s' else String c (replaceFirst old new s')
  end.

(** [program.args.map(dep => dep.replace('@', '#'))] of [app.ts] *)
Definition cliPackages (args : list string) : list string :=
  map (replaceFirst "@" "#") args.

Section Api.

(** [exports.mergeDependency] from its call to its end, as
    [loadDependency] awaits it before it does anything else.  The value
    of the computation is the store it was given, as the merge leaves it:
    [mergeDependency] returns the object passed to it. *)
Variable exports_mergeDependency :
  string -> string -> FHIRDefinitions -> string -> M FHIRDefinitions.

(** [loadDependency(packageName, version, FHIRDefs, cachePath, log)] *)
Definition loadDependency (packageName version : string)
    (FHIRDefs : FHIRDefinitions) (cachePath : string) : M FHIRDefinitions :=
  let* newFHIRDefs :=
    exports_mergeDependency packageName version newFHIRDefinitions cachePath in
  if (length (childFHIRDefs FHIRDefs) =? 0)%nat then
    let wrapperFHIRDefs := newFHIRDefinitions in
    ret (pushChild newFHIRDefs (pushChild FHIRDefs wrapperFHIRDefs))
  else ret (pushChild newFHIRDefs FHIRDefs).

(** Packages loaded one after the other, each call of [loadDependency]
    being given the store that the call before returned. *)
Fixpoint loadEach (requests : list (string * string))
    (FHIRDefs : FHIRDefinitions) (cachePath : string) : M FHIRDefinitions :=
  match requests with
  | [] => ret FHIRDefs
  | (packageName, version) :: rest =>
      let* next := loadDependency packageName version FHIRDefs cachePath in
      loadEach rest next cachePath
  end.

(** Computations run one after the other, up to the first that throws. *)
Fixpoint inTurn {A} (ms : list (M A)) : M (list A) :=
  match ms with
  | [] => ret []
  | m :: rest =>
      let* a := m in
      let* others := inTurn rest in
      ret (a :: others)
  end.

(** The merges of [loadEach] alone, each into a store of its own. *)
Definition mergeEach (requests : list (string * string)) (cachePath : string)
    : M (list FHIRDefinitions) :=
  inTurn
    (map (fun r => exports_mergeDependency r.1 r.2 newFHIRDefinitions cachePath)
         requests).

End Api.

(** ** Further notions for the statements *)

(** [s] consists of exactly [n] decimal digits. *)
Fixpoint digits (n : nat) (s : string) : bool :=
  match n, s with
  | O, EmptyString => true
  | S n', String c s' => Js.isDigit c && digits n' s'
  | _, _ => false
  end.

(** The number of decimal digits in [s]. *)
Fixpoint digitCount (s : string) : nat :=
  match s with
  | EmptyString => O
  | String c s' => (if Js.isDigit c then 1 else 0) + digitCount s'
  end.

(** [s] is one segment of a path: it holds no separator ([/], and [\] for
    Windows) and is none of the empty, [.] and [..], so that
    [path.join(cachePath, s)] is the entry [s] of the directory
    [cachePath]. *)
Definition pathSegment (s : string) : bool :=
  negb (String.eqb s "") && negb (String.eqb s ".") && negb (String.eqb s "..")
  && without "/" s && without "\" s.

(** The request for registry metadata that the two look-ups send. *)
Definition metadataCall (registry packageName : string) : Call :=
  {| call_url := registry +:+ "/" +:+ packageName;
     call_responseType := Some "json" |}.

(** An environment with a custom registry, given with a final slash, that
    lists one package; and an environment in which [packages.fhir.org]
    does not answer and [packages2.fhir.org] does. *)
Module Custom.

Definition registry : string := "https://custom-registry.example.org/".

Definition env : Env :=
  {| axiosGet := fun _ c =>
       if String.eqb (call_url c) "https://custom-registry.example.org/good-tarball"
       then Returns (Some (RegistryInfo (Some "1.0.2")
                      (Some [("1.0.0", None); ("1.0.2", None)])))
       else Throws (OtherError "Not found");
     tar_x := tar_x Sample.env;
     JSON_parse := JSON_parse Sample.env;
     Date_parse := Date_parse Sample.env;
     clock := clock Sample.env;
     FPL_REGISTRY := Some registry;
     fsError := fsError Sample.env;
     errorMessage := errorMessage Sample.env |}.

Definition secondRegistryOnly : Env :=
  {| axiosGet := fun _ c =>
       if String.eqb (call_url c) "https://packages2.fhir.org/packages/hl7.fhir.r4b.core"
       then Returns (Some (RegistryInfo (Some "4.3.0") None))
       else Throws (OtherError "Not found");
     tar_x := tar_x Sample.env;
     JSON_parse := JSON_parse Sample.env;
     Date_parse := Date_parse Sample.env;
     clock := clock Sample.env;
     FPL_REGISTRY := None;
     fsError := fsError Sample.env;
     errorMessage := errorMessage Sample.env |}.

End Custom.

(** The directory names of the cache root that stand for [key]. *)
Definition standsFor (key : string) (packageName : string) : bool :=
  String.eqb (Js.toLowerCase packageName) key.

(** The files of a package directory that [loadFromPath] reads. *)
Definition jsonFiles (listing : list string) : list string :=
  filter (fun file => Js.endsWith file ".json" = true) listing.

(** A cache whose only package directory lacks the [package] folder. *)
Definition incompleteWorld : World :=
  {| files := {[ "cache" := Dir [("sushi-test#0.2.0",
                                  Dir [("package.json", File "misplaced")])] ]};
     lastCurrentUpdate := None;
     cache := ∅;
     requests := [];
     logged := [];
     clockReads := 0 |}.

(** The package that the directory [Sushi-Test-Caps#0.1.0] of the sample
    cache holds. *)
Definition capsPackage : LoadedPackage :=
  {| package := "sushi-test-caps#0.1.0";
     defs := [Sample.parsed "c"];
     packageJson := None |}.

(** An entry of the build listing is a build of [packageName] on the
    branch asked for; without a branch, on [master] or [main]. *)
Definition onBranch (branch : option string) (p : QAEntry) : bool :=
  match branch with
  | None => Js.endsWith (repo p) "/master/qa.json"
            || Js.endsWith (repo p) "/main/qa.json"
  | Some b => Js.endsWith (repo p) ("/" +:+ b +:+ "/qa.json")
  end.

Definition buildOf (packageName : string) (branch : option string)
    (p : QAEntry) : bool :=
  bool_decide (package_id p = packageName) && onBranch branch p.

(** The build listing of an answer; an answer of another shape has none. *)
Definition listingOf (res : option ResponseData) : list QAEntry :=
  match res with
  | Some (QAList l) => l
  | _ => []
  end.

(** An answer that is a text with something in it. *)
Definition textAnswer (res : option ResponseData) : bool :=
  match res with
  | Some (Binary text) => Js.nonEmpty text
  | _ => false
  end.

(** An environment behind a portal that answers every request with a
    page of its own. *)
Definition portalEnv : Env :=
  {| axiosGet := fun _ _ => Returns (Some (Binary "<html>Sign in</html>"));
     tar_x := tar_x Sample.env;
     JSON_parse := JSON_parse Sample.env;
     Date_parse := Date_parse Sample.env;
     clock := clock Sample.env;
     FPL_REGISTRY := None;
     fsError := fsError Sample.env;
     errorMessage := errorMessage Sample.env |}.

(** The two requests of the check against the build server. *)
Definition qasCall : Call :=
  {| call_url := "https://build.fhir.org/ig/qas.json";
     call_responseType := None |}.

Definition manifestCall (p : QAEntry) : Call :=
  {| call_url := "https://build.fhir.org/ig/" +:+ Js.dropLast 8 (repo p)
                 +:+ "/package.manifest.json";
     call_responseType := None |}.

(** An environment whose [Date.parse] reads a date of digits as a number,
    and a listing with an older and a newer build of one package. *)
Module Dated.

Definition env : Env :=
  {| axiosGet := axiosGet Sample.env;
     tar_x := tar_x Sample.env;
     JSON_parse := JSON_parse Sample.env;
     Date_parse := fun d =>
       match d with
       | Some s => if semver.allChars Js.isDigit s
                   then Some (Z.of_N (semver.digitsToN 0 s)) else None
       | None => None
       end;
     clock := clock Sample.env;
     FPL_REGISTRY := None;
     fsError := fsError Sample.env;
     errorMessage := errorMessage Sample.env |}.

Definition older : QAEntry :=
  {| package_id := "sushi-test"; qa_date := Some "20190101000000";
     repo := "sushi/sushi-test/branches/master/qa.json" |}.

Definition newer : QAEntry :=
  {| package_id := "sushi-test"; qa_date := Some "20200413230227";
     repo := "other/sushi-test/branches/main/qa.json" |}.

Definition branchBuild : QAEntry :=
  {| package_id := "sushi-test"; qa_date := Some "20210101000000";
     repo := "sushi/sushi-test/branches/testbranch/qa.json" |}.

Definition listing : list QAEntry := [older; branchBuild; newer].

End Dated.

(** A computation whose every run takes the process from a state to one
    related to it by [R]. *)
Definition walks (R : World -> World -> Prop) {A} (m : M A) : Prop :=
  forall w, R w (m w).2.

(** Every memoized package carries the key it is memoized under. *)
Definition cacheNamed (w : World) : Prop :=
  forall k p, cache w !! k = Some p -> package p = k.



(** [cachedPackageJSON] of the check against the build server: the
    [package.json] at the load path, if there is one. *)
Definition cachedPackageJson (E : Env) (fs : gmap string node)
    (cachePath : string) (loadPath : list string)
    : Completion (option RawRecord) :=
  if existsSync fs cachePath (loadPath ++ ["package.json"]) then
    andThen (readFileSync E fs cachePath (loadPath ++ ["package.json"]))
      (fun text =>
    andThen (JSON_parse E text) (fun json => Returns (Some json)))
  else Returns None.

(** [manifest?.data?.date] *)
Definition manifestDate (manifest : option ResponseData) : option string :=
  match manifest with
  | Some (Manifest d) => d
  | _ => None
  end.

(** The package in hand, if any, is the one memoized under [key]. *)
Definition inHand (key : string) (loadedPackage : option LoadedPackage)
    (w : World) : Prop :=
  forall p, loadedPackage = Some p -> cache w !! key = Some p.

(** A merge of the stale [current] package of the sample cache. *)
Definition staleMerge : Completion FHIRDefinitions * World :=
  mergeDependency Sample.env "sushi-test-old" "current" newFHIRDefinitions
    "cache" Sample.world.

(** The request that downloads a package. *)
Definition downloadCall (url : string) : Call :=
  {| call_url := url; call_responseType := Some "arraybuffer" |}.

(** The two addresses of a package in the public registries. *)
Definition firstRegistryUrl (packageName version : string) : string :=
  "https://packages.fhir.org/" +:+ packageName +:+ "/" +:+ version.

Definition secondRegistryUrl (packageName version : string) : string :=
  "https://packages2.fhir.org/packages/" +:+ packageName +:+ "/" +:+ version.

(** A version that [mergeDependency] takes as it is: not [latest], no
    wildcard, not [dev], not [current] or [current$branch]. *)
Definition plainVersion (version : string) : bool :=
  negb (String.eqb version "latest") && negb (isPatchWildcard version)
  && negb (isMinorWildcard version) && negb (String.eqb version "dev")
  && negb (isCurrentVersion version).

(** The two entries that [mergeDependency] logs when it looks into the
    cache. *)
Definition lookedIntoCache (cachePath fullPackageName : string)
    (loadedPackage : option LoadedPackage) : list (string * string) :=
  [ ("info", "Checking " +:+ cachePath +:+ " for " +:+ fullPackageName +:+ "...");
    ("info", match loadedPackage with
             | Some _ => "Found " +:+ fullPackageName +:+ " in " +:+ cachePath +:+ "."
             | None => "Did not find " +:+ fullPackageName +:+ " in " +:+ cachePath +:+ "."
             end) ].

(** [mergeDependency] from the choice of the URL on. *)
Definition afterLookup (E : Env) (packageName version : string)
    (loadedPackage : option LoadedPackage) (FHIRDefs : FHIRDefinitions)
    (cachePath : string) : M FHIRDefinitions :=
  let fullPackageName := packageName +:+ "#" +:+ version in
  let* packageUrl :=
    choosePackageUrl E packageName version fullPackageName
      [fullPackageName; "package"] loadedPackage cachePath in
  let* loadedPackage :=
    download E packageName version fullPackageName loadedPackage cachePath
      packageUrl in
  finish E fullPackageName loadedPackage FHIRDefs.

(** An environment in which [packages.fhir.org] serves one package, and
    the process before anything is cached on an empty cache root. *)
Module Public.

Definition env : Env :=
  {| axiosGet := fun _ c =>
       if String.eqb (call_url c) "https://packages.fhir.org/sushi-test/0.2.0"
       then Returns (Some (Binary "20210101000000"))
       else if String.eqb (call_url c) "https://build.fhir.org/hl7.fhir.r5.core.tgz"
       then Returns None
       else Throws (OtherError "Not found");
     tar_x := tar_x Sample.env;
     JSON_parse := JSON_parse Sample.env;
     Date_parse := Date_parse Sample.env;
     clock := clock Sample.env;
     FPL_REGISTRY := None;
     fsError := fsError Sample.env;
     errorMessage := errorMessage Sample.env |}.

Definition r5Package : entries_t :=
  [("package", Dir [("package.json", File "20190101000000")])].

Definition world : World :=
  {| files := {[ "cache" := Dir [("hl7.fhir.r5.core#current", Dir r5Package)] ]};
     lastCurrentUpdate := None;
     cache := ∅;
     requests := [];
     logged := [];
     clockReads := 0 |}.

(** What the archive served for [sushi-test#0.2.0] extracts to, and the
    package read from it. *)
Definition extracted : entries_t :=
  [("package",
    Dir [("package.json", File "20210101000000");
         ("StructureDefinition-fresh.json", File "fresh")])].

Definition downloaded : LoadedPackage :=
  {| package := "sushi-test#0.2.0";
     defs := [Sample.parsed "20210101000000"; Sample.parsed "fresh"];
     packageJson := Some (Sample.parsed "20210101000000") |}.

Definition r5Cached : LoadedPackage :=
  {| package := "hl7.fhir.r5.core#current";
     defs := [Sample.parsed "20190101000000"];
     packageJson := Some (Sample.parsed "20190101000000") |}.

End Public.

(** The children that [forEach(d => childFHIRDefs.push(d))] appends. *)
Definition pushChildren (stores : list FHIRDefinitions) (s : FHIRDefinitions)
    : FHIRDefinitions :=
  fold_left (fun acc d => pushChild d acc) stores s.

(** The sample process after a refresh of the build listing at time 0,
    in which none is due again. *)
Definition refreshedWorld : World :=
  setLastCurrentUpdate (Some 0%Z) Sample.world.

(** The up-to-date [current] package of the sample cache. *)
Definition currentPackage : LoadedPackage :=
  {| package := "sushi-test#current";
     defs := [Sample.parsed "20200413230227"; Sample.parsed "a"];
     packageJson := Some (Sample.parsed "20200413230227") |}.
(** * Properties *)

(** ** Strings *)

Lemma lower_idempotent (c : ascii) : Js.lower (Js.lower c) = Js.lower c.
Proof. destruct c as [[] [] [] [] [] [] [] []]; reflexivity. Qed.

Lemma toLowerCase_idempotent (s : string) :
  Js.toLowerCase (Js.toLowerCase s) = Js.toLowerCase s.
Proof.
  induction s as [|c s IH]; simpl; [reflexivity|].
  now rewrite lower_idempotent, IH.
Qed.


Lemma append_empty_r (a : string) : a +:+ "" = a.
Proof.
  induction a as [|x a IH]; [reflexivity|].
  change (String x (a +:+ "") = String x a). now f_equal.
Qed.

(** No directory name can match a key that is not in lower case. *)
Lemma find_lowered_none (key : string) (packages : list string) :
  Js.toLowerCase key <> key ->
  find (fun packageName => String.eqb (Js.toLowerCase packageName) key) packages
  = None.
Proof.
  intros Hkey. induction packages as [|n l IH]; simpl; [reflexivity|].
  destruct (String.eqb (Js.toLowerCase n) key) eqn:Hn; [|exact IH].
  apply String.eqb_eq in Hn. exfalso. apply Hkey.
  rewrite <- Hn. apply toLowerCase_idempotent.
Qed.

(** ** The refresh throttle *)

(** C3.  The predicate of the code compares [last - now] with 24 hours, so
    once a refresh has been recorded it stays false however much time has
    passed since.  In particular, 25 hours after the last refresh the
    predicate is false where the window of the specification has elapsed,
    and a [current] request made then sends no request at all. *)
Theorem C3_refresh_not_due_after_window :
  (forall (last : Z) (elapsed : N),
      isCurrentPackageRefreshNeeded (Some last) (last + Z.of_N elapsed) = false)
  /\ isCurrentPackageRefreshNeeded (Some 0%Z) 90000000%Z = false
  /\ refreshDueByWindow (Some 0%Z) 90000000%Z = true
  /\ clock Sample.env 0 = 90000000%Z
  /\ requests (mergeDependency Sample.env "sushi-test" "current"
                 newFHIRDefinitions "cache"
                 (setLastCurrentUpdate (Some 0%Z) Sample.world)).2 = [].
Proof.
  split; [|repeat split; reflexivity].
  intros last elapsed. unfold isCurrentPackageRefreshNeeded.
  rewrite Z.gtb_ltb. apply Z.ltb_ge. lia.
Qed.

(** ** Layout normalization *)

Lemma eqb_false_ne (a b : string) : String.eqb a b = false <-> a <> b.
Proof. apply String.eqb_neq. Qed.

Lemma lookupEntry_removeEntry_ne n m es :
  n <> m -> lookupEntry m (removeEntry n es) = lookupEntry m es.
Proof.
  intros Hne. induction es as [|[k x] es IH]; simpl; [reflexivity|].
  destruct (String.eqb k n) eqn:Hkn.
  - apply String.eqb_eq in Hkn. subst k.
    destruct (String.eqb n m) eqn:Hnm; [apply String.eqb_eq in Hnm; contradiction|exact IH].
  - simpl. now rewrite IH.
Qed.

Lemma lookupEntry_replaceEntry_ne k m v es :
  k <> m -> lookupEntry m (replaceEntry k v es) = lookupEntry m es.
Proof.
  intros Hne. induction es as [|[n x] es IH]; simpl; [reflexivity|].
  destruct (String.eqb n k) eqn:Hnk; simpl.
  - apply String.eqb_eq in Hnk. subst n.
    destruct (String.eqb k m) eqn:Hkm; [apply String.eqb_eq in Hkm; contradiction|reflexivity].
  - now rewrite IH.
Qed.

Lemma lookupEntry_replaceEntry_eq k v v0 es :
  lookupEntry k es = Some v0 -> lookupEntry k (replaceEntry k v es) = Some v.
Proof.
  induction es as [|[n x] es IH]; simpl; [discriminate|].
  destruct (String.eqb n k) eqn:Hnk; simpl; rewrite Hnk; auto.
Qed.

Lemma lookupEntry_app m a b :
  lookupEntry m (a ++ b) =
  match lookupEntry m a with Some x => Some x | None => lookupEntry m b end.
Proof.
  induction a as [|[n x] a IH]; simpl; [reflexivity|].
  destruct (String.eqb n m); auto.
Qed.

Lemma replaceEntry_same k v es :
  lookupEntry k es = Some v -> replaceEntry k v es = es.
Proof.
  induction es as [|[n x] es IH]; simpl; [reflexivity|].
  destruct (String.eqb n k) eqn:Hnk.
  - intros [= ->]. reflexivity.
  - intros H. now rewrite IH.
Qed.

Lemma replaceEntry_replaceEntry k v1 v2 es :
  replaceEntry k v2 (replaceEntry k v1 es) = replaceEntry k v2 es.
Proof.
  induction es as [|[n x] es IH]; simpl; [reflexivity|].
  destruct (String.eqb n k) eqn:Hnk; simpl; rewrite Hnk; [reflexivity|now rewrite IH].
Qed.

Lemma keepOut_replaceEntry ns k v es :
  keepOut ns (replaceEntry k v es) = replaceEntry k v (keepOut ns es).
Proof.
  unfold keepOut. induction es as [|[n x] es IH]; [reflexivity|].
  cbn [replaceEntry]. destruct (String.eqb n k) eqn:Hnk.
  - rewrite !filter_cons. cbn [fst]. destruct (decide (n ∉ ns)) as [Hin|Hin].
    + cbn [replaceEntry]. now rewrite Hnk.
    + apply String.eqb_eq in Hnk. subst n.
      clear IH. induction es as [|[m y] es IH]; [reflexivity|].
      rewrite filter_cons. cbn [fst]. destruct (decide (m ∉ ns)) as [Hm|Hm]; [|exact IH].
      cbn [replaceEntry].
      destruct (String.eqb m k) eqn:Hmk; [apply String.eqb_eq in Hmk; subst; contradiction|].
      now rewrite <- IH.
  - rewrite !filter_cons. cbn [fst]. destruct (decide (n ∉ ns)); [|exact IH].
    cbn [replaceEntry]. now rewrite Hnk, IH.
Qed.

Lemma keepOut_removeEntry ns n es :
  keepOut ns (removeEntry n es) = keepOut (n :: ns) es.
Proof.
  unfold keepOut. induction es as [|[m x] es IH]; [reflexivity|].
  cbn [removeEntry]. destruct (String.eqb m n) eqn:Hmn.
  - apply String.eqb_eq in Hmn. subst m. rewrite IH.
    rewrite (filter_cons_False _ (n, x)); [reflexivity|]. cbn [fst].
    intros Hn. apply Hn. now left.
  - apply String.eqb_neq in Hmn. rewrite !filter_cons. cbn [fst].
    destruct (decide (m ∉ ns)) as [H1|H1], (decide (m ∉ n :: ns)) as [H2|H2].
    + now rewrite IH.
    + exfalso. apply H2. intros [->|Hin]%elem_of_cons; [now apply Hmn|now apply H1].
    + exfalso. apply H1. intros Hin. apply H2. now right.
    + exact IH.
Qed.

Lemma keepOut_nil es : keepOut [] es = es.
Proof.
  unfold keepOut. induction es as [|e es IH]; [reflexivity|].
  rewrite filter_cons_True; [now rewrite IH|]. apply not_elem_of_nil.
Qed.

Section Clean.

Variable E : Env.

Lemma renameAll_moves (todo : entries_t) : forall (st pk : entries_t),
  lookupEntry "package" st = Some (Dir pk) ->
  NoDup (names todo) ->
  (forall n x, (n, x) ∈ todo ->
     n <> "package" /\ lookupEntry n st = Some x /\ lookupEntry n pk = None) ->
  renameAll E (names todo) st
  = (replaceEntry "package" (Dir (pk ++ todo)) (keepOut (names todo) st), None).
Proof.
  induction todo as [|[n x] todo IH]; intros st pk Hpk Hnd Hall; simpl.
  - rewrite app_nil_r, keepOut_nil, replaceEntry_same; auto.
  - destruct (Hall n x) as (Hn & Hst & Hnpk); [left|].
    unfold renameIntoPackage. rewrite Hpk, Hst, Hnpk.
    apply list.NoDup_cons in Hnd as [Hnotin Hnd].
    rewrite (IH _ (pk ++ [(n, x)])).
    + rewrite keepOut_replaceEntry, replaceEntry_replaceEntry, keepOut_removeEntry.
      now rewrite <- app_assoc.
    + rewrite (lookupEntry_replaceEntry_eq _ _ (Dir pk)); [reflexivity|].
      rewrite lookupEntry_removeEntry_ne; auto.
    + exact Hnd.
    + intros m y Hm. destruct (Hall m y) as (Hm1 & Hm2 & Hm3); [now right|].
      assert (n <> m).
      { intros ->. apply Hnotin. unfold names. apply list_elem_of_fmap. now exists (m, y). }
      split; [exact Hm1|]. split.
      * rewrite lookupEntry_replaceEntry_ne by auto.
        now rewrite lookupEntry_removeEntry_ne.
      * rewrite lookupEntry_app, Hm3. simpl.
        destruct (String.eqb n m) eqn:Hnm; [apply String.eqb_eq in Hnm; contradiction|reflexivity].
Qed.
End Clean.

Lemma names_otherEntries es :
  filter (fun file => file <> "package") (names es) = names (otherEntries es).
Proof.
  unfold names, otherEntries. induction es as [|[n x] es IH]; [reflexivity|].
  rewrite fmap_cons, !filter_cons. cbn [fst].
  destruct (decide (n <> "package")); [rewrite fmap_cons; cbn [fst]|]; now rewrite IH.
Qed.

Lemma filter_named_none k (es : entries_t) :
  k ∉ names es -> filter (fun e => e.1 = k) es = [].
Proof.
  unfold names. induction es as [|[n x] es IH]; [reflexivity|].
  rewrite fmap_cons. cbn [fst]. intros [Hne Hin]%not_elem_of_cons.
  rewrite filter_cons_False; [now apply IH|]. cbn [fst]. congruence.
Qed.

Lemma filter_named_one k v (es : entries_t) :
  NoDup (names es) -> lookupEntry k es = Some v ->
  filter (fun e => e.1 = k) es = [(k, v)].
Proof.
  unfold names. induction es as [|[n x] es IH]; [discriminate|].
  rewrite fmap_cons. cbn [fst lookupEntry]. intros [Hnotin Hnd]%list.NoDup_cons.
  destruct (String.eqb n k) eqn:Hnk.
  - apply String.eqb_eq in Hnk. subst n. intros [= ->].
    rewrite filter_cons_True by reflexivity. now rewrite filter_named_none.
  - apply String.eqb_neq in Hnk. intros Hl.
    rewrite filter_cons_False by (cbn [fst]; congruence). now apply IH.
Qed.

Lemma filter_ext_in {A} (P Q : A -> Prop) `{!forall x, Decision (P x)}
    `{!forall x, Decision (Q x)} (l : list A) :
  (forall x, x ∈ l -> P x <-> Q x) -> filter P l = filter Q l.
Proof.
  induction l as [|a l IH]; intros Hext; [reflexivity|].
  rewrite !filter_cons.
  assert (Ha : P a <-> Q a) by (apply Hext; now left).
  assert (Hl : filter P l = filter Q l) by (apply IH; intros x Hx; apply Hext; now right).
  destruct (decide (P a)), (decide (Q a)); try tauto; now rewrite Hl.
Qed.

Lemma keepOut_others (es : entries_t) :
  keepOut (names (otherEntries es)) es = filter (fun e => e.1 = "package") es.
Proof.
  unfold keepOut. apply filter_ext_in. intros e He. unfold names, otherEntries.
  rewrite list_elem_of_fmap. split.
  - intros Hn. destruct (decide (e.1 = "package")) as [|Hne]; [assumption|].
    exfalso. apply Hn. exists e. split; [reflexivity|].
    apply list_elem_of_filter. now split.
  - intros Hp (e' & Heq & [Hne _]%list_elem_of_filter). congruence.
Qed.

Lemma not_in_names_filter (P : string * node -> Prop) `{!forall e, Decision (P e)}
    (n : string) (es : entries_t) :
  n ∉ names es -> n ∉ names (filter P es).
Proof.
  unfold names. rewrite !list_elem_of_fmap.
  intros Hn (e & He1 & [_ He2]%list_elem_of_filter). apply Hn. now exists e.
Qed.

Lemma NoDup_names_filter (P : string * node -> Prop) `{!forall e, Decision (P e)}
    (es : entries_t) :
  NoDup (names es) -> NoDup (names (filter P es)).
Proof.
  induction es as [|[n x] es IH]; [intros _; constructor|].
  unfold names in *. rewrite fmap_cons. cbn [fst].
  intros [Hnotin Hnd]%list.NoDup_cons. rewrite filter_cons.
  destruct (decide (P (n, x))); [|now apply IH].
  rewrite fmap_cons. cbn [fst]. apply list.NoDup_cons. split; [|now apply IH].
  now apply not_in_names_filter.
Qed.

Lemma lookupEntry_elem (n : string) (x : node) (es : entries_t) :
  NoDup (names es) -> (n, x) ∈ es -> lookupEntry n es = Some x.
Proof.
  induction es as [|[m y] es IH]; [intros _ []%elem_of_nil|].
  unfold names in *. rewrite fmap_cons. cbn [fst lookupEntry].
  intros [Hnotin Hnd]%list.NoDup_cons [Heq|Hin]%elem_of_cons.
  - injection Heq as -> ->. now rewrite String.eqb_refl.
  - destruct (String.eqb m n) eqn:Hmn; [|now apply IH].
    apply String.eqb_eq in Hmn. subst m. exfalso. apply Hnotin.
    apply list_elem_of_fmap. now exists (n, x).
Qed.

Section CleanCachedPackage.

Variable E : Env.

(** C2, as amended.  [cleanCachedPackage] leaves a directory without
    [package/] as it is; when [package/] exists, every other top-level
    entry moves into it under its own name and with its content intact
    (entry names being distinct and not yet taken inside [package/]),
    after the entries [package/] held already. *)
Theorem C2_cleanCachedPackage_nests_into_existing_package (es : entries_t) :
  (lookupEntry "package" es = None -> cleanCachedPackage E es = (es, None))
  /\ (forall pk,
        NoDup (names es) ->
        lookupEntry "package" es = Some (Dir pk) ->
        (forall n, n ∈ names es -> n <> "package" -> lookupEntry n pk = None) ->
        cleanCachedPackage E es
        = ([("package", Dir (pk ++ otherEntries es))], None)).
Proof.
  split.
  - intros H. unfold cleanCachedPackage. rewrite H.
    rewrite bool_decide_eq_false_2; [reflexivity|]. intros [? ?]. discriminate.
  - intros pk Hnd Hpk Hfree. unfold cleanCachedPackage. rewrite Hpk.
    rewrite bool_decide_eq_true_2 by eauto.
    rewrite names_otherEntries.
    rewrite (renameAll_moves E (otherEntries es) es pk Hpk).
    + rewrite keepOut_others, (filter_named_one _ (Dir pk)) by assumption.
      cbn. reflexivity.
    + now apply NoDup_names_filter.
    + intros n x [Hne Hin]%list_elem_of_filter. cbn [fst] in Hne.
      split; [exact Hne|]. split; [now apply lookupEntry_elem|].
      apply Hfree; [|exact Hne]. unfold names. apply list_elem_of_fmap.
      now exists (n, x).
Qed.

End CleanCachedPackage.

Lemma C2_witness :
  (lookupEntry "package" Sample.noPackage = None
   /\ cleanCachedPackage Sample.env Sample.noPackage = (Sample.noPackage, None))
  /\ (NoDup (names Sample.wrongFormat)
      /\ lookupEntry "package" Sample.wrongFormat
         = Some (Dir [("package.json", File "p")])
      /\ cleanCachedPackage Sample.env Sample.wrongFormat
         = ([("package",
              Dir [("package.json", File "p");
                   ("other", Dir [("nested.json", File "n")]);
                   ("StructureDefinition-MyPatient.json", File "m")])], None)).
Proof.
  split.
  - split; [reflexivity|].
    apply (proj1 (C2_cleanCachedPackage_nests_into_existing_package
                    Sample.env Sample.noPackage)).
    reflexivity.
  - assert (Hnd : NoDup (names Sample.wrongFormat)) by compute_done.
    split; [exact Hnd|]. split; [reflexivity|].
    apply (proj2 (C2_cleanCachedPackage_nests_into_existing_package
                    Sample.env Sample.wrongFormat)
             [("package.json", File "p")] Hnd); [reflexivity|].
    intros n Hin Hne. vm_compute in Hin.
    repeat (apply elem_of_cons in Hin as [->|Hin]); try reflexivity.
    now apply elem_of_nil in Hin.
Defined.

(** C2, as the specification words it, fails on both sides: an archive
    that has [package/] next to other entries is rearranged, and one
    without [package/] gets none. *)
Lemma C2_counterexample :
  cleanCachedPackage Sample.env Sample.wrongFormat
  <> (normalizeLayoutAsSpecified Sample.wrongFormat, None)
  /\ cleanCachedPackage Sample.env Sample.noPackage
     <> (normalizeLayoutAsSpecified Sample.noPackage, None).
Proof. split; intros H; vm_compute in H; discriminate H. Qed.

(** ** The local package loader *)

Section LoadFromPath.

Variable E : Env.

(** A memoized key is answered from the process cache, whatever the disk
    holds, and nothing changes. *)
Lemma loadFromPath_memoized (cachePath key : string) (p : LoadedPackage)
    (w : World) :
  cache w !! key = Some p ->
  loadFromPath E cachePath key w = (Returns (Some p), w).
Proof. intros H. unfold loadFromPath. now rewrite H. Qed.

(** C8.  Only the directory names are lower-cased before the comparison,
    the requested key is not: a key that contains a capital letter is
    reported absent whatever directories exist, among them one of exactly
    that name. *)
Theorem C8_key_with_capitals_is_never_found (cachePath key : string)
    (w : World) :
  cache w !! key = None ->
  Js.toLowerCase key <> key ->
  (forall content, files w !! cachePath <> Some (File content)) ->
  loadFromPath E cachePath key w = (Returns None, w).
Proof.
  intros Hcache Hkey Hroot. unfold loadFromPath. rewrite Hcache.
  unfold readCachedPackage, existsSync, readdirSync.
  destruct (files w !! cachePath) as [[content|root]|] eqn:Hf.
  - now destruct (Hroot content).
  - cbn. now rewrite find_lowered_none.
  - reflexivity.
Qed.

End LoadFromPath.

Lemma C8_witness :
  cache Sample.world !! "Sushi-Test-Caps#0.1.0" = None
  /\ Js.toLowerCase "Sushi-Test-Caps#0.1.0" <> "Sushi-Test-Caps#0.1.0"
  /\ lookupEntry "Sushi-Test-Caps#0.1.0" Sample.cacheRoot
     = Some (Dir [("package", Dir [("StructureDefinition-c.json", File "c")])])
  /\ loadFromPath Sample.env "cache" "Sushi-Test-Caps#0.1.0" Sample.world
     = (Returns None, Sample.world).
Proof.
  split; [reflexivity|]. split; [discriminate|]. split; [reflexivity|].
  apply C8_key_with_capitals_is_never_found.
  - reflexivity.
  - discriminate.
  - intros content. vm_compute. discriminate.
Defined.

(** ** The batch loader *)

Lemma becomes_trans {R} (t0 t1 t2 : Task R) :
  becomes t0 t1 -> becomes t1 t2 -> becomes t0 t2.
Proof.
  intros H01 H12. induction H12 as [|next after w _ IH]; [exact H01|].
  now apply becomes_next with after.
Qed.

Lemma quiet_becomes {R} (t0 t : Task R) :
  quiet t0 -> becomes t0 t -> quiet t.
Proof.
  intros Hq Hb. induction Hb as [|next after w _ IH]; [exact Hq|].
  inversion IH as [|n a _ Hnext [Hn Ha]]. apply Hnext.
Qed.

Lemma turns_app {A} (order more : list nat)
    (tasks : list (Task (Completion A)))
    (all : Promise (list A)) (w : World) :
  turns (order ++ more) tasks all w
  = let '(tasks', all', w') := turns order tasks all w in
    turns more tasks' all' w'.
Proof.
  revert tasks all w. induction order as [|i order IH]; intros tasks all w.
  - reflexivity.
  - cbn [app turns]. destruct (turn i tasks w) as [tasks' w']. apply IH.
Qed.

(** A task that waits settles when it is taken up often enough. *)
Lemma task_settles {A} (t : Task (Completion A)) :
  forall (i : nat) (tasks : list (Task (Completion A)))
         (all : Promise (list A)) (w : World),
    tasks !! i = Some t ->
    exists k c,
      (turns (replicate k i) tasks all w).1.1 = <[i := Settled c]> tasks.
Proof.
  induction t as [c|next IH after]; intros i tasks all w Hi.
  - exists 0%nat, c. cbn. symmetry. now apply list_insert_id.
  - destruct (IH w i (<[i := next w]> tasks)
                (Promise_all all (<[i := next w]> tasks)) (after w))
      as (k & c & Hk).
    { apply list_lookup_insert_eq. now apply lookup_lt_Some in Hi. }
    exists (S k), c. cbn [replicate turns]. unfold turn. rewrite Hi.
    rewrite Hk. apply list_insert_insert_eq.
Qed.

Lemma tasks_settle {A} (rest : list (Task (Completion A))) :
  forall (done : list (Completion A)) (all : Promise (list A)) (w : World),
    exists order cs,
      (turns order (map Settled done ++ rest) all w).1.1 = map Settled cs.
Proof.
  induction rest as [|t rest IH]; intros done all w.
  - exists [], done. cbn. now rewrite app_nil_r.
  - destruct (task_settles t (length done) (map Settled done ++ t :: rest) all w)
      as (k & c & Hk).
    { rewrite lookup_app_r by (rewrite length_map; lia).
      rewrite length_map, Nat.sub_diag. reflexivity. }
    destruct (turns (replicate k (length done)) (map Settled done ++ t :: rest)
                all w) as [[tasks1 all1] w1] eqn:Hrun.
    cbn [fst] in Hk. subst tasks1.
    destruct (IH (done ++ [c]) all1 w1) as (order & cs & Horder).
    exists (replicate k (length done) ++ order), cs.
    rewrite turns_app, Hrun.
    replace (<[length done := Settled c]> (map Settled done ++ t :: rest))
      with (map Settled (done ++ [c]) ++ rest); [exact Horder|].
    rewrite map_app, <- app_assoc. cbn [map app].
    rewrite insert_app_r_alt by (rewrite length_map; lia).
    now rewrite length_map, Nat.sub_diag.
Qed.

Lemma fulfilments_settled {A} (cs : list (Completion A)) :
  firstRejection (map Settled cs) = None ->
  exists values, fulfilments (map Settled cs) = Some values.
Proof.
  induction cs as [|[a|e] cs IH]; cbn [map firstRejection fulfilments].
  - eauto.
  - intros (values & ->)%IH. cbn. eauto.
  - discriminate.
Qed.

Section LoadDependencies.

Variable E : Env.
Variable exports_mergeDependency :
  string -> string -> FHIRDefinitions -> string -> Async MergeEnd.
Variable cachePath : string.

(** The calls of [map]: the promises are those of the merges with the
    handlers on them, and no handler has run. *)
Lemma callAll_tracked (reqs : list string) : forall w,
  exists merges promises w0,
    callAll (map (mergeOne exports_mergeDependency cachePath) reqs) w
    = (merges, w0)
    /\ callAll (map (loadOne E exports_mergeDependency cachePath) reqs) w
       = (promises, w0)
    /\ tracked E reqs merges promises (map (fun _ => None) reqs)
    /\ ((forall req, quietCall (mergeOne exports_mergeDependency cachePath req)) ->
        errorsLogged w0 = errorsLogged w /\ Forall quiet merges).
Proof.
  induction reqs as [|req reqs IH]; intros w.
  - exists [], [], w. repeat split; constructor.
  - cbn [map callAll]. unfold loadOne at 1.
    destruct (mergeOne exports_mergeDependency cachePath req w) as [t w1] eqn:Ht.
    destruct (IH w1) as (merges & promises & w0 & -> & -> & Htr & Hq).
    exists (t :: merges),
      (catch t (onFailure E req) :: promises), w0.
    split; [reflexivity|]. split; [reflexivity|]. split.
    + constructor; [|exact Htr]. apply tracks_merging. constructor.
    + intros Hquiet. destruct (Hq Hquiet) as [Hlog Hall].
      destruct (Hquiet req w) as [Hlog1 Hq1]. rewrite Ht in Hlog1, Hq1.
      cbn [fst snd] in Hlog1, Hq1.
      split; [congruence|]. now constructor.
Qed.

Lemma tracked_no_rejection reqs merges promises handleds :
  tracked E reqs merges promises handleds -> firstRejection promises = None.
Proof.
  induction 1 as [|req merge promise handled reqs merges promises handleds
                   Ht _ IH]; [reflexivity|].
  destruct Ht as [t _|e fhirDefs _]; [|exact IH].
  destruct t as [[[s|e] fhirDefs]|next after]; exact IH.
Qed.

(** One turn: the promises still are those of the merges, at most one
    more failure has been handled, and what the handler logged is the
    one entry of that failure. *)
Lemma turn_tracked (i : nat) reqs merges promises handleds (w : World) :
  tracked E reqs merges promises handleds ->
  exists handleds' new,
    tracked E reqs merges (turn i promises w).1 handleds'
    /\ concat (zip_with (handledEntry E) reqs handleds')
       ≡ₚ concat (zip_with (handledEntry E) reqs handleds) ++ new
    /\ (Forall quiet merges ->
        errorsLogged (turn i promises w).2 = errorsLogged w ++ new).
Proof.
  intros Htr. revert i.
  induction Htr as [|req merge promise handled reqs merges promises handleds
                     Ht Htr IH]; intros i.
  - exists [], []. split; [constructor|]. split; [reflexivity|].
    intros _. unfold turn. rewrite lookup_nil. cbn. now rewrite app_nil_r.
  - destruct i as [|i].
    + unfold turn. cbn [lookup list_lookup].
      destruct Ht as [t Hb|e left Hb].
      * destruct t as [[[s|e] left]|next after]; cbn [catch].
        -- exists (None :: handleds), []. rewrite app_nil_r.
           split; [|split; [reflexivity|intros _; cbn; now rewrite app_nil_r]].
           constructor; [|exact Htr].
           now apply (tracks_merging E req merge
                        (Settled {| completion := Returns s;
                                    storeGiven := left |})).
        -- exists (Some e :: handleds), [("error", failureMessage E req e)].
           cbn [fst snd insert list_insert]. split; [|split].
           ++ constructor; [|exact Htr]. now apply (tracks_handled E req merge e left).
           ++ cbn [zip_with concat handledEntry app].
              apply Permutation_cons_append.
           ++ intros _. unfold errorsLogged, onFailure, bind, log, ret.
              cbn [fst snd logged setLogged].
              rewrite list.filter_app. reflexivity.
        -- exists (None :: handleds), []. rewrite app_nil_r.
           cbn [fst snd insert list_insert]. split; [|split; [reflexivity|]].
           ++ constructor; [|exact Htr]. apply tracks_merging.
              now apply becomes_next with after.
           ++ intros Hq. rewrite app_nil_r.
              apply list.Forall_cons in Hq as [Hq _].
              apply (quiet_becomes _ _ Hq) in Hb.
              inversion Hb as [|n a Hlog _ [Hn Ha]]. apply Hlog.
      * exists (Some e :: handleds), []. rewrite app_nil_r.
        split; [|split; [reflexivity|intros _; cbn; now rewrite app_nil_r]].
        constructor; [|exact Htr]. now apply tracks_handled.
    + destruct (IH i) as (handleds' & new & Htr' & Hperm & Hlog).
      exists (handled :: handleds'), new.
      assert (Hturn : turn (S i) (promise :: promises) w
                      = (promise :: (turn i promises w).1, (turn i promises w).2)).
      { unfold turn. cbn [lookup list_lookup].
        destruct (promises !! i) as [[c|next after]|]; reflexivity. }
      rewrite Hturn. cbn [fst snd]. split; [|split].
      * now constructor.
      * cbn [zip_with concat]. rewrite <- app_assoc. now apply Permutation_app_head.
      * intros Hq. apply list.Forall_cons in Hq as [_ Hq]. now apply Hlog.
Qed.

(** The course of a batch up to any turn. *)
Lemma loadDependencies_tracked (reqs : list string) (order : list nat)
    (w : World) :
  exists merges promises handleds w',
    (callAll (map (mergeOne exports_mergeDependency cachePath) reqs) w).1 = merges
    /\ tracked E reqs merges promises handleds
    /\ (let (ps, w0) :=
          callAll (map (loadOne E exports_mergeDependency cachePath) reqs) w in
        turns order ps (Promise_all Pending ps) w0)
       = (promises, Promise_all Pending promises, w')
    /\ ((forall req, quietCall (mergeOne exports_mergeDependency cachePath req)) ->
        errorsLogged w'
        ≡ₚ errorsLogged w ++ concat (zip_with (handledEntry E) reqs handleds)).
Proof.
  destruct (callAll_tracked reqs w) as (merges & ps & w0 & Hm & -> & Htr & Hq).
  rewrite Hm. cbn [fst]. exists merges.
  assert (Hgen : forall ps handleds w1,
             tracked E reqs merges ps handleds ->
             ((forall req, quietCall (mergeOne exports_mergeDependency cachePath req)) ->
              errorsLogged w1
              ≡ₚ errorsLogged w ++ concat (zip_with (handledEntry E) reqs handleds)) ->
             exists promises handleds' w',
               tracked E reqs merges promises handleds'
               /\ turns order ps (Promise_all Pending ps) w1
                  = (promises, Promise_all Pending promises, w')
               /\ ((forall req, quietCall (mergeOne exports_mergeDependency cachePath req)) ->
                   errorsLogged w'
                   ≡ₚ errorsLogged w
                      ++ concat (zip_with (handledEntry E) reqs handleds'))).
  { clear ps Htr Hm. induction order as [|i order IH]; intros ps handleds w1 Htr Hlog.
    - exists ps, handleds, w1. now repeat split.
    - cbn [turns].
      destruct (turn_tracked i reqs merges ps handleds w1 Htr)
        as (handleds' & new & Htr' & Hperm & Hnew).
      destruct (turn i ps w1) as [ps' w2]. cbn [fst snd] in Htr', Hnew.
      replace (Promise_all (Promise_all Pending ps) ps')
        with (Promise_all Pending ps').
      2:{ unfold Promise_all at 2 3.
          rewrite (tracked_no_rejection _ _ _ _ Htr).
          unfold Promise_all. now destruct (fulfilments ps). }
      apply (IH ps' handleds' w2 Htr').
      intros Hquiet. rewrite Hnew by apply (Hq Hquiet).
      rewrite (Hlog Hquiet), Hperm. now rewrite app_assoc. }
  destruct (Hgen ps (map (fun _ => None) reqs) w0 Htr)
    as (promises & handleds & w' & Htr' & Hrun & Hlog).
  { intros Hquiet. rewrite (proj1 (Hq Hquiet)).
    replace (concat (zip_with (handledEntry E) reqs (map (fun _ => None) reqs)))
      with (@nil (string * string)); [now rewrite app_nil_r|].
    clear. induction reqs as [|req reqs IH]; [reflexivity|exact IH]. }
  exists promises, handleds, w'. now repeat split.
Qed.

(** When every promise has fulfilled, each value is the store of its
    request. *)
Lemma tracked_fulfilled reqs merges promises handleds values :
  tracked E reqs merges promises handleds ->
  fulfilments promises = Some values ->
  exists outcomes,
    Forall2 (fun merge c => becomes merge (Settled c)) merges outcomes
    /\ values = zip_with storeFor reqs outcomes
    /\ concat (zip_with (handledEntry E) reqs handleds)
       = concat (zip_with (failureEntry E) reqs outcomes).
Proof.
  intros Htr. revert values.
  induction Htr as [|req merge promise handled reqs merges promises handleds
                     Ht Htr IH]; intros values.
  - intros [= <-]. exists []. repeat split. constructor.
  - destruct Ht as [t Hb|e left Hb].
    + destruct t as [[[s|e] left]|next after]; cbn [catch fulfilments];
        try discriminate.
      destruct (fulfilments promises) as [vs|] eqn:Hvs; [|discriminate].
      intros [= <-]. destruct (IH vs eq_refl) as (outcomes & Hall & -> & Hlog).
      exists ({| completion := Returns s; storeGiven := left |} :: outcomes).
      split; [now constructor|]. split; [reflexivity|exact Hlog].
    + cbn [fulfilments].
      destruct (fulfilments promises) as [vs|] eqn:Hvs; [|discriminate].
      intros [= <-]. destruct (IH vs eq_refl) as (outcomes & Hall & -> & Hlog).
      exists ({| completion := Throws e; storeGiven := left |} :: outcomes).
      split; [now constructor|]. split; [reflexivity|].
      cbn [zip_with concat handledEntry failureEntry completion].
      now rewrite Hlog.
Qed.

Lemma tracked_length reqs merges promises handleds :
  tracked E reqs merges promises handleds -> length promises = length reqs.
Proof. induction 1; cbn [length]; congruence. Qed.


(** A batch that has fulfilled has done so with the stores of its
    requests. *)
Lemma loadDependencies_fulfilled (reqs : list string) (order : list nat)
    (w : World) (fhirDefs : option FHIRDefinitions) (w' : World) :
  loadDependencies E exports_mergeDependency reqs cachePath order w
  = (Fulfilled fhirDefs, w') ->
  exists outcomes,
    Forall2 (fun merge c => becomes merge (Settled c))
      (callAll (map (mergeOne exports_mergeDependency cachePath) reqs) w).1
      outcomes
    /\ fhirDefs = assemble (zip_with storeFor reqs outcomes)
    /\ ((forall req, quietCall (mergeOne exports_mergeDependency cachePath req)) ->
        errorsLogged w'
        ≡ₚ errorsLogged w ++ concat (zip_with (failureEntry E) reqs outcomes)).
Proof.
  unfold loadDependencies.
  destruct (loadDependencies_tracked reqs order w)
    as (merges & promises & handleds & w1 & -> & Htr & Hrun & Hlog).
  destruct (callAll (map (loadOne E exports_mergeDependency cachePath) reqs) w)
    as [ps w0].
  rewrite Hrun. unfold Promise_all.
  rewrite (tracked_no_rejection _ _ _ _ Htr).
  destruct (fulfilments promises) as [values|] eqn:Hvalues; [|discriminate].
  cbn [then_]. intros [= <- <-].
  destruct (tracked_fulfilled _ _ _ _ _ Htr Hvalues)
    as (outcomes & Hall & -> & Hentries).
  exists outcomes. split; [exact Hall|]. split; [reflexivity|].
  intros Hquiet. rewrite <- Hentries. now apply Hlog.
Qed.

(** Whatever turns have been taken, there are turns after which the batch
    has fulfilled. *)
Lemma loadDependencies_fulfils (reqs : list string) (order : list nat)
    (w : World) :
  exists more fhirDefs w',
    loadDependencies E exports_mergeDependency reqs cachePath (order ++ more) w
    = (Fulfilled fhirDefs, w').
Proof.
  destruct (loadDependencies_tracked reqs order w)
    as (merges & promises & handleds & w1 & _ & _ & Hrun & _).
  destruct (tasks_settle promises [] (Promise_all Pending promises) w1)
    as (more & cs & Hmore). cbn [map app] in Hmore.
  exists more.
  destruct (loadDependencies_tracked reqs (order ++ more) w)
    as (merges' & promises' & handleds' & w2 & _ & Htr' & Hrun' & _).
  unfold loadDependencies.
  destruct (callAll (map (loadOne E exports_mergeDependency cachePath) reqs) w)
    as [ps w0].
  rewrite Hrun'. rewrite turns_app, Hrun in Hrun'.
  rewrite Hrun' in Hmore. cbn [fst] in Hmore. subst promises'.
  unfold Promise_all. pose proof (tracked_no_rejection _ _ _ _ Htr') as Hno.
  rewrite Hno. destruct (fulfilments_settled cs Hno) as (values & ->).
  now eexists _, _.
Qed.

Lemma assemble_nonempty (stores : list FHIRDefinitions) :
  stores <> [] -> exists s, assemble stores = Some s.
Proof.
  destruct stores as [|s [|s' rest]]; [congruence| |]; intros _; cbn; eauto.
Qed.


(** C10.  For an empty list of requests the batch fulfils with
    [undefined]: no store at all, not an empty aggregator; it is the only
    list for which it does, every other one yields a store, whenever it
    has fulfilled, and fulfils after enough turns. *)
Theorem C10_no_request_no_store (order : list nat) (w : World) :
  loadDependencies E exports_mergeDependency [] cachePath order w
  = (Fulfilled None, w)
  /\ (forall fhirPackages,
         fhirPackages <> [] ->
         (forall fhirDefs w',
             loadDependencies E exports_mergeDependency fhirPackages cachePath
               order w
             = (Fulfilled fhirDefs, w') ->
             fhirDefs <> None)
         /\ exists more s w',
             loadDependencies E exports_mergeDependency fhirPackages cachePath
               (order ++ more) w
             = (Fulfilled (Some s), w')).
Proof.
  assert (Hsome : forall fhirPackages order' fhirDefs w',
             fhirPackages <> [] ->
             loadDependencies E exports_mergeDependency fhirPackages cachePath
               order' w
             = (Fulfilled fhirDefs, w') ->
             exists s, fhirDefs = Some s).
  { intros fhirPackages order' fhirDefs w' Hne Hrun.
    destruct (loadDependencies_fulfilled _ _ _ _ _ Hrun)
      as (outcomes & Hall & -> & _).
    apply assemble_nonempty. apply Forall2_length in Hall.
    assert (Hlen : length (callAll (map (mergeOne exports_mergeDependency cachePath)
                                        fhirPackages) w).1
                   = length fhirPackages).
    { destruct (callAll_tracked fhirPackages w)
        as (merges & promises & w0 & -> & _ & Htr & _).
      clear -Htr. cbn [fst]. induction Htr; cbn [length map] in *; congruence. }
    destruct fhirPackages as [|req reqs]; [congruence|].
    destruct outcomes as [|c cs]; [cbn in *; lia|discriminate]. }
  split.
  - unfold loadDependencies. cbn [map callAll].
    assert (Hidle : turns order (@nil (Task (Completion FHIRDefinitions)))
                      (Fulfilled []) w
                    = ([], Fulfilled [], w)).
    { induction order as [|i order' IH]; [reflexivity|].
      cbn [turns]. unfold turn. now rewrite lookup_nil. }
    change (Promise_all Pending (@nil (Task (Completion FHIRDefinitions))))
      with (@Fulfilled (list FHIRDefinitions) []).
    now rewrite Hidle.
  - intros fhirPackages Hne. split.
    + intros fhirDefs w' Hrun.
      destruct (Hsome _ _ _ _ Hne Hrun) as [s ->]. discriminate.
    + destruct (loadDependencies_fulfils fhirPackages order w)
        as (more & fhirDefs & w' & Hrun).
      destruct (Hsome _ _ _ _ Hne Hrun) as [s ->]. now exists more, s, w'.
Qed.

End LoadDependencies.



Lemma C10_witness :
  loadDependencies Sample.env Sample.mockAtOnce [] "cache" [0; 1]%nat Sample.world
  = (Fulfilled None, Sample.world)
  /\ ["hl7.fhir.us.core#4.0.1"] <> []
  /\ (forall fhirDefs w',
         loadDependencies Sample.env Sample.mockAtOnce ["hl7.fhir.us.core#4.0.1"]
           "cache" [0; 1]%nat Sample.world
         = (Fulfilled fhirDefs, w') ->
         fhirDefs <> None)
  /\ exists more s w',
      loadDependencies Sample.env Sample.mockAtOnce ["hl7.fhir.us.core#4.0.1"]
        "cache" ([0; 1]%nat ++ more) Sample.world
      = (Fulfilled (Some s), w').
Proof.
  split; [apply (proj1 (C10_no_request_no_store Sample.env Sample.mockAtOnce
                          "cache" [0; 1]%nat Sample.world))|].
  split; [discriminate|].
  apply (proj2 (C10_no_request_no_store Sample.env Sample.mockAtOnce
                  "cache" [0; 1]%nat Sample.world)).
  discriminate.
Defined.

(** The batches of the tests of [loadDependencies], with the mock of the
    tests in the place of the merge: one request yields its own store, two
    yield an aggregator without label, a request that cannot be met
    yields a store flagged as failed and one error in the log, which ends
    in the guidance when the failure is one of a certificate. *)
Example loadDependencies_shapes :
  (loadDependencies Sample.env Sample.mockAtOnce ["hl7.fhir.us.core#4.0.1"]
     "cache" [] Sample.world)
  = (Fulfilled (Some (setPackage "hl7.fhir.us.core#4.0.1" newFHIRDefinitions)),
     Sample.world)
  /\ (match (loadDependencies Sample.env Sample.mockAtOnce
               ["hl7.fhir.us.core#4.0.1"; "hl7.fhir.us.core#3.0.1"] "cache" []
               Sample.world).1 with
      | Fulfilled (Some s) => (label s, map label (childFHIRDefs s))
      | _ => ("?", [])
      end)
     = ("", ["hl7.fhir.us.core#4.0.1"; "hl7.fhir.us.core#3.0.1"])
  /\ (loadDependencies Sample.env Sample.mockAtOnce ["hl7.does.not.exist#current"]
        "cache" [0]%nat Sample.world)
     = (Fulfilled
          (Some (failedStore "hl7.does.not.exist#current" newFHIRDefinitions)),
        setLogged
          [("error",
            "Failed to load hl7.does.not.exist#current: the package could not be loaded")]
          Sample.world)
  /\ (loadDependencies Sample.env Sample.mockAtOnce ["self-signed.package#1.0.0"]
        "cache" [0]%nat Sample.world)
     = (Fulfilled
          (Some (failedStore "self-signed.package#1.0.0" newFHIRDefinitions)),
        setLogged
          [("error",
            "Failed to load self-signed.package#1.0.0: self signed certificate in certificate chain"
            +:+ certificateGuidance)]
          Sample.world).
Proof. repeat split; vm_compute; reflexivity. Qed.

(** The handler flags and labels the very store that was passed to the
    merge: what the merge wrote to it before it rejected is still in it. *)
Example loadDependencies_keeps_what_was_written :
  (loadDependencies Sample.env Sample.mockHalfway ["sushi-test#0.1.0"] "cache"
     [0; 0]%nat Sample.world).1
  = Fulfilled
      (Some (failedStore "sushi-test#0.1.0"
               (add (Sample.condition "4.0.1") newFHIRDefinitions))).
Proof. vm_compute. reflexivity. Qed.

(** The order of the turns shows in the log, not in the stores: of two
    requests that fail, the one whose merge is taken up first is logged
    first, and the stores are in the order of the requests. *)
Example loadDependencies_out_of_order :
  forall order, order = [1; 1; 0; 0]%nat \/ order = [0; 1; 0; 1]%nat ->
    match loadDependencies Sample.env Sample.mockLater
            ["a#1"; "b#2"] "cache" order Sample.world with
    | (Fulfilled (Some s), w') =>
        map label (childFHIRDefs s) = ["a#1"; "b#2"]
        /\ map snd (logged w')
           = if decide (order = [1; 1; 0; 0]%nat)
             then [failureMessage Sample.env "b#2" (PackageLoadError "b#2" None);
                   failureMessage Sample.env "a#1" (PackageLoadError "a#1" None)]
             else [failureMessage Sample.env "a#1" (PackageLoadError "a#1" None);
                   failureMessage Sample.env "b#2" (PackageLoadError "b#2" None)]
    | _ => False
    end.
Proof. intros order [-> | ->]; vm_compute; split; reflexivity. Qed.


(** ** Patch wildcards *)

Lemma patchRange_patchSet range set :
  semver.patchRange range = Some set -> exists X Y, set = patchSet X Y.
Proof.
  unfold semver.patchRange.
  destruct (Js.spanDigits range) as [a r1].
  destruct (semver.numericIdentifier a) as [X|]; [|discriminate]. cbn.
  destruct (semver.dotThen r1) as [r1'|]; [|discriminate]. cbn.
  destruct (Js.spanDigits r1') as [b r2].
  destruct (semver.numericIdentifier b) as [Y|]; [|discriminate]. cbn.
  destruct (negb (String.eqb r2 ".x")); [discriminate|].
  destruct (_ || _); [discriminate|].
  intros [= <-]. now exists X, Y.
Qed.

Lemma comparePreLoop_not_Lt_zero (p : list semver.identifier) :
  p <> [] -> semver.comparePreLoop p [semver.Num 0] <> Lt.
Proof.
  destruct p as [|i p]; [congruence|]. intros _. cbn.
  destruct i as [n|s]; cbn; [|discriminate].
  destruct (N.compare_spec n 0) as [->|H|H]; [|lia|discriminate].
  destruct p; discriminate.
Qed.

Lemma testSet_patchSet (X Y : N) (v : semver.SemVer) :
  semver.testSet (patchSet X Y) v = true
  <-> semver.major v = X /\ semver.minor v = Y /\ semver.prerelease v = [].
Proof.
  unfold semver.testSet, patchSet, semver.testComparator, semver.compare,
    semver.compareMain, semver.comparePre, semver.sameTuple.
  cbn [forallb existsb semver.op semver.operand semver.plain semver.major
       semver.minor semver.patch semver.prerelease].
  destruct v as [rw M m p pre bld]. cbn [semver.major semver.minor semver.patch semver.prerelease].
  split.
  - intros H. apply andb_true_iff in H as [Hcmp Hgate].
    apply andb_true_iff in Hcmp as [Hge Hlt]. rewrite andb_true_r in Hlt.
    destruct pre as [|i pre].
    + destruct (N.compare_spec M X) as [->|HM|HM]; try discriminate.
      destruct (N.compare_spec m Y) as [->|Hm|Hm]; try discriminate.
      * auto.
      * destruct (N.compare_spec m (Y + 1)) as [Hm'|Hm'|Hm']; try lia; try discriminate.
        destruct (N.compare_spec p 0); try discriminate; lia.
    + exfalso. cbn in Hgate. rewrite orb_false_r in Hgate.
      apply andb_true_iff in Hgate as [Hgate Hp]. apply andb_true_iff in Hgate as [HM Hm].
      apply N.eqb_eq in HM, Hm. destruct p as [|pp]; [|discriminate Hp]. subst.
      rewrite !N.compare_refl in Hlt. cbn in Hlt.
      pose proof (comparePreLoop_not_Lt_zero (i :: pre) ltac:(discriminate)) as Hn.
      cbn in Hn.
      match type of Hlt with
      | match ?c with _ => _ end = _ => destruct c; try discriminate
      end.
      now apply Hn.
  - intros (-> & -> & ->). rewrite !N.compare_refl.
    destruct (N.compare_spec p 0) as [->|Hp|Hp]; try lia;
    destruct (N.compare_spec Y (Y + 1)); try lia; reflexivity.
Qed.

Lemma compare_on_patchSet (X Y : N) (a b : semver.SemVer) :
  semver.testSet (patchSet X Y) a = true ->
  semver.testSet (patchSet X Y) b = true ->
  semver.compare a b = N.compare (semver.patch a) (semver.patch b).
Proof.
  intros (Ha1 & Ha2 & Ha3)%testSet_patchSet (Hb1 & Hb2 & Hb3)%testSet_patchSet.
  unfold semver.compare, semver.compareMain, semver.comparePre.
  rewrite Ha1, Ha2, Ha3, Hb1, Hb2, Hb3, !N.compare_refl.
  now destruct (semver.patch a ?= semver.patch b)%N.
Qed.

Lemma maxStep_bestSoFar (X Y : N) (seen : list string)
    (acc : option (string * semver.SemVer)) (v : string) :
  bestSoFar (patchSet X Y) seen acc ->
  bestSoFar (patchSet X Y) (seen ++ [v]) (semver.maxStep (patchSet X Y) acc v).
Proof.
  intros Hacc. unfold semver.maxStep.
  destruct (semver.parse v) as [sv|] eqn:Hparse;
    [destruct (semver.testSet (patchSet X Y) sv) eqn:Htest|].
  - (* [v] satisfies the range *)
    assert (Hself : semver.compare sv sv <> Lt).
    { rewrite (compare_on_patchSet X Y) by assumption.
      now rewrite N.compare_refl. }
    destruct acc as [[m msv]|]; cbn [bestSoFar] in *.
    + destruct Hacc as (Hm & Hmp & Hmt & Hmax).
      destruct (semver.compare msv sv) eqn:Hcmp; cbn [bestSoFar].
      * split; [apply elem_of_app; now left|]. repeat split; try assumption.
        intros v' sv' Hin Hp Ht; apply elem_of_app in Hin as [Hin|Hin%list_elem_of_singleton]; [exact (Hmax v' sv' Hin Hp Ht)|subst v'].
        rewrite Hparse in Hp. injection Hp as <-. congruence.
      * split; [apply elem_of_app; right; now apply list_elem_of_singleton|].
        repeat split; try assumption.
        intros v' sv' Hin Hp Ht; apply elem_of_app in Hin as [Hin|Hin%list_elem_of_singleton]; [|subst v'].
        -- specialize (Hmax v' sv' Hin Hp Ht).
           rewrite (compare_on_patchSet X Y) in Hmax, Hcmp |- * by assumption.
           rewrite N.compare_lt_iff in Hcmp. rewrite N.compare_lt_iff in *. lia.
        -- rewrite Hparse in Hp. now injection Hp as <-.
      * split; [apply elem_of_app; now left|]. repeat split; try assumption.
        intros v' sv' Hin Hp Ht; apply elem_of_app in Hin as [Hin|Hin%list_elem_of_singleton]; [exact (Hmax v' sv' Hin Hp Ht)|subst v'].
        rewrite Hparse in Hp. injection Hp as <-. congruence.
    + split; [apply elem_of_app; right; now apply list_elem_of_singleton|].
      repeat split; try assumption.
      intros v' sv' Hin Hp Ht; apply elem_of_app in Hin as [Hin|Hin%list_elem_of_singleton]; [|subst v'].
      * specialize (Hacc v' Hin). unfold semver.test in Hacc.
        rewrite Hp in Hacc. congruence.
      * rewrite Hparse in Hp. now injection Hp as <-.
  - (* [v] parses and does not satisfy the range *)
    destruct acc as [[m msv]|]; cbn [bestSoFar] in *.
    + destruct Hacc as (Hm & Hmp & Hmt & Hmax).
      split; [apply elem_of_app; now left|]. repeat split; try assumption.
      intros v' sv' Hin Hp Ht; apply elem_of_app in Hin as [Hin|Hin%list_elem_of_singleton]; [exact (Hmax v' sv' Hin Hp Ht)|subst v'].
      rewrite Hparse in Hp. injection Hp as <-. congruence.
    + intros v' Hin; apply elem_of_app in Hin as [Hin|Hin%list_elem_of_singleton]; [now apply Hacc|subst v'].
      unfold semver.test. now rewrite Hparse.
  - (* [v] is not a version *)
    destruct acc as [[m msv]|]; cbn [bestSoFar] in *.
    + destruct Hacc as (Hm & Hmp & Hmt & Hmax).
      split; [apply elem_of_app; now left|]. repeat split; try assumption.
      intros v' sv' Hin Hp Ht; apply elem_of_app in Hin as [Hin|Hin%list_elem_of_singleton]; [exact (Hmax v' sv' Hin Hp Ht)|subst v'].
      congruence.
    + intros v' Hin; apply elem_of_app in Hin as [Hin|Hin%list_elem_of_singleton]; [now apply Hacc|subst v'].
      unfold semver.test. now rewrite Hparse.
Qed.

Lemma fold_maxStep_bestSoFar (X Y : N) (versions : list string) :
  forall seen acc,
    bestSoFar (patchSet X Y) seen acc ->
    bestSoFar (patchSet X Y) (seen ++ versions)
      (fold_left (semver.maxStep (patchSet X Y)) versions acc).
Proof.
  induction versions as [|v versions IH]; intros seen acc Hacc.
  - now rewrite app_nil_r.
  - cbn [fold_left]. replace (seen ++ v :: versions) with ((seen ++ [v]) ++ versions)
      by now rewrite <- app_assoc.
    apply IH. now apply maxStep_bestSoFar.
Qed.

Lemma maxSatisfying_best (X Y : N) (versions : list string) :
  bestSoFar (patchSet X Y) versions
    (fold_left (semver.maxStep (patchSet X Y)) versions None).
Proof.
  apply (fold_maxStep_bestSoFar X Y versions [] None).
  intros v Hv. now apply elem_of_nil in Hv.
Qed.

Lemma existsb_test_false (set : list semver.Comparator) (versions : list string) :
  (forall v, v ∈ versions -> semver.test set v = false) <->
  existsb (semver.test set) versions = false.
Proof.
  induction versions as [|v l IH]; cbn [existsb].
  - split; [reflexivity|]. intros _ v Hv. now apply elem_of_nil in Hv.
  - rewrite orb_false_iff, <- IH. split.
    + intros H. split; [apply H; now left|]. intros x Hx. apply H. now right.
    + intros [H1 H2] x [->|Hx]%elem_of_cons; auto.
Qed.

Section PatchLookup.

Variable E : Env.

(** Whatever goes wrong with the metadata request, the caller sees
    [LatestVersionUnavailableError]. *)
Lemma registryMetadata_rejects (packageName : string) (isPatch : bool)
    (w w1 : World) (e : Error) :
  registryMetadata E packageName isPatch w = (Throws e, w1) ->
  e = LatestVersionUnavailableError packageName (getCustomRegistry E) isPatch.
Proof.
  unfold registryMetadata, tryCatch, throw.
  destruct (Js.truthy (getCustomRegistry E)).
  - destruct (get E _ _ w) as [[r|e0] w0]; intros [= <- <-]; reflexivity.
  - destruct (get E _ _ w) as [[r|e0] w0]; [discriminate|].
    destruct (get E _ _ w0) as [[r|e1] w2]; intros [= <- <-]; reflexivity.
Qed.

(** C6, as amended.  For a patch wildcard [X.Y.x]: when the registry
    answers with a version listing, [lookUpLatestPatchVersion] returns a
    version of the listing that satisfies the range, carries no
    pre-release qualifier and is not below any version of the listing
    that satisfies the range (build qualifiers neither exclude a version
    nor count in the comparison); it throws the patch-flagged
    [LatestVersionUnavailableError] when no version of the listing
    satisfies the range, when the answer has no listing and when the
    request fails. *)
Theorem C6_lookUpLatestPatchVersion (packageName version : string)
    (w : World) :
  isPatchWildcard version = true ->
  let unavailable :=
    LatestVersionUnavailableError packageName (getCustomRegistry E) true in
  (forall latest0 listing w1,
      registryMetadata E packageName true w
      = (Returns (Some (RegistryInfo latest0 (Some listing))), w1) ->
      match semver.patchRange version with
      | Some range =>
          if existsb (semver.test range) (map fst listing) then
            exists latest sv,
              lookUpLatestPatchVersion E packageName version w
              = (Returns latest, w1)
              /\ latest ∈ map fst listing
              /\ semver.parse latest = Some sv
              /\ semver.testSet range sv = true
              /\ semver.prerelease sv = []
              /\ (forall v' sv',
                     v' ∈ map fst listing ->
                     semver.parse v' = Some sv' ->
                     semver.testSet range sv' = true ->
                     semver.compare sv sv' <> Lt)
          else
            lookUpLatestPatchVersion E packageName version w
            = (Throws unavailable, w1)
      | None =>
          lookUpLatestPatchVersion E packageName version w
          = (Throws unavailable, w1)
      end)
  /\ (forall res w1,
         registryMetadata E packageName true w = (Returns res, w1) ->
         (forall latest0 listing,
             res <> Some (RegistryInfo latest0 (Some listing))) ->
         lookUpLatestPatchVersion E packageName version w
         = (Throws unavailable, w1))
  /\ (forall e w1,
         registryMetadata E packageName true w = (Throws e, w1) ->
         lookUpLatestPatchVersion E packageName version w
         = (Throws unavailable, w1)).
Proof.
  intros Hwild unavailable. unfold lookUpLatestPatchVersion.
  rewrite Hwild. cbn [negb]. unfold bind. split; [|split].
  - intros latest0 listing w1 Hreg. rewrite Hreg.
    unfold semver.maxSatisfying.
    destruct (semver.patchRange version) as [range|] eqn:Hrange; [|reflexivity].
    destruct (patchRange_patchSet _ _ Hrange) as (X & Y & ->).
    pose proof (maxSatisfying_best X Y (map fst listing)) as Hbest.
    destruct (fold_left (semver.maxStep (patchSet X Y)) (map fst listing) None)
      as [[latest sv]|]; cbn [bestSoFar] in Hbest.
    + destruct Hbest as (Hin & Hparse & Htest & Hmax).
      assert (Hex : existsb (semver.test (patchSet X Y)) (map fst listing) = true).
      { apply existsb_exists. exists latest. split; [now apply list_elem_of_In|].
        unfold semver.test. now rewrite Hparse. }
      rewrite Hex. exists latest, sv. cbn. repeat split; try assumption.
      now apply testSet_patchSet in Htest as (_ & _ & Hpre).
    + apply existsb_test_false in Hbest. rewrite Hbest. reflexivity.
  - intros res w1 Hreg Hres. rewrite Hreg.
    destruct res as [[latest0 [listing|]| | |]|]; try reflexivity.
    now destruct (Hres latest0 listing).
  - intros e w1 Hreg. rewrite Hreg.
    now rewrite (registryMetadata_rejects _ _ _ _ _ Hreg).
Qed.

End PatchLookup.

Lemma C6_witness :
  isPatchWildcard "2.0.x" = true
  /\ exists latest sv,
      lookUpLatestPatchVersion Sample.env "hl7.patches.with.snapshots" "2.0.x"
        Sample.world
      = (Returns latest,
         setRequests
           [ {| call_url := "https://packages.fhir.org/hl7.patches.with.snapshots";
                call_responseType := Some "json" |} ] Sample.world)
      /\ latest ∈ ["2.0.0"; "2.0.1"; "2.0.2-snapshot1"]
      /\ semver.parse latest = Some sv
      /\ semver.testSet (patchSet 2 0) sv = true
      /\ semver.prerelease sv = []
      /\ (forall v' sv',
             v' ∈ ["2.0.0"; "2.0.1"; "2.0.2-snapshot1"] ->
             semver.parse v' = Some sv' ->
             semver.testSet (patchSet 2 0) sv' = true ->
             semver.compare sv sv' <> Lt).
Proof.
  split; [reflexivity|].
  exact (proj1 (C6_lookUpLatestPatchVersion Sample.env
                  "hl7.patches.with.snapshots" "2.0.x" Sample.world eq_refl)
           None [("2.0.0", None); ("2.0.1", None); ("2.0.2-snapshot1", None)]
           _ eq_refl).
Defined.

(** The two resolutions that the tests of the module spell out. *)
Example lookUpLatestPatchVersion_ignores_snapshot :
  (lookUpLatestPatchVersion Sample.env "hl7.patches.with.snapshots" "2.0.x"
     Sample.world).1 = Returns "2.0.1".
Proof. vm_compute. reflexivity. Qed.

Example maxSatisfying_excludes_other_minor :
  semver.maxSatisfying ["1.2.3-test"; "1.1.0"; "1.1.2"; "1.1.1"] "1.1.x"
  = Some "1.1.2".
Proof. vm_compute. reflexivity. Qed.

(** C6 as the specification words it fails for build qualifiers: a version
    that carries one satisfies the range and is returned when it is the
    highest. *)
Lemma C6_counterexample :
  exists sv w1,
    lookUpLatestPatchVersion Sample.env "hl7.patches.with.build" "2.0.x"
      Sample.world = (Returns "2.0.1+build5", w1)
    /\ semver.parse "2.0.1+build5" = Some sv
    /\ semver.build sv <> [].
Proof.
  eexists _, _. split; [vm_compute; reflexivity|].
  split; [vm_compute; reflexivity|]. discriminate.
Qed.

(** ** Lookup in the definition store *)


Lemma firstSome_lookup {A B} (f : A -> option B) (l : list A) (i : nat)
    (x : A) (b : B) :
  l !! i = Some x -> f x = Some b ->
  (forall j y, (j < i)%nat -> l !! j = Some y -> f y = None) ->
  firstSome f l = Some b.
Proof.
  revert i. induction l as [|a l IH]; intros i Hi Hfx Hbefore; [discriminate|].
  cbn [firstSome]. destruct i as [|i].
  - injection Hi as ->. now rewrite Hfx.
  - rewrite (Hbefore 0%nat a) by (lia || reflexivity).
    apply (IH i); [exact Hi|exact Hfx|].
    intros j y Hj Hy. apply (Hbefore (S j) y); [lia|exact Hy].
Qed.




Lemma height_positive (s : FHIRDefinitions) : exists h, height s = S h.
Proof. destruct s. cbn. eauto. Qed.

Lemma height_children (s c : FHIRDefinitions) (i : nat) :
  childFHIRDefs s !! i = Some c -> exists h, height s = S (S h).
Proof.
  destruct s as [l own children f m]. cbn [childFHIRDefs height].
  revert i. induction children as [|a children IH]; intros i Hi; [discriminate|].
  cbn [fold_right]. destruct (height_positive a) as [ha ->].
  destruct (fold_right _ _ children); cbn; eauto.
Qed.

Lemma level_one (s : FHIRDefinitions) : level 1 s = childFHIRDefs s.
Proof.
  cbn [level]. induction (childFHIRDefs s) as [|c l IH]; [reflexivity|].
  cbn [flat_map app]. now rewrite IH.
Qed.

(** C5.  Against the store as the specification describes it: a match at
    the node itself is the result; failing that, the result is the match
    of the first child (in insertion order) that has one, whatever the
    grandchildren and deeper nodes hold. *)
Theorem C5_shallower_definition_wins (root : FHIRDefinitions) (item : string)
    (types : list FType) :
  let base := (splitAtLast item).1 in
  let version := (splitAtLast item).2 in
  let here := fishHere base version (requestedTypes types) in
  (forall d, here root = Some d -> fishForFHIR root item types = Some d)
  /\ (forall i child d,
         here root = None ->
         childFHIRDefs root !! i = Some child ->
         here child = Some d ->
         (forall j earlier, (j < i)%nat ->
            childFHIRDefs root !! j = Some earlier -> here earlier = None) ->
         fishForFHIR root item types = Some d).
Proof.
  intros base version here. unfold fishForFHIR.
  destruct (splitAtLast item) as [b v] eqn:Hsplit. cbn [fst snd] in *.
  subst base version. split.
  - intros d Hd. destruct (height_positive root) as [h ->].
    cbn [seq firstSome level]. fold here. now rewrite Hd.
  - intros i child d Hroot Hchild Hd Hbefore.
    destruct (height_children root child i Hchild) as [h ->].
    cbn [seq firstSome]. rewrite level_one. cbn [level firstSome]. fold here.
    rewrite Hroot. now rewrite (firstSome_lookup here _ i child d).
Qed.





Lemma C5_witness :
  fishHere "Condition" None [Resource] Sample.defsWithChildDefs = None
  /\ childFHIRDefs Sample.defsWithChildDefs !! 1%nat = Some Sample.package2
  /\ fishHere "Condition" None [Resource] Sample.package2
     = Some (Sample.condition "4.0.2")
  /\ childFHIRDefs Sample.defsWithChildDefs !! 0%nat = Some Sample.package1
  /\ childFHIRDefs Sample.package1 = [Sample.package3]
  /\ fishHere "Condition" None [Resource] Sample.package3
     = Some (Sample.condition "4.0.3")
  /\ fishForFHIR Sample.defsWithChildDefs "Condition" [Resource]
     = Some (Sample.condition "4.0.2").
Proof.
  repeat (split; [reflexivity|]).
  apply (proj2 (C5_shallower_definition_wins Sample.defsWithChildDefs
                  "Condition" [Resource]) 1%nat Sample.package2);
    try reflexivity.
  intros j earlier Hj Hearlier. destruct j as [|j]; [|lia].
  injection Hearlier as <-. reflexivity.
Defined.


(** The lookups that the tests of the store spell out for a version that
    no definition has, and for a definition without version. *)
Example fishForFHIR_version_mismatch :
  fishForFHIR Sample.r4Definitions "SimpleProfile|1.0.0" [Profile] = None
  /\ fishForFHIR Sample.r4Definitions "SimpleProfileNoVersion|1.0.0" [] = None
  /\ fishForFHIR Sample.r4Definitions "SimpleProfileNoVersion" []
     = Some Sample.simpleProfileNoVersion.
Proof. repeat split; reflexivity. Qed.

(** ** The process cache across merges *)

Lemma cacheKept_refl w : cacheKept w w.
Proof. intros k p H. exact H. Qed.

Lemma cacheKept_trans w1 w2 w3 :
  cacheKept w1 w2 -> cacheKept w2 w3 -> cacheKept w1 w3.
Proof. intros H12 H23 k p H. apply H23, H12, H. Qed.

Lemma cacheKept_same w w' : cache w' = cache w -> cacheKept w w'.
Proof. intros Heq k p H. now rewrite Heq. Qed.

Lemma keeps_ret {A} (a : A) : keeps (ret a).
Proof. intros w. apply cacheKept_refl. Qed.

Lemma keeps_throw {A} (e : Error) : keeps (@throw A e).
Proof. intros w. apply cacheKept_refl. Qed.

Lemma keeps_liftC {A} (c : Completion A) : keeps (liftC c).
Proof. intros w. apply cacheKept_refl. Qed.

Lemma keeps_log level msg : keeps (log level msg).
Proof. intros w. now apply cacheKept_same. Qed.

Lemma keeps_bind {A B} (m : M A) (k : A -> M B) :
  keeps m -> (forall a, keeps (k a)) -> keeps (bind m k).
Proof.
  intros Hm Hk w. unfold bind. specialize (Hm w).
  destruct (m w) as [[a|e] w1]; cbn [snd] in *; [|exact Hm].
  eapply cacheKept_trans; [exact Hm|apply Hk].
Qed.

Lemma keeps_tryCatch {A} (m : M A) (h : Error -> M A) :
  keeps m -> (forall e, keeps (h e)) -> keeps (tryCatch m h).
Proof.
  intros Hm Hh w. unfold tryCatch. specialize (Hm w).
  destruct (m w) as [[a|e] w1]; cbn [snd] in *; [exact Hm|].
  eapply cacheKept_trans; [exact Hm|apply Hh].
Qed.

Create HintDb keeps.

Section Kept.

Variable E : Env.


Lemma keeps_get url rt : keeps (get E url rt).
Proof. intros w. now apply cacheKept_same. Qed.

Lemma keeps_reading {A} (f : gmap string node -> Completion A) :
  keeps (reading f).
Proof. intros w. apply cacheKept_refl. Qed.

Lemma keeps_newDate : keeps (newDate E).
Proof. intros w. now apply cacheKept_same. Qed.

Lemma keeps_refreshNeeded : keeps (PackageCache_isCurrentPackageRefreshNeeded E).
Proof.
  intros w. unfold PackageCache_isCurrentPackageRefreshNeeded.
  destruct (lastCurrentUpdate w); [|apply cacheKept_refl].
  now apply cacheKept_same.
Qed.

Lemma keeps_markRefreshed : keeps (PackageCache_markCurrentPackageRefreshed E).
Proof. intros w. now apply cacheKept_same. Qed.

Lemma keeps_install cachePath full es : keeps (install E cachePath full es).
Proof.
  intros w. unfold install.
  destruct (files w !! cachePath) as [[c|root]|];
    first [apply cacheKept_refl | now apply cacheKept_same].
Qed.

Lemma keeps_loadFromPath cachePath key : keeps (loadFromPath E cachePath key).
Proof.
  intros w. unfold loadFromPath.
  destruct (cache w !! key) as [p|] eqn:Hkey; [apply cacheKept_refl|].
  destruct (readCachedPackage E (files w) cachePath key) as [[result|]|e];
    try apply cacheKept_refl.
  intros k p Hk. cbn. destruct (decide (key = k)) as [->|Hne]; [congruence|].
  now rewrite lookup_insert_ne.
Qed.

Ltac keeps_step :=
  first
    [ simple apply keeps_ret | simple apply keeps_throw
    | simple apply keeps_liftC | simple apply keeps_log
    | simple apply keeps_get | simple apply keeps_reading
    | simple apply keeps_newDate | simple apply keeps_refreshNeeded
    | simple apply keeps_markRefreshed | simple apply keeps_install
    | simple apply keeps_loadFromPath
    | solve [auto 1 with keeps nocore]
    | simple apply keeps_bind; [|intros ?]
    | simple apply keeps_tryCatch; [|intros ?]
    | match goal with
      | |- keeps (match ?x with _ => _ end) => destruct x
      | |- keeps (let _ := _ in _) => cbv zeta
      end ].

Lemma keeps_getDistUrl registry name version :
  keeps (getDistUrl E registry name version).
Proof. unfold getDistUrl. repeat keeps_step. Qed.
#[local] Hint Resolve keeps_getDistUrl : keeps.

Lemma keeps_registryMetadata name isPatch :
  keeps (registryMetadata E name isPatch).
Proof. unfold registryMetadata. repeat keeps_step. Qed.
#[local] Hint Resolve keeps_registryMetadata : keeps.

Lemma keeps_lookUpLatestVersion name : keeps (lookUpLatestVersion E name).
Proof.
  unfold lookUpLatestVersion. apply keeps_bind; [apply keeps_registryMetadata|].
  intros res. repeat keeps_step.
Qed.
#[local] Hint Resolve keeps_lookUpLatestVersion : keeps.

Lemma keeps_lookUpLatestPatchVersion name version :
  keeps (lookUpLatestPatchVersion E name version).
Proof.
  unfold lookUpLatestPatchVersion. destruct (negb _); [apply keeps_throw|].
  apply keeps_bind; [apply keeps_registryMetadata|].
  intros res. repeat keeps_step.
Qed.
#[local] Hint Resolve keeps_lookUpLatestPatchVersion : keeps.

Lemma keeps_resolveVersion name version : keeps (resolveVersion E name version).
Proof.
  unfold resolveVersion.
  destruct (String.eqb _ _); [apply keeps_lookUpLatestVersion|].
  destruct (isPatchWildcard _); [apply keeps_lookUpLatestPatchVersion|].
  destruct (isMinorWildcard _); [apply keeps_throw|apply keeps_ret].
Qed.
#[local] Hint Resolve keeps_resolveVersion : keeps.

Lemma keeps_doDownload cachePath full lp url :
  keeps (doDownload E cachePath full lp url).
Proof. unfold doDownload. repeat keeps_step. Qed.
#[local] Hint Resolve keeps_doDownload : keeps.

Lemma keeps_devFallback name version full lp cachePath :
  keeps (devFallback E name version full lp cachePath).
Proof. unfold devFallback. repeat keeps_step. Qed.
#[local] Hint Resolve keeps_devFallback : keeps.

Lemma keeps_checkCurrentBuild name version full loadPath cachePath :
  keeps (checkCurrentBuild E name version full loadPath cachePath).
Proof. unfold checkCurrentBuild. repeat keeps_step. Qed.
#[local] Hint Resolve keeps_checkCurrentBuild : keeps.

Lemma keeps_choosePackageUrl name version full loadPath lp cachePath :
  keeps (choosePackageUrl E name version full loadPath lp cachePath).
Proof.
  unfold choosePackageUrl. repeat keeps_step.
Qed.
#[local] Hint Resolve keeps_choosePackageUrl : keeps.

Lemma keeps_download name version full lp cachePath url :
  keeps (download E name version full lp cachePath url).
Proof.
  unfold download. destruct url as [url|]; [|apply keeps_ret].
  apply keeps_tryCatch; [apply keeps_doDownload|]. intros e.
  destruct (String.eqb _ _); [|apply keeps_throw].
  apply keeps_tryCatch; [apply keeps_doDownload|]. intros e'. apply keeps_throw.
Qed.
#[local] Hint Resolve keeps_download : keeps.

Lemma keeps_finish full lp store : keeps (finish E full lp store).
Proof. unfold finish. repeat keeps_step. Qed.
#[local] Hint Resolve keeps_finish : keeps.

Lemma keeps_mergeResolved name version store cachePath :
  keeps (mergeResolved E name version store cachePath).
Proof.
  unfold mergeResolved. repeat keeps_step.
Qed.
#[local] Hint Resolve keeps_mergeResolved : keeps.

Lemma keeps_mergeDependency name version store cachePath :
  keeps (mergeDependency E name version store cachePath).
Proof.
  unfold mergeDependency. apply keeps_bind; [apply keeps_resolveVersion|].
  intros v. apply keeps_mergeResolved.
Qed.
End Kept.

Lemma bind_Returns {A B} (m : M A) (k : A -> M B) (w w' : World) (b : B) :
  bind m k w = (Returns b, w') ->
  exists a w1, m w = (Returns a, w1) /\ k a w1 = (Returns b, w').
Proof.
  unfold bind. destruct (m w) as [[a|e] w1]; [|discriminate].
  intros H. now exists a, w1.
Qed.

Lemma keeps_at {A} (m : M A) (w w' : World) (r : Completion A) k p :
  keeps m -> m w = (r, w') -> cache w !! k = Some p -> cache w' !! k = Some p.
Proof. intros Hm Hrun. specialize (Hm w). rewrite Hrun in Hm. apply Hm. Qed.

Section Memoized.

Variable E : Env.


Lemma doDownload_memoized cachePath full p url w r w' :
  cache w !! full = Some p ->
  doDownload E cachePath full (Some p) url w = (Returns r, w') ->
  r = Some p.
Proof.
  intros Hp. unfold doDownload. intros H.
  apply bind_Returns in H as ([] & w1 & H1 & H).
  apply bind_Returns in H as (res & w2 & H2 & H).
  assert (Hp2 : cache w2 !! full = Some p).
  { eapply (keeps_at _ w1 w2); [apply keeps_get|exact H2|].
    eapply (keeps_at _ w w1); [apply keeps_log|exact H1|exact Hp]. }
  destruct res as [data|].
  - apply bind_Returns in H as ([] & w3 & H3 & H).
    apply bind_Returns in H as (tmp & w4 & H4 & H).
    apply bind_Returns in H as (cleaned & w5 & H5 & H).
    apply bind_Returns in H as ([] & w6 & H6 & H).
    assert (Hp6 : cache w6 !! full = Some p).
    { eapply (keeps_at _ w5 w6); [apply keeps_install|exact H6|].
      eapply (keeps_at _ w4 w5); [|exact H5|].
      { destruct (cleanCachedPackage E tmp) as [es [e|]];
          [apply keeps_throw|apply keeps_ret]. }
      eapply (keeps_at _ w3 w4); [apply keeps_liftC|exact H4|].
      eapply (keeps_at _ w2 w3); [apply keeps_log|exact H3|exact Hp2]. }
    rewrite (loadFromPath_memoized E cachePath full p w6 Hp6) in H.
    now injection H as <- _.
  - apply bind_Returns in H as ([] & w3 & H3 & H). now injection H as <- _.
Qed.

Lemma download_memoized name version full p cachePath url w r w' :
  cache w !! full = Some p ->
  download E name version full (Some p) cachePath url w = (Returns r, w') ->
  r = Some p.
Proof.
  intros Hp. unfold download. destruct url as [url|];
    [|intros H; now injection H as <- _].
  unfold tryCatch at 1.
  destruct (doDownload E cachePath full (Some p) url w) as [[r1|e] w1] eqn:H1.
  - intros [= <- <-]. eapply doDownload_memoized; eassumption.
  - destruct (String.eqb _ _); [|discriminate]. unfold tryCatch.
    destruct (doDownload E cachePath full (Some p) _ w1) as [[r2|e2] w2] eqn:H2;
      [|discriminate].
    intros [= <- <-]. eapply doDownload_memoized; [|exact H2].
    eapply (keeps_at _ w w1); [apply keeps_doDownload|exact H1|exact Hp].
Qed.

Lemma mergeResolved_memoized name version store cachePath p w s w' :
  cache w !! (name +:+ "#" +:+ version) = Some p ->
  mergeResolved E name version store cachePath w = (Returns s, w') ->
  s = merge p store.
Proof.
  intros Hp. unfold mergeResolved. intros H.
  apply bind_Returns in H as ([] & w1 & H1 & H).
  assert (Hp1 : cache w1 !! (name +:+ "#" +:+ version) = Some p).
  { eapply (keeps_at _ w w1); [apply keeps_log|exact H1|exact Hp]. }
  apply bind_Returns in H as (lp & w2 & H2 & H).
  rewrite (loadFromPath_memoized E cachePath _ p w1 Hp1) in H2.
  injection H2 as <- <-.
  apply bind_Returns in H as ([] & w3 & H3 & H).
  assert (Hp3 : cache w3 !! (name +:+ "#" +:+ version) = Some p).
  { eapply (keeps_at _ w1 w3); [apply keeps_log|exact H3|exact Hp1]. }
  apply bind_Returns in H as ([[v f] lp] & w4 & H4 & H).
  cbn [devFallback] in H4. injection H4 as <- <- <- <-.
  apply bind_Returns in H as (url & w5 & H5 & H).
  assert (Hp5 : cache w5 !! (name +:+ "#" +:+ version) = Some p).
  { eapply (keeps_at _ w3 w5); [apply keeps_choosePackageUrl|exact H5|exact Hp3]. }
  apply bind_Returns in H as (lp & w6 & H6 & H).
  apply (download_memoized _ _ _ p) in H6; [|exact Hp5]. subst lp.
  cbn [finish] in H. apply bind_Returns in H as ([] & w7 & H7 & H).
  now injection H as <- _.
Qed.
(** C9.  A memoized key stays memoized with the package first put there:
    a load of the key answers that package and changes nothing; no load
    and no merge replaces it; and a merge whose resolved key is memoized
    returns, if it returns, the given store merged with the memoized
    package, whatever was downloaded and moved into the cache directory
    in between. *)
Theorem C9_memoized_package_is_final (key : string) (p : LoadedPackage)
    (w : World) :
  cache w !! key = Some p ->
  (forall cachePath, loadFromPath E cachePath key w = (Returns (Some p), w))
  /\ (forall cachePath other,
         cache (loadFromPath E cachePath other w).2 !! key = Some p)
  /\ (forall packageName version FHIRDefs cachePath,
         cache (mergeDependency E packageName version FHIRDefs cachePath w).2
         !! key = Some p)
  /\ (forall packageName version resolved FHIRDefs cachePath w1 s w',
         resolveVersion E packageName version w = (Returns resolved, w1) ->
         key = packageName +:+ "#" +:+ resolved ->
         mergeDependency E packageName version FHIRDefs cachePath w
         = (Returns s, w') ->
         s = merge p FHIRDefs).
Proof.
  intros Hp. split; [|split; [|split]].
  - intros cachePath. now apply loadFromPath_memoized.
  - intros cachePath other. now apply keeps_loadFromPath.
  - intros packageName version FHIRDefs cachePath.
    now apply keeps_mergeDependency.
  - intros packageName version resolved FHIRDefs cachePath w1 s w' Hres -> Hrun.
    unfold mergeDependency in Hrun.
    apply bind_Returns in Hrun as (v & w2 & Hres' & Hrun).
    rewrite Hres in Hres'. injection Hres' as <- <-.
    eapply mergeResolved_memoized; [|exact Hrun].
    eapply (keeps_at _ w w1); [apply keeps_resolveVersion|exact Hres|exact Hp].
Qed.

End Memoized.

Lemma C9_witness :
  cache Sample.memoizedWorld !! "sushi-test-old#current"
  = Some Sample.stalePackage
  /\ exists s w',
      mergeDependency Sample.env "sushi-test-old" "current" newFHIRDefinitions
        "cache" Sample.memoizedWorld = (Returns s, w')
      /\ s = merge Sample.stalePackage newFHIRDefinitions
      /\ requests w'
         = [ {| call_url := "https://build.fhir.org/ig/qas.json";
                call_responseType := None |};
             {| call_url := "https://build.fhir.org/ig/sushi/sushi-test-old/branches/master/package.manifest.json";
                call_responseType := None |};
             {| call_url := "https://build.fhir.org/ig/sushi/sushi-test-old/branches/master/package.tgz";
                call_responseType := Some "arraybuffer" |} ]
      /\ existsSync (files w') "cache"
           ["sushi-test-old#current"; "package"; "StructureDefinition-fresh.json"]
         = true.
Proof.
  assert (Hmemo : cache Sample.memoizedWorld !! "sushi-test-old#current"
                  = Some Sample.stalePackage) by (vm_compute; reflexivity).
  split; [exact Hmemo|].
  eexists _, _. split; [vm_compute; reflexivity|].
  split; [|split; vm_compute; reflexivity].
  eapply (proj2 (proj2 (proj2
            (C9_memoized_package_is_final Sample.env _ _ _ Hmemo)))
            "sushi-test-old" "current" "current" newFHIRDefinitions "cache"
            Sample.memoizedWorld);
    [reflexivity|reflexivity|vm_compute; reflexivity].
Defined.


(** ** Merging a cached package *)

Section Cached.

Variable E : Env.


Lemma loadFromPath_changes_cache_only cachePath key w r w1 :
  loadFromPath E cachePath key w = (r, w1) -> w1 = setCache (cache w1) w.
Proof.
  unfold loadFromPath. destruct (cache w !! key) as [p|].
  - intros [= <- <-]. now destruct w.
  - destruct (readCachedPackage E (files w) cachePath key) as [[result|]|e];
      intros [= <- <-]; now destruct w.
Qed.

Lemma loadFromPath_logged cachePath key l w :
  loadFromPath E cachePath key (setLogged l w)
  = ((loadFromPath E cachePath key w).1,
     setLogged l (loadFromPath E cachePath key w).2).
Proof.
  unfold loadFromPath. cbn [cache files setLogged].
  destruct (cache w !! key) as [p|]; [reflexivity|].
  now destruct (readCachedPackage E (files w) cachePath key) as [[result|]|e].
Qed.

(** C1, as amended.  For a package that [loadFromPath] finds under the
    cache path and a version that is neither [latest] nor a wildcard,
    [mergeDependency] issues no request and returns the given store merged
    with that package, unless the request is one that turns to the build
    server: [current] of an R5 core package, or [current] /
    [current$branch] while the refresh of the build listing is due. *)
Theorem C1_cached_package_needs_no_network (packageName version cachePath : string)
    (FHIRDefs : FHIRDefinitions) (w w1 : World) (p : LoadedPackage) :
  String.eqb version "latest" = false ->
  isPatchWildcard version = false ->
  isMinorWildcard version = false ->
  contactsBuildServer E packageName version w = false ->
  loadFromPath E cachePath (packageName +:+ "#" +:+ version) w
  = (Returns (Some p), w1) ->
  exists w',
    mergeDependency E packageName version FHIRDefs cachePath w
    = (Returns (merge p FHIRDefs), w')
    /\ requests w' = requests w
    /\ files w' = files w.
Proof.
  intros Hlatest Hpatch Hminor Hbuild Hload.
  pose proof (loadFromPath_changes_cache_only _ _ _ _ _ Hload) as Hw1.
  unfold contactsBuildServer in Hbuild.
  apply orb_false_iff in Hbuild as [Hr5 Hcur].
  unfold mergeDependency, resolveVersion.
  rewrite Hlatest, Hpatch, Hminor.
  unfold mergeResolved, bind at 1, ret at 1.
  unfold bind at 1, log at 1.
  unfold bind at 1. rewrite loadFromPath_logged, Hload. cbn [fst snd].
  unfold bind at 1, log at 1.
  unfold bind at 1. cbn [devFallback]. unfold ret at 1.
  unfold bind at 1, choosePackageUrl. rewrite Hr5.
  destruct (isCurrentVersion version) eqn:Hcv.
  - cbn [andb] in Hcur. unfold refreshDue in Hcur.
    unfold bind at 1, PackageCache_isCurrentPackageRefreshNeeded.
    rewrite Hw1. cbn [lastCurrentUpdate setLogged setCache].
    destruct (lastCurrentUpdate w) as [last|] eqn:Hlast; [|discriminate].
    unfold bind at 1, newDate, ret at 1.
    cbn [clockReads setLogged setCache]. rewrite Hcur.
    eexists. split; [reflexivity|]. split; reflexivity.
  - eexists. split; [reflexivity|]. rewrite Hw1. split; reflexivity.
Qed.
End Cached.

Lemma C1_witness :
  String.eqb "0.1.0" "latest" = false
  /\ isPatchWildcard "0.1.0" = false
  /\ isMinorWildcard "0.1.0" = false
  /\ contactsBuildServer Sample.env "sushi-test" "0.1.0" Sample.world = false
  /\ exists p w1 w',
      loadFromPath Sample.env "cache" "sushi-test#0.1.0" Sample.world
      = (Returns (Some p), w1)
      /\ mergeDependency Sample.env "sushi-test" "0.1.0" newFHIRDefinitions
           "cache" Sample.world
         = (Returns (merge p newFHIRDefinitions), w')
      /\ requests w' = requests Sample.world
      /\ files w' = files Sample.world.
Proof.
  repeat (split; [reflexivity|]).
  eexists _, _.
  assert (Hload : loadFromPath Sample.env "cache" "sushi-test#0.1.0" Sample.world
                  = (Returns (Some {| package := "sushi-test#0.1.0";
                                      defs := [Sample.parsed "20180101000000"];
                                      packageJson :=
                                        Some (Sample.parsed "20180101000000") |}),
                     setCache (<["sushi-test#0.1.0" :=
                                  {| package := "sushi-test#0.1.0";
                                     defs := [Sample.parsed "20180101000000"];
                                     packageJson :=
                                       Some (Sample.parsed "20180101000000") |}]>
                                 (cache Sample.world)) Sample.world))
    by reflexivity.
  destruct (C1_cached_package_needs_no_network Sample.env "sushi-test" "0.1.0"
              "cache" newFHIRDefinitions Sample.world _ _
              eq_refl eq_refl eq_refl eq_refl Hload) as (w' & Hrun & Hreq & Hfiles).
  exists w'. split; [exact Hload|]. split; [exact Hrun|]. split; assumption.
Defined.

(** C1 as the specification words it fails for [current]: with the package
    in the cache and up to date, the merge still asks the build server for
    its listing and for the manifest of the build. *)
Lemma C1_counterexample :
  (exists p w1,
      loadFromPath Sample.env "cache" "sushi-test#current" Sample.world
      = (Returns (Some p), w1))
  /\ requests (mergeDependency Sample.env "sushi-test" "current"
                 newFHIRDefinitions "cache" Sample.world).2
     = [ {| call_url := "https://build.fhir.org/ig/qas.json";
            call_responseType := None |};
         {| call_url := "https://build.fhir.org/ig/sushi/sushi-test/branches/master/package.manifest.json";
            call_responseType := None |} ].
Proof.
  split; [eexists _, _; vm_compute; reflexivity|]. vm_compute. reflexivity.
Qed.

(** * Further properties of the load module *)

(** ** [formatDate] *)

Lemma takeDigits_counts (n : nat) : forall s d r,
  takeDigits n s = Some (d, r) -> (n <= digitCount s)%nat.
Proof.
  induction n as [|n IH]; intros s d r H; [lia|].
  destruct s as [|c s]; [discriminate|]. cbn in H |- *.
  destruct (Js.isDigit c); [|discriminate].
  destruct (takeDigits n s) as [[d' r']|] eqn:Ht; [|discriminate].
  apply IH in Ht. lia.
Qed.

Lemma replaceFirstStamp_few_digits (s : string) :
  (digitCount s < 14)%nat -> replaceFirstStamp s = s.
Proof.
  induction s as [|c s IH]; intros H; [reflexivity|].
  cbn [replaceFirstStamp].
  destruct (takeDigits 14 (String c s)) as [[d r]|] eqn:Ht.
  - apply takeDigits_counts in Ht. lia.
  - f_equal. apply IH. cbn in H. lia.
Qed.

(** X1.  A date with fewer than fourteen digits in all holds no stamp to
    rewrite: [formatDate] returns it as it is. *)
Theorem formatDate_keeps_text_without_stamp (date : string) :
  (digitCount date < 14)%nat -> formatDate (Some date) = date.
Proof.
  intros H. unfold formatDate. destruct date as [|c s]; [reflexivity|].
  cbn [Js.nonEmpty String.eqb negb]. now apply replaceFirstStamp_few_digits.
Qed.

Lemma formatDate_keeps_text_without_stamp_witness :
  (digitCount "2020-04-13" < 14)%nat /\ formatDate (Some "2020-04-13") = "2020-04-13".
Proof.
  split; [vm_compute; lia|].
  apply (formatDate_keeps_text_without_stamp "2020-04-13"). vm_compute. lia.
Defined.

Lemma digits_S_inv (n : nat) (s : string) :
  digits (S n) s = true ->
  exists c s', s = String c s' /\ Js.isDigit c = true /\ digits n s' = true.
Proof.
  destruct s as [|c s']; [discriminate|]. cbn [digits].
  intros [Hc Hs]%andb_prop. now exists c, s'.
Qed.

Lemma digits_0_inv (s : string) : digits 0 s = true -> s = "".
Proof. now destruct s. Qed.

Ltac explode_digits H :=
  repeat (let c := fresh "c" in
          let s' := fresh "s" in
          let Hc := fresh "Hc" in
          apply digits_S_inv in H as (c & s' & -> & Hc & H));
  apply digits_0_inv in H as ->.

(** X2.  A stamp [YYYYMMDDHHmmss] at the start of the date is rewritten to
    [YYYY-MM-DDTHH:mm:ss]; what follows the stamp is kept. *)
Theorem formatDate_rewrites_stamp (Y M D h m s rest : string) :
  digits 4 Y = true -> digits 2 M = true -> digits 2 D = true ->
  digits 2 h = true -> digits 2 m = true -> digits 2 s = true ->
  formatDate (Some (Y +:+ M +:+ D +:+ h +:+ m +:+ s +:+ rest))
  = Y +:+ "-" +:+ M +:+ "-" +:+ D +:+ "T" +:+ h +:+ ":" +:+ m +:+ ":" +:+ s
    +:+ rest.
Proof.
  intros HY HM HD Hh Hm Hs.
  explode_digits HY. explode_digits HM. explode_digits HD.
  explode_digits Hh. explode_digits Hm. explode_digits Hs.
  cbv [String.append formatDate Js.nonEmpty String.eqb negb replaceFirstStamp
       takeDigits].
  repeat match goal with
         | Hd : Js.isDigit _ = true |- _ => rewrite Hd; clear Hd
         end.
  reflexivity.
Qed.

Lemma formatDate_rewrites_stamp_witness :
  formatDate (Some "20200413230227+0000") = "2020-04-13T23:02:27+0000".
Proof.
  apply (formatDate_rewrites_stamp "2020" "04" "13" "23" "02" "27" "+0000");
    reflexivity.
Defined.

(** ** The version patterns *)

Lemma minor_wildcard_is_no_patch_wildcard (version : string) :
  isMinorWildcard version = true ->
  String.eqb version "latest" = false /\ isPatchWildcard version = false.
Proof.
  unfold isMinorWildcard, isPatchWildcard.
  destruct (Js.spanDigits version) as [a r1] eqn:Hspan.
  intros [Ha Hr]%andb_prop. apply String.eqb_eq in Hr as ->. split.
  - destruct (String.eqb version "latest") eqn:Heq; [|reflexivity].
    apply String.eqb_eq in Heq as ->. cbn in Hspan.
    injection Hspan as <- _. discriminate Ha.
  - rewrite Ha. reflexivity.
Qed.

Section Wildcards.

Variable E : Env.

(** X3.  A minor wildcard [X.x] is refused at once: [mergeDependency] throws
    [IncorrectWildcardVersionFormatError] before it logs, looks into the
    cache or asks a registry. *)
Theorem mergeDependency_refuses_minor_wildcard (packageName version : string)
    (FHIRDefs : FHIRDefinitions) (cachePath : string) (w : World) :
  isMinorWildcard version = true ->
  mergeDependency E packageName version FHIRDefs cachePath w
  = (Throws (IncorrectWildcardVersionFormatError packageName version), w).
Proof.
  intros H. destruct (minor_wildcard_is_no_patch_wildcard _ H) as [Hl Hp].
  unfold mergeDependency, resolveVersion. now rewrite Hl, Hp, H.
Qed.

End Wildcards.

Lemma mergeDependency_refuses_minor_wildcard_witness :
  mergeDependency Sample.env "sushi-test" "0.x" newFHIRDefinitions "cache"
    Sample.world
  = (Throws (IncorrectWildcardVersionFormatError "sushi-test" "0.x"),
     Sample.world).
Proof.
  apply (mergeDependency_refuses_minor_wildcard Sample.env). reflexivity.
Defined.

(** ** Requests on the command line *)

Lemma replaceFirst_at_separator (old new : ascii) (a b : string) :
  without old a = true ->
  replaceFirst old new (a +:+ String old b) = a +:+ String new b.
Proof.
  induction a as [|c a IH]; intros H.
  - change (replaceFirst old new (String old b) = String new b).
    cbn [replaceFirst]. now rewrite Ascii.eqb_refl.
  - cbn [without] in H. apply andb_prop in H as [Hc Ha].
    change (replaceFirst old new (String c (a +:+ String old b))
            = String c (a +:+ String new b)).
    cbn [replaceFirst]. apply negb_true_iff in Hc. rewrite Hc.
    now rewrite IH.
Qed.

Lemma split_without (sep : ascii) (s : string) :
  without sep s = true -> Js.split sep s = [s].
Proof.
  induction s as [|c s IH]; intros H; [reflexivity|].
  cbn [without] in H. apply andb_prop in H as [Hc Hs].
  cbn [Js.split]. apply negb_true_iff in Hc. now rewrite Hc, IH.
Qed.

Lemma split_at_separator (sep : ascii) (a b : string) :
  without sep a = true ->
  Js.split sep (a +:+ String sep b) = a :: Js.split sep b.
Proof.
  induction a as [|c a IH]; intros H.
  - change (Js.split sep (String sep b) = "" :: Js.split sep b).
    cbn [Js.split]. now rewrite Ascii.eqb_refl.
  - cbn [without] in H. apply andb_prop in H as [Hc Ha].
    change (Js.split sep (String c (a +:+ String sep b))
            = String c a :: Js.split sep b).
    cbn [Js.split]. apply negb_true_iff in Hc. now rewrite Hc, IH.
Qed.

(** X4.  The command line takes [packageId@version] for
    [packageId#version]: [app.ts] turns the first [@] of an argument into
    [#], and at [#] [loadDependencies] divides a request into package id
    and version. *)
Theorem cli_argument_names_package_and_version (packageId version : string) :
  without "@" packageId = true ->
  without "#" packageId = true ->
  without "#" version = true ->
  cliPackages [packageId +:+ "@" +:+ version]
  = [packageId +:+ "#" +:+ version]
  /\ requestId (packageId +:+ "#" +:+ version) = packageId
  /\ requestVersion (packageId +:+ "#" +:+ version) = Some version.
Proof.
  intros Hat Hid Hv. unfold cliPackages, requestId, requestVersion.
  cbn [map]. change ("@" +:+ version) with (String "@" version).
  change ("#" +:+ version) with (String "#" version).
  rewrite replaceFirst_at_separator, split_at_separator, split_without
    by assumption.
  repeat split.
Qed.

Lemma cli_argument_names_package_and_version_witness :
  cliPackages ["hl7.fhir.us.core@4.0.0"] = ["hl7.fhir.us.core#4.0.0"]
  /\ requestId "hl7.fhir.us.core#4.0.0" = "hl7.fhir.us.core"
  /\ requestVersion "hl7.fhir.us.core#4.0.0" = Some "4.0.0".
Proof.
  apply (cli_argument_names_package_and_version "hl7.fhir.us.core" "4.0.0");
    reflexivity.
Defined.

(** ** The registry *)

Lemma length_append (a b : string) :
  String.length (a +:+ b) = (String.length a + String.length b)%nat.
Proof.
  induction a as [|c a IH]; [reflexivity|].
  change (S (String.length (a +:+ b)) = S (String.length a + String.length b)).
  now rewrite IH.
Qed.

Lemma substring_suffix (a b : string) :
  String.substring (String.length a) (String.length b) (a +:+ b) = b.
Proof.
  induction a as [|c a IH].
  - change (String.substring 0 (String.length b) b = b).
    induction b as [|c b IHb]; [reflexivity|]. cbn. now rewrite IHb.
  - exact IH.
Qed.

Lemma substring_prefix (a b : string) :
  String.substring 0 (String.length a) (a +:+ b) = a.
Proof.
  induction a as [|c a IH]; [now destruct b|].
  change (String c (String.substring 0 (String.length a) (a +:+ b)) = String c a).
  now rewrite IH.
Qed.

Lemma stripTrailingSlash_slash (registry : string) :
  stripTrailingSlash (registry +:+ "/") = registry.
Proof.
  assert (Hend : Js.endsWith (registry +:+ "/") "/" = true).
  { unfold Js.endsWith. rewrite length_append.
    replace (String.length registry + String.length "/" - String.length "/")%nat
      with (String.length registry) by lia.
    rewrite substring_suffix. cbn [String.length].
    replace (1 <=? String.length registry + 1)%nat with true
      by (symmetry; apply Nat.leb_le; lia).
    reflexivity. }
  unfold stripTrailingSlash. rewrite Hend. unfold Js.dropLast.
  rewrite length_append. cbn [String.length].
  replace (String.length registry + 1 - 1)%nat with (String.length registry)
    by lia.
  apply substring_prefix.
Qed.

Section Registry.

Variable E : Env.

(** X5.  A registry address is taken with or without its final slash:
    [getDistUrl] asks the same URL and returns the same location. *)
Theorem getDistUrl_ignores_trailing_slash (registry packageName version : string)
    (w : World) :
  Js.endsWith registry "/" = false ->
  getDistUrl E (registry +:+ "/") packageName version w
  = getDistUrl E registry packageName version w.
Proof.
  intros H. unfold getDistUrl. rewrite stripTrailingSlash_slash.
  assert (Hs : stripTrailingSlash registry = registry)
    by (unfold stripTrailingSlash; now rewrite H).
  now rewrite Hs.
Qed.

Lemma registryMetadata_requests (packageName : string) (isPatch : bool)
    (w : World) :
  let w' := (registryMetadata E packageName isPatch w).2 in
  w' = setRequests (requests w') w
  /\ exists calls,
      requests w' = requests w ++ calls
      /\ (1 <= length calls <= 2)%nat
      /\ Forall (fun c => call_responseType c = Some "json") calls.
Proof.
  unfold registryMetadata, tryCatch, get, throw.
  destruct (Js.truthy (getCustomRegistry E)).
  - match goal with
    | |- context [axiosGet E ?rs ?c] => destruct (axiosGet E rs c)
    end; cbn; (split; [now destruct w|]); eexists [_];
      (split; [reflexivity|]); (split; [cbn; lia|]); now repeat constructor.
  - match goal with
    | |- context [axiosGet E ?rs ?c] => destruct (axiosGet E rs c)
    end; cbn [setRequests requests].
    + cbn. (split; [now destruct w|]); eexists [_];
        (split; [reflexivity|]); (split; [cbn; lia|]); now repeat constructor.
    + match goal with
      | |- context [axiosGet E ?rs ?c] => destruct (axiosGet E rs c)
      end; cbn; (split; [now destruct w|]); eexists [_; _];
        rewrite <- app_assoc; (split; [reflexivity|]); (split; [cbn; lia|]);
        now repeat constructor.
Qed.

(** X6.  [lookUpLatestVersion] either returns a version that is not empty or
    throws [LatestVersionUnavailableError] for the package and the custom
    registry in force, and no other error; it sends one or two requests,
    each for JSON, and leaves the disk and the process cache as they
    were. *)
Theorem lookUpLatestVersion_outcome (packageName : string) (w : World) :
  let (r, w') := lookUpLatestVersion E packageName w in
  match r with
  | Returns latest => latest <> ""
  | Throws e =>
      e = LatestVersionUnavailableError packageName (FPL_REGISTRY E) false
  end
  /\ (exists calls,
        requests w' = requests w ++ calls
        /\ (1 <= length calls <= 2)%nat
        /\ Forall (fun c => call_responseType c = Some "json") calls)
  /\ files w' = files w /\ cache w' = cache w.
Proof.
  pose proof (registryMetadata_requests packageName false w) as [Hw Hcalls].
  pose proof (registryMetadata_rejects E packageName false w) as Hrej.
  unfold lookUpLatestVersion, bind.
  destruct (registryMetadata E packageName false w) as [[res|e] w1];
    cbn [snd] in Hw, Hcalls.
  - assert (Hrest : (exists calls,
                        requests w1 = requests w ++ calls
                        /\ (1 <= length calls <= 2)%nat
                        /\ Forall (fun c => call_responseType c = Some "json") calls)
                    /\ files w1 = files w /\ cache w1 = cache w)
      by (split; [exact Hcalls|rewrite Hw; repeat split]).
    destruct res as [[[latest|] versions| | |]|];
      try (split; [reflexivity|exact Hrest]).
    destruct (Js.nonEmpty latest) eqn:Hne;
      (split; [|exact Hrest]); [|reflexivity].
    intros ->. discriminate Hne.
  - split; [exact (Hrej w1 e eq_refl)|].
    split; [exact Hcalls|]. rewrite Hw. repeat split.
Qed.

Lemma truthy_Some (s : string) : s <> "" -> Js.truthy (Some s) = true.
Proof. now destruct s. Qed.

(** X7.  With a custom registry set, both look-ups ask that registry and no
    other: one request, to the address without its final slash, also when
    the request fails. *)
Theorem custom_registry_is_the_only_one_asked (registry packageName version : string)
    (w : World) :
  FPL_REGISTRY E = Some registry ->
  registry <> "" ->
  requests (lookUpLatestVersion E packageName w).2
  = requests w ++ [metadataCall (stripTrailingSlash registry) packageName]
  /\ (isPatchWildcard version = true ->
      requests (lookUpLatestPatchVersion E packageName version w).2
      = requests w ++ [metadataCall (stripTrailingSlash registry) packageName]).
Proof.
  intros Hreg Hne. apply truthy_Some in Hne.
  assert (Hmeta : forall isPatch,
             requests (registryMetadata E packageName isPatch w).2
             = requests w ++ [metadataCall (stripTrailingSlash registry) packageName]
             /\ forall res w1,
                 registryMetadata E packageName isPatch w = (Returns res, w1) ->
                 requests w1
                 = requests w ++ [metadataCall (stripTrailingSlash registry) packageName]).
  { intros isPatch.
    unfold registryMetadata, getCustomRegistry, tryCatch, get, throw.
    rewrite Hreg, Hne. cbn [default].
    match goal with
    | |- context [axiosGet E ?rs ?c] => destruct (axiosGet E rs c) as [res|e0]
    end; (split; [reflexivity|]); intros res' w1 [= <- <-]; reflexivity. }
  split.
  - destruct (Hmeta false) as [Hall Hret].
    unfold lookUpLatestVersion, bind.
    destruct (registryMetadata E packageName false w) as [[res|e] w1] eqn:Hrun;
      [|exact Hall].
    specialize (Hret res w1 eq_refl).
    destruct res as [[[latest|] versions| | |]|];
      try destruct (Js.nonEmpty latest); exact Hret.
  - intros Hwild. destruct (Hmeta true) as [Hall Hret].
    unfold lookUpLatestPatchVersion, bind. rewrite Hwild. cbn [negb].
    destruct (registryMetadata E packageName true w) as [[res|e] w1] eqn:Hrun;
      [|exact Hall].
    specialize (Hret res w1 eq_refl).
    destruct res as [[latest [listing|]| | |]|]; try exact Hret.
    destruct (semver.maxSatisfying _ _); exact Hret.
Qed.

(** X8.  Without a custom registry, a request to [packages.fhir.org] that
    fails is followed by one to [packages2.fhir.org], whose answer then
    decides. *)
Theorem lookUpLatestVersion_falls_back_to_second_registry
    (packageName latest : string) (versions : option (list (string * option string)))
    (e : Error) (w : World) :
  Js.truthy (FPL_REGISTRY E) = false ->
  axiosGet E (requests w) (metadataCall "https://packages.fhir.org" packageName)
  = Throws e ->
  axiosGet E
    (requests w ++ [metadataCall "https://packages.fhir.org" packageName])
    (metadataCall "https://packages2.fhir.org/packages" packageName)
  = Returns (Some (RegistryInfo (Some latest) versions)) ->
  latest <> "" ->
  lookUpLatestVersion E packageName w
  = (Returns latest,
     setRequests
       (requests w
        ++ [metadataCall "https://packages.fhir.org" packageName;
            metadataCall "https://packages2.fhir.org/packages" packageName]) w).
Proof.
  intros Hreg Hfirst Hsecond Hne.
  unfold lookUpLatestVersion, registryMetadata, getCustomRegistry, bind,
    tryCatch, get.
  rewrite Hreg.
  change {| call_url := "https://packages.fhir.org/" +:+ packageName;
            call_responseType := Some "json" |}
    with (metadataCall "https://packages.fhir.org" packageName).
  rewrite Hfirst. cbn [requests setRequests].
  change {| call_url := "https://packages2.fhir.org/packages/" +:+ packageName;
            call_responseType := Some "json" |}
    with (metadataCall "https://packages2.fhir.org/packages" packageName).
  rewrite Hsecond.
  replace (Js.nonEmpty latest) with true by (now destruct latest).
  unfold ret, setRequests. cbn. now rewrite <- app_assoc.
Qed.

End Registry.

Lemma getDistUrl_ignores_trailing_slash_witness :
  getDistUrl Custom.env "https://custom-registry.example.org/" "good-tarball"
    "1.0.0" Sample.world
  = getDistUrl Custom.env "https://custom-registry.example.org" "good-tarball"
      "1.0.0" Sample.world.
Proof.
  apply (getDistUrl_ignores_trailing_slash Custom.env
           "https://custom-registry.example.org").
  reflexivity.
Defined.

Lemma custom_registry_is_the_only_one_asked_witness :
  requests (lookUpLatestVersion Custom.env "good-tarball" Sample.world).2
  = [metadataCall "https://custom-registry.example.org" "good-tarball"]
  /\ requests
       (lookUpLatestPatchVersion Custom.env "good-tarball" "1.0.x" Sample.world).2
     = [metadataCall "https://custom-registry.example.org" "good-tarball"].
Proof.
  destruct (custom_registry_is_the_only_one_asked Custom.env Custom.registry
              "good-tarball" "1.0.x" Sample.world eq_refl) as [H1 H2];
    [discriminate|].
  split; [exact H1|]. apply H2. reflexivity.
Defined.

Lemma lookUpLatestVersion_falls_back_to_second_registry_witness :
  (lookUpLatestVersion Custom.secondRegistryOnly "hl7.fhir.r4b.core"
     Sample.world).1
  = Returns "4.3.0".
Proof.
  rewrite (lookUpLatestVersion_falls_back_to_second_registry
             Custom.secondRegistryOnly "hl7.fhir.r4b.core" "4.3.0" None
             (OtherError "Not found") Sample.world);
    first [reflexivity | discriminate].
Defined.

(** ** [loadFromPath] *)

Section FromPath.

Variable E : Env.

Lemma readDefs_reads (fs : gmap string node) (root : string) (dir : list string)
    (todo : list string) : forall (acc p : LoadedPackage),
  readDefs E fs root dir todo acc = Returns p ->
  package p = package acc
  /\ exists new,
      defs p = defs acc ++ new
      /\ Forall2 (fun file def =>
                    exists text,
                      readFileSync E fs root (dir ++ [file]) = Returns text
                      /\ JSON_parse E text = Returns def) todo new
      /\ ("package.json" ∉ todo -> packageJson p = packageJson acc)
      /\ ("package.json" ∈ todo ->
          exists json, packageJson p = Some json /\ json ∈ new).
Proof.
  induction todo as [|file rest IH]; intros acc p H.
  - injection H as <-. split; [reflexivity|]. exists [].
    rewrite app_nil_r. repeat split; [constructor|].
    intros Hin. now apply elem_of_nil in Hin.
  - cbn [readDefs] in H. unfold andThen in H.
    destruct (readFileSync E fs root (dir ++ [file])) as [text|e] eqn:Hread;
      [|discriminate].
    destruct (JSON_parse E text) as [def|e] eqn:Hparse; [|discriminate].
    apply IH in H as (Hpkg & new & Hdefs & Hall & Hnone & Hsome).
    cbn [package defs packageJson] in *.
    split; [exact Hpkg|]. exists (def :: new).
    split; [now rewrite Hdefs, <- app_assoc|].
    split; [constructor; [now exists text|exact Hall]|].
    split.
    + intros Hnot. rewrite Hnone.
      * destruct (String.eqb file "package.json") eqn:Heq; [|reflexivity].
        apply String.eqb_eq in Heq as ->. destruct Hnot. now left.
      * intros Hin. apply Hnot. now right.
    + intros Hin. destruct (decide ("package.json" ∈ rest)) as [Hr|Hr].
      * destruct (Hsome Hr) as (json & Hj & Hjin). exists json.
        split; [exact Hj|now right].
      * rewrite (Hnone Hr). apply elem_of_cons in Hin as [<-|Hin]; [|easy].
        cbn. exists def. split; [reflexivity|now left].
Qed.

(** X9.  When the key is not memoized, [loadFromPath] answers [null], and
    changes nothing, exactly if no directory of the cache root has a name
    that is the key once lower-cased; a cache root that does not exist
    counts as empty. *)
Theorem loadFromPath_null_iff_no_directory_stands_for_key
    (cachePath key : string) (w : World) :
  cache w !! key = None ->
  (files w !! cachePath = None ->
   loadFromPath E cachePath key w = (Returns None, w))
  /\ (forall root,
        files w !! cachePath = Some (Dir root) ->
        loadFromPath E cachePath key w = (Returns None, w)
        <-> forall packageName,
              packageName ∈ names root -> Js.toLowerCase packageName <> key).
Proof.
  intros Hmiss. unfold loadFromPath. rewrite Hmiss.
  unfold readCachedPackage, existsSync, readdirSync. split.
  - intros ->. reflexivity.
  - intros root ->. cbn [resolve andThen].
    destruct (find _ (names root)) as [dirName|] eqn:Hfind.
    + apply find_some in Hfind as [Hin Heq]. apply String.eqb_eq in Heq.
      split.
      * intros Hrun. exfalso. revert Hrun.
        destruct (lookupEntry dirName root) as [c|]; cbn;
          [|discriminate].
        destruct c as [content|es]; cbn; [discriminate|].
        destruct (lookupEntry "package" es) as [[content|pk]|]; cbn;
          try discriminate.
        match goal with
        | |- context [readDefs ?a ?b ?c ?d ?e ?f] =>
            destruct (readDefs a b c d e f)
        end; cbn; discriminate.
      * intros Hnone. destruct (Hnone dirName); [|exact Heq].
        now apply list_elem_of_In.
    + split; [|reflexivity]. intros _ packageName Hin Heq.
      apply list_elem_of_In in Hin.
      eapply find_none in Hfind; [|exact Hin]. cbn in Hfind.
      apply String.eqb_neq in Hfind. contradiction.
Qed.

(** X10.  What a load from the disk yields: a package named by the key asked
    for, not by the directory; one definition per file of the package
    folder whose name ends in [.json], each the parsed content of its
    file, in listing order; [packageJson] exactly if one of them is named
    [package.json]; and the package is memoized under the key, nothing
    else changing. *)
Theorem loadFromPath_reads_the_json_files (cachePath key : string)
    (p : LoadedPackage) (w w' : World) :
  cache w !! key = None ->
  loadFromPath E cachePath key w = (Returns (Some p), w') ->
  package p = key
  /\ w' = setCache (<[key := p]> (cache w)) w
  /\ exists packages dirName listing,
      readdirSync E (files w) cachePath [] = Returns packages
      /\ find (standsFor key) packages = Some dirName
      /\ readdirSync E (files w) cachePath [dirName; "package"] = Returns listing
      /\ Forall2 (fun file def =>
                    exists text,
                      readFileSync E (files w) cachePath
                        [dirName; "package"; file] = Returns text
                      /\ JSON_parse E text = Returns def)
           (jsonFiles listing) (defs p)
      /\ (packageJson p = None <-> "package.json" ∉ listing)
      /\ (forall json, packageJson p = Some json -> json ∈ defs p).
Proof.
  intros Hmiss. unfold loadFromPath. rewrite Hmiss.
  destruct (readCachedPackage E (files w) cachePath key) as [[result|]|e] eqn:Hrun;
    try discriminate.
  intros [= -> <-]. unfold readCachedPackage, andThen in Hrun.
  destruct (existsSync (files w) cachePath []) eqn:Hex.
  2:{ cbn in Hrun. discriminate. }
  destruct (readdirSync E (files w) cachePath []) as [packages|e] eqn:Hroot;
    [|discriminate].
  fold (standsFor key) in Hrun.
  destruct (find (standsFor key) packages) as [dirName|] eqn:Hfind;
    [|discriminate].
  destruct (readdirSync E (files w) cachePath [dirName; "package"])
    as [listing|e] eqn:Hlist; [|discriminate].
  fold (jsonFiles listing) in Hrun.
  destruct (readDefs E (files w) cachePath [dirName; "package"]
              (jsonFiles listing) _) as [result|e] eqn:Hdefs; [|discriminate].
  injection Hrun as ->.
  apply readDefs_reads in Hdefs as (Hpkg & new & Hnew & Hall & Hnone & Hsome).
  cbn [package defs packageJson app] in *. subst new.
  assert (Hjson : "package.json" ∈ jsonFiles listing <-> "package.json" ∈ listing).
  { unfold jsonFiles. rewrite list_elem_of_filter. split; [now intros [_ ?]|].
    intros Hin. split; [reflexivity|exact Hin]. }
  split; [exact Hpkg|]. split; [reflexivity|].
  exists packages, dirName, listing. repeat split; try assumption.
  - intros Hp Hin. apply Hjson, Hsome in Hin as (json & Hj & _). congruence.
  - intros Hnot. apply Hnone. now rewrite Hjson.
  - intros json Hj. destruct (decide ("package.json" ∈ jsonFiles listing)) as [Hin|Hin].
    + destruct (Hsome Hin) as (json' & Hj' & Hjin). congruence.
    + rewrite (Hnone Hin) in Hj. discriminate.
Qed.

(** X11.  A directory that stands for the key but has no [package] folder
    makes [loadFromPath] throw the error of [readdirSync]; nothing is
    memoized. *)
Theorem loadFromPath_throws_without_package_folder
    (cachePath key dirName : string) (root es : entries_t) (w : World) :
  cache w !! key = None ->
  files w !! cachePath = Some (Dir root) ->
  find (standsFor key) (names root) = Some dirName ->
  lookupEntry dirName root = Some (Dir es) ->
  lookupEntry "package" es = None ->
  loadFromPath E cachePath key w
  = (Throws (fsError E "ENOENT" [cachePath; dirName; "package"]), w).
Proof.
  intros Hmiss Hroot Hfind Hdir Hpk. unfold loadFromPath. rewrite Hmiss.
  unfold readCachedPackage, existsSync, readdirSync. rewrite Hroot.
  cbn [resolve andThen]. fold (standsFor key). rewrite Hfind.
  now rewrite Hdir, Hpk.
Qed.

End FromPath.

Lemma loadFromPath_null_iff_witness :
  loadFromPath Sample.env "cache" "sushi-test#9.9.9" Sample.world
  = (Returns None, Sample.world)
  <-> forall packageName,
        packageName ∈ names Sample.cacheRoot ->
        Js.toLowerCase packageName <> "sushi-test#9.9.9".
Proof.
  apply (loadFromPath_null_iff_no_directory_stands_for_key Sample.env "cache"
           "sushi-test#9.9.9" Sample.world); reflexivity.
Defined.

Lemma loadFromPath_reads_the_json_files_witness :
  package capsPackage = "sushi-test-caps#0.1.0"
  /\ (loadFromPath Sample.env "cache" "sushi-test-caps#0.1.0" Sample.world).2
     = setCache (<["sushi-test-caps#0.1.0" := capsPackage]> (cache Sample.world))
         Sample.world.
Proof.
  assert (Hrun : loadFromPath Sample.env "cache" "sushi-test-caps#0.1.0"
                   Sample.world
                 = (Returns (Some capsPackage),
                    (loadFromPath Sample.env "cache" "sushi-test-caps#0.1.0"
                       Sample.world).2))
    by (vm_compute; reflexivity).
  destruct (loadFromPath_reads_the_json_files Sample.env "cache"
              "sushi-test-caps#0.1.0" capsPackage Sample.world _ eq_refl Hrun)
    as (Hp & Hw & _).
  split; [exact Hp|exact Hw].
Defined.

Lemma loadFromPath_throws_without_package_folder_witness :
  loadFromPath Sample.env "cache" "sushi-test#0.2.0" incompleteWorld
  = (Throws (OtherError "ENOENT"), incompleteWorld).
Proof.
  apply (loadFromPath_throws_without_package_folder Sample.env "cache"
           "sushi-test#0.2.0" "sushi-test#0.2.0"
           [("sushi-test#0.2.0", Dir [("package.json", File "misplaced")])]
           [("package.json", File "misplaced")]); reflexivity.
Defined.

(** ** The newest build of a [current] package *)

Section NewestBuild.

Variable E : Env.

Lemma insertSorted_elements cmp x l q :
  q ∈ insertSorted cmp x l <-> q = x \/ q ∈ l.
Proof.
  induction l as [|y l IH]; cbn [insertSorted].
  - rewrite list_elem_of_singleton. split; [now left|].
    intros [->|H]; [reflexivity|now apply elem_of_nil in H].
  - destruct (cmp x y <=? 0)%Z.
    + now rewrite elem_of_cons.
    + rewrite !elem_of_cons, IH. tauto.
Qed.

Lemma sort_elements cmp l q : q ∈ sort cmp l <-> q ∈ l.
Proof.
  induction l as [|x l IH]; [reflexivity|].
  change (sort cmp (x :: l)) with (insertSorted cmp x (sort cmp l)).
  now rewrite insertSorted_elements, elem_of_cons, IH.
Qed.

Lemma head_insertSorted cmp x l :
  head (insertSorted cmp x l)
  = Some (match l with
          | [] => x
          | y :: _ => if (cmp x y <=? 0)%Z then x else y
          end).
Proof. destruct l as [|y l]; [reflexivity|]. cbn. now destruct (_ <=? _)%Z. Qed.

(** The first entry after sorting with a comparator that subtracts keys
    in descending order carries the greatest key. *)
Lemma head_sort_greatest (key : QAEntry -> Z) cmp l m :
  (forall x y, x ∈ l -> y ∈ l -> cmp x y = (key y - key x)%Z) ->
  head (sort cmp l) = Some m ->
  forall q, q ∈ l -> (key q <= key m)%Z.
Proof.
  revert m. induction l as [|x l IH]; intros m Hcmp Hhead q Hq.
  - now apply elem_of_nil in Hq.
  - change (sort cmp (x :: l)) with (insertSorted cmp x (sort cmp l)) in Hhead.
    rewrite head_insertSorted in Hhead. injection Hhead as Hm.
    assert (Hcmp' : forall a b, a ∈ l -> b ∈ l -> cmp a b = (key b - key a)%Z)
      by (intros a b Ha Hb; apply Hcmp; now right).
    destruct (sort cmp l) as [|y rest] eqn:Hsort.
    + subst m. apply elem_of_cons in Hq as [->|Hq]; [lia|].
      apply (sort_elements cmp) in Hq. rewrite Hsort in Hq.
      now apply elem_of_nil in Hq.
    + assert (Hy : y ∈ l) by (apply (sort_elements cmp); rewrite Hsort; now left).
      specialize (IH y Hcmp' eq_refl).
      rewrite (Hcmp x y) in Hm by (first [now left | now right]).
      destruct (key y - key x <=? 0)%Z eqn:Hle; subst m.
      * apply Z.leb_le in Hle.
        apply elem_of_cons in Hq as [->|Hq]; [lia|].
        specialize (IH q Hq). lia.
      * apply Z.leb_gt in Hle.
        apply elem_of_cons in Hq as [->|Hq]; [lia|]. now apply IH.
Qed.

Lemma candidates_elements packageName branch qaData q :
  q ∈ match branch return list QAEntry with
      | None =>
          filter (fun p => Js.endsWith (repo p) "/master/qa.json"
                           || Js.endsWith (repo p) "/main/qa.json" = true)
            (filter (fun p => package_id p = packageName) qaData)
      | Some b =>
          filter (fun p => Js.endsWith (repo p) ("/" +:+ b +:+ "/qa.json") = true)
            (filter (fun p => package_id p = packageName) qaData)
      end
  <-> q ∈ qaData /\ buildOf packageName branch q = true.
Proof.
  unfold buildOf, onBranch. rewrite andb_true_iff, bool_decide_eq_true.
  destruct branch as [b|]; rewrite !list_elem_of_filter; tauto.
Qed.

(** Whether there is a build to refresh from: [newestBuild] finds none
    exactly if the listing has no build of the package on the branch. *)
Lemma newestBuild_none (packageName : string) (branch : option string)
    (qaData : list QAEntry) :
  newestBuild E packageName branch qaData = None
  <-> forall q, q ∈ qaData -> buildOf packageName branch q = false.
Proof.
  unfold newestBuild. destruct qaData as [|q0 qaData].
  - cbn. split; [|reflexivity]. intros _ q Hq. now apply elem_of_nil in Hq.
  - cbn [length Nat.ltb Nat.leb].
    match goal with
    | |- head (sort ?cmp ?l) = None <-> _ =>
        pose proof (sort_elements cmp l) as Hsort;
        pose proof (fun q => candidates_elements packageName branch
                               (q0 :: qaData) q) as Hcand;
        destruct (sort cmp l) as [|m rest]
    end.
    + split; [|reflexivity]. intros _ q Hq.
      destruct (buildOf packageName branch q) eqn:Hb; [|reflexivity].
      assert (Hin : q ∈ @nil QAEntry) by (apply Hsort, Hcand; now split).
      now apply elem_of_nil in Hin.
    + split; [discriminate|]. intros Hnone.
      assert (Hm : m ∈ m :: rest) by now left.
      apply Hsort, Hcand in Hm as [Hin Hb]. rewrite (Hnone m Hin) in Hb.
      discriminate.
Qed.

Lemma newestBuild_candidate (packageName : string) (branch : option string)
    (qaData : list QAEntry) (newest : QAEntry) :
  newestBuild E packageName branch qaData = Some newest ->
  newest ∈ qaData /\ buildOf packageName branch newest = true.
Proof.
  unfold newestBuild. destruct (0 <? length qaData)%nat; [|discriminate].
  intros Hhead. apply (candidates_elements packageName branch qaData).
  match type of Hhead with
  | head (sort ?cmp ?l) = _ => apply (sort_elements cmp l)
  end.
  destruct (sort _ _); [discriminate|]. injection Hhead as ->. now left.
Qed.

(** X12.  The build that a refresh turns to is a build of the package on the
    branch asked for and, when [Date.parse] reads the dates of all such
    builds, none of them is dated later. *)
Theorem newestBuild_is_the_latest_build (packageName : string)
    (branch : option string) (qaData : list QAEntry) (newest : QAEntry) :
  newestBuild E packageName branch qaData = Some newest ->
  newest ∈ qaData
  /\ buildOf packageName branch newest = true
  /\ ((forall q, q ∈ qaData -> buildOf packageName branch q = true ->
                 is_Some (Date_parse E (qa_date q))) ->
      forall q dq dn,
        q ∈ qaData -> buildOf packageName branch q = true ->
        Date_parse E (qa_date q) = Some dq ->
        Date_parse E (qa_date newest) = Some dn ->
        (dq <= dn)%Z).
Proof.
  intros Hnewest. destruct (newestBuild_candidate _ _ _ _ Hnewest) as [Hq Hb].
  split; [exact Hq|]. split; [exact Hb|].
  unfold newestBuild in Hnewest.
  destruct (0 <? length qaData)%nat; [|discriminate].
  pose proof (fun q => candidates_elements packageName branch qaData q) as Hcand.
  match type of Hnewest with
  | head (sort ?cmp ?l) = _ => set (candidates := l) in *
  end.
  rename Hnewest into Hhead.
  intros Hdated q dq dn Hqin Hqb Hdq Hdn.
  pose (key := fun p : QAEntry => default 0%Z (Date_parse E (qa_date p))).
  assert (Hle : (key q <= key newest)%Z).
  { apply (head_sort_greatest key (byDateDescending E) candidates newest);
      [|exact Hhead|now apply Hcand].
    intros x y [Hx Hxb]%Hcand [Hy Hyb]%Hcand. unfold byDateDescending, key.
    destruct (Hdated x Hx Hxb) as [dx ->], (Hdated y Hy Hyb) as [dy ->].
    reflexivity. }
  unfold key in Hle. now rewrite Hdq, Hdn in Hle.
Qed.

End NewestBuild.

Lemma newestBuild_is_the_latest_build_witness :
  Dated.newer ∈ Dated.listing
  /\ buildOf "sushi-test" None Dated.newer = true
  /\ forall q dq dn,
       q ∈ Dated.listing -> buildOf "sushi-test" None q = true ->
       Date_parse Dated.env (qa_date q) = Some dq ->
       Date_parse Dated.env (qa_date Dated.newer) = Some dn ->
       (dq <= dn)%Z.
Proof.
  destruct (newestBuild_is_the_latest_build Dated.env "sushi-test" None
              Dated.listing Dated.newer eq_refl) as (Hin & Hb & Hmax).
  split; [exact Hin|]. split; [exact Hb|]. apply Hmax.
  intros q Hq Hqb. unfold Dated.listing in Hq.
  repeat (apply elem_of_cons in Hq as [->|Hq]);
    first [now apply elem_of_nil in Hq | eexists; vm_compute; reflexivity].
Defined.

(** ** What a merge leaves as it was *)

Section Walks.

Variable E : Env.
Variable R : World -> World -> Prop.
Hypothesis R_refl : forall w, R w w.
Hypothesis R_trans : forall w1 w2 w3, R w1 w2 -> R w2 w3 -> R w1 w3.

Lemma walks_ret {A} (a : A) : walks R (ret a).
Proof. intros w. apply R_refl. Qed.

Lemma walks_throw {A} (e : Error) : walks R (@throw A e).
Proof. intros w. apply R_refl. Qed.

Lemma walks_liftC {A} (c : Completion A) : walks R (liftC c).
Proof. intros w. apply R_refl. Qed.

Lemma walks_reading {A} (f : gmap string node -> Completion A) :
  walks R (reading f).
Proof. intros w. apply R_refl. Qed.

Lemma walks_bind_post {A B} (Q : A -> Prop) (m : M A) (k : A -> M B) :
  (forall w a w', m w = (Returns a, w') -> Q a) ->
  walks R m -> (forall a, Q a -> walks R (k a)) -> walks R (bind m k).
Proof.
  intros HQ Hm Hk w. unfold bind. specialize (Hm w). specialize (HQ w).
  destruct (m w) as [[a|e] w1]; cbn [snd] in *; [|exact Hm].
  eapply R_trans; [exact Hm|]. apply Hk. now apply (HQ a w1).
Qed.

Lemma walks_bind {A B} (m : M A) (k : A -> M B) :
  walks R m -> (forall a, walks R (k a)) -> walks R (bind m k).
Proof.
  intros Hm Hk. apply (walks_bind_post (fun _ => True)); auto.
Qed.

Lemma walks_tryCatch {A} (m : M A) (h : Error -> M A) :
  walks R m -> (forall e, walks R (h e)) -> walks R (tryCatch m h).
Proof.
  intros Hm Hh w. unfold tryCatch. specialize (Hm w).
  destruct (m w) as [[a|e] w1]; cbn [snd] in *; [exact Hm|].
  eapply R_trans; [exact Hm|apply Hh].
Qed.

Hypothesis R_logged : forall l w, R w (setLogged l w).
Hypothesis R_requests : forall r w, R w (setRequests r w).
Hypothesis R_clockReads : forall n w, R w (setClockReads n w).
Hypothesis R_lastCurrentUpdate : forall t w, R w (setLastCurrentUpdate t w).

Lemma walks_log level msg : walks R (log level msg).
Proof. intros w. apply R_logged. Qed.

Lemma walks_get url rt : walks R (get E url rt).
Proof. intros w. apply R_requests. Qed.

Lemma walks_newDate : walks R (newDate E).
Proof. intros w. apply R_clockReads. Qed.

Lemma walks_refreshNeeded :
  walks R (PackageCache_isCurrentPackageRefreshNeeded E).
Proof.
  intros w. unfold PackageCache_isCurrentPackageRefreshNeeded.
  destruct (lastCurrentUpdate w); [|apply R_refl]. apply R_clockReads.
Qed.

Lemma walks_markRefreshed :
  walks R (PackageCache_markCurrentPackageRefreshed E).
Proof.
  intros w. eapply R_trans; [apply (R_clockReads (S (clockReads w)))|].
  apply R_lastCurrentUpdate.
Qed.

Variable cachePath : string.
Variable packageName : string.
Hypothesis R_install : forall version es,
  walks R (install E cachePath (packageName +:+ "#" +:+ version) es).
Hypothesis R_loadFromPath : forall key, walks R (loadFromPath E cachePath key).

Ltac walks_step :=
  first
    [ simple apply walks_ret | simple apply walks_throw
    | simple apply walks_liftC | simple apply walks_log
    | simple apply walks_get | simple apply walks_reading
    | simple apply walks_newDate | simple apply walks_refreshNeeded
    | simple apply walks_markRefreshed | simple apply R_install
    | simple apply R_loadFromPath
    | simple apply walks_bind; [|intros ?]
    | simple apply walks_tryCatch; [|intros ?]
    | match goal with
      | |- walks _ (match ?x with _ => _ end) => destruct x
      | |- walks _ (let _ := _ in _) => cbv zeta
      end ].

Lemma walks_getDistUrl registry version :
  walks R (getDistUrl E registry packageName version).
Proof. unfold getDistUrl. repeat walks_step. Qed.

Lemma walks_registryMetadata isPatch :
  walks R (registryMetadata E packageName isPatch).
Proof. unfold registryMetadata. repeat walks_step. Qed.

Lemma walks_resolveVersion version :
  walks R (resolveVersion E packageName version).
Proof.
  unfold resolveVersion, lookUpLatestVersion, lookUpLatestPatchVersion.
  destruct (String.eqb _ _).
  { apply walks_bind; [apply walks_registryMetadata|]. intros res.
    repeat walks_step. }
  destruct (isPatchWildcard _); cbn [negb].
  { apply walks_bind; [apply walks_registryMetadata|]. intros res.
    repeat walks_step. }
  destruct (isMinorWildcard _); [apply walks_throw|apply walks_ret].
Qed.

Lemma walks_doDownload version lp url :
  walks R (doDownload E cachePath (packageName +:+ "#" +:+ version) lp url).
Proof. unfold doDownload. repeat walks_step. Qed.

Lemma walks_checkCurrentBuild version full loadPath :
  walks R (checkCurrentBuild E packageName version full loadPath cachePath).
Proof. unfold checkCurrentBuild. repeat walks_step. Qed.

Lemma walks_choosePackageUrl version full loadPath lp :
  walks R (choosePackageUrl E packageName version full loadPath lp cachePath).
Proof.
  unfold choosePackageUrl.
  destruct (_ && _); [repeat walks_step|].
  destruct (isCurrentVersion _).
  { apply walks_bind; [apply walks_refreshNeeded|]. intros [|]; [|apply walks_ret].
    apply walks_bind; [apply walks_markRefreshed|]. intros _.
    apply walks_checkCurrentBuild. }
  destruct lp; [apply walks_ret|]. cbv zeta.
  destruct (Js.truthy _); [|apply walks_ret].
  apply walks_bind; [apply walks_getDistUrl|]. intros url. apply walks_ret.
Qed.

Lemma walks_download version version' lp url :
  walks R (download E packageName version (packageName +:+ "#" +:+ version')
             lp cachePath url).
Proof.
  unfold download. destruct url as [url|]; [|apply walks_ret].
  apply walks_tryCatch; [apply walks_doDownload|]. intros e.
  destruct (String.eqb _ _); [|apply walks_throw].
  apply walks_tryCatch; [apply walks_doDownload|]. intros e'. apply walks_throw.
Qed.

Lemma devFallback_names version lp w v full lp' w' :
  devFallback E packageName version (packageName +:+ "#" +:+ version) lp
    cachePath w = (Returns (v, full, lp'), w') ->
  full = packageName +:+ "#" +:+ v.
Proof.
  unfold devFallback. destruct lp as [p|]; [now intros [= <- <- <- <-]|].
  destruct (String.eqb version "dev"); [|now intros [= <- <- <- <-]].
  intros H. apply bind_Returns in H as ([] & w1 & _ & H).
  apply bind_Returns in H as (reloaded & w2 & _ & H).
  now injection H as <- <- <- <-.
Qed.

Lemma walks_devFallback version full lp :
  walks R (devFallback E packageName version full lp cachePath).
Proof. unfold devFallback. repeat walks_step. Qed.

Lemma walks_mergeResolved version store :
  walks R (mergeResolved E packageName version store cachePath).
Proof.
  unfold mergeResolved. cbv zeta.
  apply walks_bind; [apply walks_log|]. intros _.
  apply walks_bind; [apply R_loadFromPath|]. intros lp.
  apply walks_bind; [destruct lp; apply walks_log|]. intros _.
  apply (walks_bind_post (fun r => r.1.2 = packageName +:+ "#" +:+ r.1.1));
    [|apply walks_devFallback|].
  { intros w [[v full] lp'] w' H. now apply devFallback_names in H. }
  intros [[v full] lp'] Hfull. cbn in Hfull. subst full.
  apply walks_bind; [apply walks_choosePackageUrl|]. intros url.
  apply walks_bind; [apply walks_download|]. intros lp''.
  unfold finish. repeat walks_step.
Qed.

Lemma walks_mergeDependency version store :
  walks R (mergeDependency E packageName version store cachePath).
Proof.
  unfold mergeDependency. apply walks_bind; [apply walks_resolveVersion|].
  intros v. apply walks_mergeResolved.
Qed.

End Walks.


Section OtherPackages.

Variable E : Env.
Variable cachePath : string.
Variable packageName : string.







End OtherPackages.


(** ** What a merge has merged *)

Section Merged.

Variable E : Env.

Lemma readCachedPackage_named fs cachePath key p :
  readCachedPackage E fs cachePath key = Returns (Some p) -> package p = key.
Proof.
  unfold readCachedPackage, andThen.
  destruct (if existsSync fs cachePath [] then _ else _) as [packages|e];
    [|discriminate].
  destruct (find _ packages) as [dirName|]; [|discriminate].
  destruct (readdirSync E fs cachePath _) as [listing|e]; [|discriminate].
  destruct (readDefs _ _ _ _ _ _) as [result|e] eqn:Hdefs; [|discriminate].
  intros [= <-]. now apply readDefs_reads in Hdefs as [Hpkg _].
Qed.

Lemma loadFromPath_named cachePath key w :
  cacheNamed w -> cacheNamed (loadFromPath E cachePath key w).2.
Proof.
  intros Hw. unfold loadFromPath.
  destruct (cache w !! key) as [p|]; [exact Hw|].
  destruct (readCachedPackage E (files w) cachePath key) as [[result|]|e] eqn:Hrun;
    try exact Hw.
  apply readCachedPackage_named in Hrun. intros k p. cbn [snd setCache cache].
  destruct (decide (key = k)) as [<-|Hne].
  - rewrite lookup_insert_eq. now intros [= <-].
  - rewrite lookup_insert_ne by exact Hne. apply Hw.
Qed.

Lemma mergeDependency_named packageName version store cachePath w :
  cacheNamed w ->
  cacheNamed (mergeDependency E packageName version store cachePath w).2.
Proof.
  revert w.
  apply (walks_mergeDependency E (fun w w' => cacheNamed w -> cacheNamed w'));
    try (intros; assumption); try tauto.
  - intros version' es w. unfold install.
    destruct (files w !! cachePath) as [[content|root]|]; tauto.
  - intros key w. apply loadFromPath_named.
Qed.

Lemma loadFromPath_inHand cachePath key w lp w' :
  loadFromPath E cachePath key w = (Returns lp, w') -> inHand key lp w'.
Proof.
  unfold loadFromPath. destruct (cache w !! key) as [p|] eqn:Hkey.
  - intros [= <- <-] p' [= <-]. exact Hkey.
  - destruct (readCachedPackage E (files w) cachePath key) as [[result|]|e];
      intros [= <- <-] p' [= <-]. cbn. apply lookup_insert_eq.
Qed.

Lemma inHand_kept {A} (m : M A) key lp w r w' :
  keeps m -> m w = (r, w') -> inHand key lp w -> inHand key lp w'.
Proof. intros Hm Hrun Hlp p Hp. eapply keeps_at; eauto. Qed.

Lemma doDownload_inHand cachePath full lp url w lp' w' :
  inHand full lp w ->
  doDownload E cachePath full lp url w = (Returns lp', w') ->
  inHand full lp' w'.
Proof.
  intros Hlp. unfold doDownload. intros H.
  apply bind_Returns in H as ([] & w1 & H1 & H).
  apply bind_Returns in H as (res & w2 & H2 & H).
  destruct res as [data|].
  - apply bind_Returns in H as ([] & w3 & _ & H).
    apply bind_Returns in H as (tmp & w4 & _ & H).
    apply bind_Returns in H as (cleaned & w5 & _ & H).
    apply bind_Returns in H as ([] & w6 & _ & H).
    now apply loadFromPath_inHand in H.
  - apply bind_Returns in H as ([] & w3 & H3 & H). injection H as <- <-.
    eapply inHand_kept; [apply keeps_log|exact H3|].
    eapply inHand_kept; [apply (keeps_get E)|exact H2|].
    eapply inHand_kept; [apply keeps_log|exact H1|exact Hlp].
Qed.

Lemma download_inHand name version full lp cachePath url w lp' w' :
  inHand full lp w ->
  download E name version full lp cachePath url w = (Returns lp', w') ->
  inHand full lp' w'.
Proof.
  intros Hlp. unfold download. destruct url as [url|];
    [|now intros [= <- <-]].
  unfold tryCatch at 1.
  destruct (doDownload E cachePath full lp url w) as [[r1|e] w1] eqn:H1.
  - intros [= <- <-]. eapply doDownload_inHand; eassumption.
  - destruct (String.eqb _ _); [|discriminate]. unfold tryCatch.
    destruct (doDownload E cachePath full lp _ w1) as [[r2|e2] w2] eqn:H2;
      [|discriminate].
    intros [= <- <-]. eapply doDownload_inHand; [|exact H2].
    eapply inHand_kept; [apply (keeps_doDownload E)|exact H1|exact Hlp].
Qed.

Lemma devFallback_inHand name version lp cachePath w v full lp' w' :
  inHand (name +:+ "#" +:+ version) lp w ->
  devFallback E name version (name +:+ "#" +:+ version) lp cachePath w
  = (Returns (v, full, lp'), w') ->
  full = name +:+ "#" +:+ v /\ inHand full lp' w'.
Proof.
  intros Hlp. unfold devFallback.
  destruct lp as [p|]; [now intros [= <- <- <- <-]|].
  destruct (String.eqb version "dev"); [|now intros [= <- <- <- <-]].
  intros H. apply bind_Returns in H as ([] & w1 & _ & H).
  apply bind_Returns in H as (reloaded & w2 & H2 & H).
  injection H as <- <- <- <-. split; [reflexivity|].
  now apply loadFromPath_inHand in H2.
Qed.

Lemma mergeResolved_merges_what_is_memoized name version store cachePath w s w' :
  mergeResolved E name version store cachePath w = (Returns s, w') ->
  exists v p, cache w' !! (name +:+ "#" +:+ v) = Some p /\ s = merge p store.
Proof.
  unfold mergeResolved. intros H.
  apply bind_Returns in H as ([] & w1 & _ & H).
  apply bind_Returns in H as (lp & w2 & H2 & H).
  apply loadFromPath_inHand in H2.
  apply bind_Returns in H as ([] & w3 & H3 & H).
  assert (Hlp3 : inHand (name +:+ "#" +:+ version) lp w3).
  { destruct lp; (eapply inHand_kept; [apply keeps_log|exact H3|exact H2]). }
  apply bind_Returns in H as ([[v full] lp'] & w4 & H4 & H).
  apply devFallback_inHand in H4 as [-> H4]; [|exact Hlp3].
  apply bind_Returns in H as (url & w5 & H5 & H).
  eapply inHand_kept in H4; [|apply (keeps_choosePackageUrl E)|exact H5].
  apply bind_Returns in H as (lp'' & w6 & H6 & H).
  apply download_inHand in H6; [|exact H4].
  unfold finish in H. destruct lp'' as [p|]; [|discriminate].
  apply bind_Returns in H as ([] & w7 & H7 & H). injection H as <- <-.
  exists v, p. split; [|reflexivity].
  eapply (inHand_kept _ _ (Some p)); [apply keeps_log|exact H7|exact H6|reflexivity].
Qed.

(** X14.  A merge that succeeds has merged a package of the process cache:
    the store returned is the store given merged with the package that is
    memoized, afterwards, under a key [packageName#v], and, the process
    cache holding every package under its own name, that key is the label
    of the store. *)
Theorem mergeDependency_merges_a_memoized_package
    (packageName version cachePath : string) (FHIRDefs s : FHIRDefinitions)
    (w w' : World) :
  cacheNamed w ->
  mergeDependency E packageName version FHIRDefs cachePath w = (Returns s, w') ->
  cacheNamed w'
  /\ exists v p,
      cache w' !! (packageName +:+ "#" +:+ v) = Some p
      /\ s = merge p FHIRDefs
      /\ label s = packageName +:+ "#" +:+ v.
Proof.
  intros Hw Hrun.
  assert (Hw' : cacheNamed w').
  { pose proof (mergeDependency_named packageName version FHIRDefs cachePath w Hw)
      as H. now rewrite Hrun in H. }
  split; [exact Hw'|].
  unfold mergeDependency in Hrun.
  apply bind_Returns in Hrun as (v0 & w1 & _ & Hrun).
  apply mergeResolved_merges_what_is_memoized in Hrun as (v & p & Hp & ->).
  exists v, p. split; [exact Hp|]. split; [reflexivity|].
  cbn. now apply Hw'.
Qed.

End Merged.

Lemma mergeDependency_merges_a_memoized_package_witness :
  exists s w',
    staleMerge = (Returns s, w')
    /\ cacheNamed w'
    /\ exists v p,
        cache w' !! ("sushi-test-old" +:+ "#" +:+ v) = Some p
        /\ s = merge p newFHIRDefinitions
        /\ label s = "sushi-test-old" +:+ "#" +:+ v.
Proof.
  destruct staleMerge as [[s|e] w'] eqn:Hrun; [|vm_compute in Hrun; discriminate].
  exists s, w'. split; [reflexivity|].
  apply (mergeDependency_merges_a_memoized_package Sample.env "sushi-test-old"
           "current" "cache" newFHIRDefinitions s Sample.world w');
    [|exact Hrun].
  intros k p Hk. change (cache Sample.world) with (∅ : gmap string LoadedPackage) in Hk.
  rewrite lookup_empty in Hk. discriminate.
Defined.

(** ** The check of a [current] package against the build server *)

Lemma endsWith_nonEmpty (s suffix : string) :
  Js.endsWith s suffix = true -> suffix <> "" -> Js.nonEmpty s = true.
Proof.
  unfold Js.endsWith. intros [Hlen _]%andb_prop Hne.
  apply Nat.leb_le in Hlen. destruct s; [|reflexivity].
  destruct suffix; [contradiction|]. cbn in Hlen. lia.
Qed.

Lemma buildOf_repo (packageName : string) (branch : option string) (p : QAEntry) :
  buildOf packageName branch p = true -> Js.nonEmpty (repo p) = true.
Proof.
  unfold buildOf, onBranch. intros [_ H]%andb_prop. destruct branch as [b|].
  - eapply endsWith_nonEmpty; [exact H|discriminate].
  - apply orb_prop in H as [H|H];
      (eapply endsWith_nonEmpty; [exact H|discriminate]).
Qed.

Section CurrentBuild.

Variable E : Env.

(** X15.  A [current] package of which the build listing holds no build on
    the branch asked for is refused with [CurrentPackageLoadError], the
    listing being the only thing requested.  An answer that is no listing
    counts as an empty one, unless it is a text with something in it: the
    check then fails with the [TypeError] of filtering a text. *)
Theorem checkCurrentBuild_refuses_unlisted_package
    (packageName version fullPackageName cachePath : string)
    (loadPath : list string) (res : option ResponseData) (w : World) :
  axiosGet E (requests w) qasCall = Returns res ->
  (forall q, q ∈ listingOf res ->
             buildOf packageName (Js.afterFirst "$" version) q = false) ->
  checkCurrentBuild E packageName version fullPackageName loadPath cachePath w
  = (Throws (if textAnswer res
             then OtherError "qaData.filter is not a function"
             else CurrentPackageLoadError fullPackageName),
     setRequests (requests w ++ [qasCall]) w).
Proof.
  intros Hqas Hnone. apply (newestBuild_none E) in Hnone.
  unfold checkCurrentBuild. unfold bind at 1, get at 1.
  change {| call_url := baseUrl +:+ "/qas.json"; call_responseType := None |}
    with qasCall.
  rewrite Hqas.
  destruct res as [[latest versions|l|date|text]|]; cbn [textAnswer];
    try (unfold bind, ret; cbn [listingOf] in Hnone; now rewrite Hnone).
  destruct (Js.nonEmpty text); [reflexivity|].
  unfold bind, ret. cbn [listingOf] in Hnone. now rewrite Hnone.
Qed.

(** X16.  With a build listed, the dates decide: the package is to be
    downloaded from the directory of the newest build exactly if the date
    of the build's manifest differs from the date of the cached
    [package.json], a missing date or file counting as [undefined]; when
    both are missing the check fails on reading the date of a
    [package.json] that is not there. *)
Theorem checkCurrentBuild_compares_the_dates
    (packageName version fullPackageName cachePath : string)
    (loadPath : list string) (res manifest : option ResponseData)
    (newest : QAEntry) (cached : option RawRecord) (w : World) :
  axiosGet E (requests w) qasCall = Returns res ->
  newestBuild E packageName (Js.afterFirst "$" version) (listingOf res)
  = Some newest ->
  axiosGet E (requests w ++ [qasCall]) (manifestCall newest) = Returns manifest ->
  cachedPackageJson E (files w) cachePath loadPath = Returns cached ->
  (checkCurrentBuild E packageName version fullPackageName loadPath cachePath
     w).1
  = if decide (manifestDate manifest = cached ≫= j_date) then
      match cached with
      | Some _ => Returns None
      | None =>
          Throws (OtherError "Cannot read properties of undefined (reading 'date')")
      end
    else Returns (Some ("https://build.fhir.org/ig/"
                        +:+ Js.dropLast 8 (repo newest) +:+ "/package.tgz")).
Proof.
  intros Hqas Hnewest Hmanifest Hcached.
  unfold checkCurrentBuild. unfold bind at 1, get at 1.
  change {| call_url := baseUrl +:+ "/qas.json"; call_responseType := None |}
    with qasCall.
  rewrite Hqas.
  assert (Hres : res = Some (QAList (listingOf res))).
  { destruct res as [[latest versions|l|date|text]|]; try reflexivity;
      discriminate Hnewest. }
  rewrite Hres. unfold bind at 1, ret at 1. rewrite Hnewest.
  assert (Hrepo : Js.nonEmpty (repo newest) = true).
  { apply (buildOf_repo packageName (Js.afterFirst "$" version)).
    now apply newestBuild_candidate in Hnewest. }
  rewrite Hrepo. cbv zeta. unfold bind at 1, get at 1.
  cbn [requests setRequests].
  change {| call_url := (baseUrl +:+ "/" +:+ Js.dropLast 8 (repo newest))
                        +:+ "/package.manifest.json";
            call_responseType := None |}
    with (manifestCall newest).
  rewrite Hmanifest. fold (manifestDate manifest).
  unfold bind at 1, reading at 1. cbn [files setRequests].
  fold (cachedPackageJson E (files w) cachePath loadPath). rewrite Hcached.
  destruct (decide (manifestDate manifest = cached ≫= j_date)) as [Heq|Hne].
  - rewrite bool_decide_eq_false_2 by tauto. now destruct cached.
  - rewrite bool_decide_eq_true_2 by exact Hne. now destruct cached.
Qed.

End CurrentBuild.

Lemma checkCurrentBuild_refuses_unlisted_package_witness :
  checkCurrentBuild Sample.env "sushi-unlisted" "current" "sushi-unlisted#current"
    ["sushi-unlisted#current"; "package"] "cache" Sample.world
  = (Throws (CurrentPackageLoadError "sushi-unlisted#current"),
     setRequests [qasCall] Sample.world)
  /\ checkCurrentBuild portalEnv "sushi-test" "current" "sushi-test#current"
       ["sushi-test#current"; "package"] "cache" Sample.world
     = (Throws (OtherError "qaData.filter is not a function"),
        setRequests [qasCall] Sample.world).
Proof.
  split.
  - apply (checkCurrentBuild_refuses_unlisted_package Sample.env "sushi-unlisted"
             "current" "sushi-unlisted#current" "cache"
             ["sushi-unlisted#current"; "package"] (Some (QAList Sample.qas)));
      [reflexivity|].
    intros q Hq. cbn [listingOf] in Hq. unfold Sample.qas in Hq.
    repeat (apply elem_of_cons in Hq as [->|Hq]);
      first [reflexivity | now apply elem_of_nil in Hq].
  - apply (checkCurrentBuild_refuses_unlisted_package portalEnv "sushi-test"
             "current" "sushi-test#current" "cache"
             ["sushi-test#current"; "package"]
             (Some (Binary "<html>Sign in</html>")));
      [reflexivity|].
    intros q Hq. cbn [listingOf] in Hq. now apply elem_of_nil in Hq.
Defined.

Lemma checkCurrentBuild_compares_the_dates_witness :
  (checkCurrentBuild Sample.env "sushi-test" "current" "sushi-test#current"
     ["sushi-test#current"; "package"] "cache" Sample.world).1
  = Returns None
  /\ (checkCurrentBuild Sample.env "sushi-test-old" "current"
        "sushi-test-old#current" ["sushi-test-old#current"; "package"] "cache"
        Sample.world).1
     = Returns (Some "https://build.fhir.org/ig/sushi/sushi-test-old/branches/master/package.tgz").
Proof.
  split.
  - apply (checkCurrentBuild_compares_the_dates Sample.env "sushi-test" "current"
             "sushi-test#current" "cache" ["sushi-test#current"; "package"]
             (Some (QAList Sample.qas)) (Some (Manifest (Some "20200413230227")))
             {| package_id := "sushi-test"; qa_date := None;
                repo := "sushi/sushi-test/branches/master/qa.json" |}
             (Some (Sample.parsed "20200413230227")) Sample.world);
      reflexivity.
  - apply (checkCurrentBuild_compares_the_dates Sample.env "sushi-test-old"
             "current" "sushi-test-old#current" "cache"
             ["sushi-test-old#current"; "package"]
             (Some (QAList Sample.qas)) (Some (Manifest (Some "20200413230227")))
             {| package_id := "sushi-test-old"; qa_date := None;
                repo := "sushi/sushi-test-old/branches/master/qa.json" |}
             (Some (Sample.parsed "20190101000000")) Sample.world);
      reflexivity.
Defined.

(** ** The course of a merge *)

Lemma current_is_no_other_form (version : string) :
  isCurrentVersion version = true ->
  String.eqb version "latest" = false
  /\ isPatchWildcard version = false
  /\ isMinorWildcard version = false
  /\ String.eqb version "dev" = false.
Proof.
  intros H.
  assert (Hc : exists rest, version = String "c" rest).
  { unfold isCurrentVersion in H. apply orb_prop in H as [H|H].
    - apply String.eqb_eq in H as ->. now eexists.
    - apply andb_prop in H as [H _]. unfold Js.startsWith in H.
      destruct version as [|c rest]; cbn [String.prefix] in H; [discriminate|].
      revert H. destruct (ascii_dec "c" c) as [<-|]; [now eexists|discriminate]. }
  destruct Hc as [rest ->]. repeat split; reflexivity.
Qed.

Lemma plainVersion_inv (version : string) :
  plainVersion version = true ->
  String.eqb version "latest" = false
  /\ isPatchWildcard version = false
  /\ isMinorWildcard version = false
  /\ String.eqb version "dev" = false
  /\ isCurrentVersion version = false.
Proof.
  unfold plainVersion. rewrite !andb_true_iff, !negb_true_iff. tauto.
Qed.

Section Course.

Variable E : Env.

Lemma lastCurrentUpdate_after_download name version version' lp cachePath url w :
  lastCurrentUpdate
    (download E name version (name +:+ "#" +:+ version') lp cachePath url w).2
  = lastCurrentUpdate w.
Proof.
  revert w.
  apply (walks_download E (fun w w' => lastCurrentUpdate w' = lastCurrentUpdate w));
    try reflexivity; try (intros; congruence).
  - intros v es w. unfold install.
    now destruct (files w !! cachePath) as [[content|root]|].
  - intros key w. destruct (loadFromPath E cachePath key w) as [r w1] eqn:H.
    apply loadFromPath_changes_cache_only in H. cbn [snd]. now rewrite H.
Qed.

Lemma lastCurrentUpdate_after_checkCurrentBuild name version full loadPath
    cachePath w :
  lastCurrentUpdate
    (checkCurrentBuild E name version full loadPath cachePath w).2
  = lastCurrentUpdate w.
Proof.
  revert w.
  apply (walks_checkCurrentBuild E
           (fun w w' => lastCurrentUpdate w' = lastCurrentUpdate w));
    try reflexivity; intros; congruence.
Qed.

(** X17.  The first merge of a [current] package (other than [current] of an
    R5 core package) in a process records the refresh before it asks for
    the build listing: once the cache has been looked into, the time of
    the merge is the time of the last refresh afterwards, whatever the
    build server answers and whether the merge succeeds or not. *)
Theorem mergeDependency_records_the_refresh_first
    (packageName version cachePath : string) (FHIRDefs : FHIRDefinitions)
    (lp : option LoadedPackage) (w : World) :
  isCurrentVersion version = true ->
  Js.startsWith packageName "hl7.fhir.r5." && String.eqb version "current"
  = false ->
  lastCurrentUpdate w = None ->
  (loadFromPath E cachePath (packageName +:+ "#" +:+ version) w).1 = Returns lp ->
  lastCurrentUpdate
    (mergeDependency E packageName version FHIRDefs cachePath w).2
  = Some (clock E (clockReads w)).
Proof.
  intros Hcur Hr5 Hlast Hload.
  destruct (current_is_no_other_form _ Hcur) as (Hl & Hp & Hm & Hdev).
  unfold mergeDependency, resolveVersion. rewrite Hl, Hp, Hm.
  unfold bind at 1, ret at 1. unfold mergeResolved. cbv zeta.
  unfold bind at 1, log at 1. unfold bind at 1.
  rewrite loadFromPath_logged.
  destruct (loadFromPath E cachePath (packageName +:+ "#" +:+ version) w)
    as [r w1] eqn:Hrun.
  cbn [fst snd] in Hload |- *. subst r.
  apply loadFromPath_changes_cache_only in Hrun.
  assert (Hdev' : devFallback E packageName version
                    (packageName +:+ "#" +:+ version) lp cachePath
                  = ret (version, packageName +:+ "#" +:+ version, lp)).
  { unfold devFallback. rewrite Hdev. now destruct lp. }
  unfold bind at 1.
  destruct lp as [p0|]; unfold log at 1.
  all: rewrite Hdev'; unfold bind at 1, ret at 1.
  all: unfold bind at 1, choosePackageUrl; rewrite Hr5, Hcur.
  all: unfold bind at 1, PackageCache_isCurrentPackageRefreshNeeded.
  all: rewrite Hrun; cbn [lastCurrentUpdate setLogged setCache]; rewrite Hlast.
  all: cbn [isCurrentPackageRefreshNeeded].
  all: unfold bind at 1, PackageCache_markCurrentPackageRefreshed, bind at 1,
         newDate at 1.
  all: cbn [clockReads setLogged setCache setClockReads].
  all: match goal with
       | |- context [checkCurrentBuild E ?n ?v ?f ?l ?c ?w0] =>
           pose proof (lastCurrentUpdate_after_checkCurrentBuild n v f l c w0)
             as Hcheck;
           destruct (checkCurrentBuild E n v f l c w0) as [[url|e] w2]
       end; cbn [snd lastCurrentUpdate setLastCurrentUpdate] in Hcheck;
       [|exact Hcheck].
  all: unfold bind at 1.
  all: match goal with
       | |- context [download E ?n ?v ?f ?l ?c ?u ?w0] =>
           pose proof (lastCurrentUpdate_after_download n v version l c u w0)
             as Hdl;
           destruct (download E n v f l c u w0) as [[lp'|e] w3]
       end; cbn [snd] in Hdl |- *; [|congruence].
  all: unfold finish; destruct lp' as [p|]; cbn; congruence.
Qed.

End Course.

Lemma mergeDependency_records_the_refresh_first_witness :
  lastCurrentUpdate
    (mergeDependency Sample.env "sushi-unlisted" "current" newFHIRDefinitions
       "cache" Sample.world).2
  = Some 90000000%Z.
Proof.
  apply (mergeDependency_records_the_refresh_first Sample.env "sushi-unlisted"
           "current" "cache" newFHIRDefinitions None Sample.world);
    reflexivity.
Defined.

Section Downloads.

Variable E : Env.

(** A merge of a version taken as it is, up to the look into the cache. *)
Lemma mergeDependency_after_lookup (packageName version cachePath : string)
    (FHIRDefs : FHIRDefinitions) (lp : option LoadedPackage) (w w1 : World) :
  String.eqb version "latest" = false ->
  isPatchWildcard version = false ->
  isMinorWildcard version = false ->
  (lp = None -> String.eqb version "dev" = false) ->
  loadFromPath E cachePath (packageName +:+ "#" +:+ version) w = (Returns lp, w1) ->
  mergeDependency E packageName version FHIRDefs cachePath w
  = afterLookup E packageName version lp FHIRDefs cachePath
      (setLogged (logged w ++ lookedIntoCache cachePath
                                (packageName +:+ "#" +:+ version) lp)
         (setCache (cache w1) w)).
Proof.
  intros Hl Hp Hm Hdev Hload.
  pose proof (loadFromPath_changes_cache_only _ _ _ _ _ _ Hload) as Hw1.
  unfold mergeDependency, resolveVersion. rewrite Hl, Hp, Hm.
  unfold bind at 1, ret at 1. unfold mergeResolved. cbv zeta.
  unfold bind at 1, log at 1. unfold bind at 1.
  rewrite loadFromPath_logged, Hload. cbn [fst snd].
  assert (Hdev' : devFallback E packageName version
                    (packageName +:+ "#" +:+ version) lp cachePath
                  = ret (version, packageName +:+ "#" +:+ version, lp)).
  { unfold devFallback. destruct lp; [reflexivity|]. now rewrite Hdev. }
  unfold bind at 1. rewrite Hdev'. unfold afterLookup, lookedIntoCache.
  rewrite Hw1 at 1 2.
  destruct lp as [p|]; unfold log at 1; unfold bind at 1, ret at 1;
    cbn [logged setLogged setCache files lastCurrentUpdate cache requests
         clockReads]; rewrite <- app_assoc; reflexivity.
Qed.

Lemma loadFromPath_null_is_a_miss cachePath key w w' :
  loadFromPath E cachePath key w = (Returns None, w') -> cache w !! key = None.
Proof.
  unfold loadFromPath. destruct (cache w !! key); [discriminate|reflexivity].
Qed.

(** X18.  Whatever goes wrong while a package is downloaded, extracted, cleaned
    or moved into the cache, the caller of [mergeDependency] sees
    [PackageLoadError] for the package: without registry for a package
    asked from [packages.fhir.org] (the second registry having been tried
    as well), with the custom registry in force otherwise. *)
Theorem download_rejects_with_PackageLoadError
    (packageName version fullPackageName cachePath : string)
    (loadedPackage : option LoadedPackage) (packageUrl : option string)
    (e : Error) (w w' : World) :
  download E packageName version fullPackageName loadedPackage cachePath
    packageUrl w = (Throws e, w') ->
  exists url,
    packageUrl = Some url
    /\ e = PackageLoadError fullPackageName
             (if String.eqb url (firstRegistryUrl packageName version)
              then None else FPL_REGISTRY E).
Proof.
  unfold download. destruct packageUrl as [url|]; [|discriminate].
  intros H. exists url. split; [reflexivity|]. revert H.
  unfold tryCatch at 1.
  destruct (doDownload E cachePath fullPackageName loadedPackage url w)
    as [[r|e0] w1]; [discriminate|].
  fold (firstRegistryUrl packageName version).
  destruct (String.eqb url (firstRegistryUrl packageName version)).
  - unfold tryCatch.
    destruct (doDownload E cachePath fullPackageName loadedPackage _ w1)
      as [[r|e1] w2]; [discriminate|].
    now intros [= <- _].
  - now intros [= <- _].
Qed.

(** X19.  A package of a plain version that is not cached and that neither
    public registry delivers is not loaded: the merge asks
    [packages.fhir.org], then [packages2.fhir.org], and throws
    [PackageLoadError]; the disk and the process cache stay as they
    were. *)
Theorem package_in_no_registry_is_not_loaded
    (packageName version cachePath : string) (FHIRDefs : FHIRDefinitions)
    (e1 e2 : Error) (w : World) :
  plainVersion version = true ->
  loadFromPath E cachePath (packageName +:+ "#" +:+ version) w = (Returns None, w) ->
  Js.truthy (FPL_REGISTRY E) = false ->
  axiosGet E (requests w) (downloadCall (firstRegistryUrl packageName version))
  = Throws e1 ->
  axiosGet E
    (requests w ++ [downloadCall (firstRegistryUrl packageName version)])
    (downloadCall (secondRegistryUrl packageName version))
  = Throws e2 ->
  exists w',
    mergeDependency E packageName version FHIRDefs cachePath w
    = (Throws (PackageLoadError (packageName +:+ "#" +:+ version) None), w')
    /\ requests w'
       = requests w ++ [downloadCall (firstRegistryUrl packageName version);
                        downloadCall (secondRegistryUrl packageName version)]
    /\ files w' = files w
    /\ cache w' = cache w.
Proof.
  intros Hplain Hload Hreg Hfirst Hsecond.
  destruct (plainVersion_inv _ Hplain) as (Hl & Hp & Hm & Hdev & Hcur).
  rewrite (mergeDependency_after_lookup packageName version cachePath FHIRDefs
             None w w Hl Hp Hm (fun _ => Hdev) Hload).
  unfold afterLookup. cbv zeta. unfold bind at 1, choosePackageUrl.
  replace (Js.startsWith packageName "hl7.fhir.r5." && String.eqb version "current")
    with false.
  2:{ destruct (String.eqb version "current") eqn:Heq;
        [|now rewrite andb_false_r].
      apply String.eqb_eq in Heq as ->. discriminate Hcur. }
  rewrite Hcur. unfold getCustomRegistry. rewrite Hreg. unfold ret at 1.
  fold (firstRegistryUrl packageName version).
  unfold bind at 1, download.
  rewrite String.eqb_refl.
  fold (secondRegistryUrl packageName version).
  unfold tryCatch at 1, doDownload at 1, bind at 1, log at 1.
  unfold bind at 1, get at 1.
  cbn [requests setLogged setCache].
  change {| call_url := firstRegistryUrl packageName version;
            call_responseType := Some "arraybuffer" |}
    with (downloadCall (firstRegistryUrl packageName version)).
  rewrite Hfirst.
  unfold tryCatch at 1, doDownload at 1, bind at 1, log at 1.
  unfold bind at 1, get at 1.
  cbn [requests setLogged setCache setRequests].
  change {| call_url := secondRegistryUrl packageName version;
            call_responseType := Some "arraybuffer" |}
    with (downloadCall (secondRegistryUrl packageName version)).
  rewrite Hsecond. unfold throw.
  eexists. split; [reflexivity|]. cbn. rewrite <- app_assoc.
  repeat split.
Qed.

(** X20.  [current] of an R5 core package is downloaded even when it is
    cached; when the build server answers without content, the merge
    falls back on the cached package and leaves the disk as it was. *)
Theorem r5_current_without_content_falls_back_on_the_cache
    (packageName cachePath : string) (FHIRDefs : FHIRDefinitions)
    (p : LoadedPackage) (w w1 : World) :
  Js.startsWith packageName "hl7.fhir.r5." = true ->
  loadFromPath E cachePath (packageName +:+ "#" +:+ "current") w
  = (Returns (Some p), w1) ->
  axiosGet E (requests w)
    (downloadCall ("https://build.fhir.org/" +:+ packageName +:+ ".tgz"))
  = Returns None ->
  exists w',
    mergeDependency E packageName "current" FHIRDefs cachePath w
    = (Returns (merge p FHIRDefs), w')
    /\ requests w'
       = requests w
         ++ [downloadCall ("https://build.fhir.org/" +:+ packageName +:+ ".tgz")]
    /\ files w' = files w.
Proof.
  intros Hr5 Hload Hanswer.
  rewrite (mergeDependency_after_lookup packageName "current" cachePath FHIRDefs
             (Some p) w w1 eq_refl eq_refl eq_refl (fun H => eq_refl) Hload).
  unfold afterLookup. cbv zeta. unfold bind at 1, choosePackageUrl.
  rewrite Hr5. cbn [andb String.eqb Ascii.eqb Bool.eqb].
  unfold bind at 1, log at 1, ret at 1.
  unfold bind at 1, download.
  unfold tryCatch at 1, doDownload at 1, bind at 1, log at 1.
  unfold bind at 1, get at 1.
  cbn [requests setLogged setCache].
  change {| call_url := "https://build.fhir.org/" +:+ packageName +:+ ".tgz";
            call_responseType := Some "arraybuffer" |}
    with (downloadCall ("https://build.fhir.org/" +:+ packageName +:+ ".tgz")).
  rewrite Hanswer.
  eexists. split; [reflexivity|]. cbn. split; reflexivity.
Qed.

(** X21.  A download that succeeds puts the cleaned extraction in the place
    of the package directory in the cache, and the merge returns the
    given store merged with the package read from there, which is
    memoized from then on; this for a package name and a version that
    make up one path segment. *)
Theorem downloaded_package_is_installed_and_merged
    (packageName version cachePath : string) (FHIRDefs : FHIRDefinitions)
    (data : ResponseData) (extraction es root : entries_t)
    (p : LoadedPackage) (w : World) :
  let fullPackageName := packageName +:+ "#" +:+ version in
  let disk :=
    <[cachePath := Dir (removeEntry fullPackageName root
                          ++ [(fullPackageName, Dir es)])]> (files w) in
  pathSegment fullPackageName = true ->
  plainVersion version = true ->
  loadFromPath E cachePath fullPackageName w = (Returns None, w) ->
  Js.truthy (FPL_REGISTRY E) = false ->
  axiosGet E (requests w) (downloadCall (firstRegistryUrl packageName version))
  = Returns (Some data) ->
  tar_x E data = Returns extraction ->
  cleanCachedPackage E extraction = (es, None) ->
  files w !! cachePath = Some (Dir root) ->
  readCachedPackage E disk cachePath fullPackageName = Returns (Some p) ->
  exists w',
    mergeDependency E packageName version FHIRDefs cachePath w
    = (Returns (merge p FHIRDefs), w')
    /\ files w' = disk
    /\ cache w' = <[fullPackageName := p]> (cache w)
    /\ requests w'
       = requests w ++ [downloadCall (firstRegistryUrl packageName version)].
Proof.
  intros fullPackageName disk _ Hplain Hload Hreg Hanswer Htar Hclean Hroot Hread.
  destruct (plainVersion_inv _ Hplain) as (Hl & Hp & Hm & Hdev & Hcur).
  pose proof (loadFromPath_null_is_a_miss _ _ _ _ Hload) as Hmiss.
  rewrite (mergeDependency_after_lookup packageName version cachePath FHIRDefs
             None w w Hl Hp Hm (fun _ => Hdev) Hload).
  unfold afterLookup. cbv zeta. unfold bind at 1, choosePackageUrl.
  replace (Js.startsWith packageName "hl7.fhir.r5." && String.eqb version "current")
    with false.
  2:{ destruct (String.eqb version "current") eqn:Heq;
        [|now rewrite andb_false_r].
      apply String.eqb_eq in Heq as ->. discriminate Hcur. }
  rewrite Hcur. unfold getCustomRegistry. rewrite Hreg. unfold ret at 1.
  fold (firstRegistryUrl packageName version). fold fullPackageName.
  unfold bind at 1, download.
  unfold tryCatch at 1, doDownload at 1, bind at 1, log at 1.
  unfold bind at 1, get at 1.
  cbn [requests setLogged setCache].
  change {| call_url := firstRegistryUrl packageName version;
            call_responseType := Some "arraybuffer" |}
    with (downloadCall (firstRegistryUrl packageName version)).
  rewrite Hanswer.
  unfold bind at 1, log at 1. unfold bind at 1, liftC at 1. rewrite Htar.
  unfold bind at 1. rewrite Hclean. unfold ret at 1.
  unfold bind at 1, install at 1.
  cbn [files setLogged setCache setRequests]. rewrite Hroot.
  unfold loadFromPath.
  cbn [cache files setLogged setCache setRequests setFiles]. rewrite Hmiss.
  fold disk. rewrite Hread. unfold finish, bind, log, ret.
  eexists. split; [reflexivity|]. cbn. repeat split.
Qed.

(** X22.  With a custom registry, the failure of the request for the
    registry's metadata is not turned into [PackageLoadError]: the merge of
    a package that is not cached rejects with the error of the request
    itself, nothing having been downloaded. *)
Theorem custom_registry_failure_reaches_the_caller
    (registry packageName version cachePath : string)
    (FHIRDefs : FHIRDefinitions) (e : Error) (w : World) :
  plainVersion version = true ->
  loadFromPath E cachePath (packageName +:+ "#" +:+ version) w = (Returns None, w) ->
  FPL_REGISTRY E = Some registry ->
  registry <> "" ->
  axiosGet E (requests w)
    {| call_url := stripTrailingSlash registry +:+ "/" +:+ packageName;
       call_responseType := None |}
  = Throws e ->
  exists w',
    mergeDependency E packageName version FHIRDefs cachePath w = (Throws e, w')
    /\ requests w'
       = requests w
         ++ [{| call_url := stripTrailingSlash registry +:+ "/" +:+ packageName;
                call_responseType := None |}]
    /\ files w' = files w.
Proof.
  intros Hplain Hload Hreg Hne Hanswer. apply truthy_Some in Hne.
  destruct (plainVersion_inv _ Hplain) as (Hl & Hp & Hm & Hdev & Hcur).
  rewrite (mergeDependency_after_lookup packageName version cachePath FHIRDefs
             None w w Hl Hp Hm (fun _ => Hdev) Hload).
  unfold afterLookup. cbv zeta. unfold bind at 1, choosePackageUrl.
  replace (Js.startsWith packageName "hl7.fhir.r5." && String.eqb version "current")
    with false.
  2:{ destruct (String.eqb version "current") eqn:Heq;
        [|now rewrite andb_false_r].
      apply String.eqb_eq in Heq as ->. discriminate Hcur. }
  rewrite Hcur. unfold getCustomRegistry. rewrite Hreg, Hne. cbn [default].
  unfold bind at 1, getDistUrl. cbv zeta. unfold bind at 1, get at 1.
  cbn [requests setLogged setCache]. unfold id. rewrite Hanswer.
  eexists. split; [reflexivity|]. cbn. split; reflexivity.
Qed.

End Downloads.

Lemma download_rejects_with_PackageLoadError_witness :
  exists url,
    Some (firstRegistryUrl "sushi-test" "0.9.9") = Some url
    /\ PackageLoadError "sushi-test#0.9.9" None
       = PackageLoadError "sushi-test#0.9.9"
           (if String.eqb url (firstRegistryUrl "sushi-test" "0.9.9")
            then None else FPL_REGISTRY Sample.env).
Proof.
  apply (download_rejects_with_PackageLoadError Sample.env "sushi-test" "0.9.9"
           "sushi-test#0.9.9" "cache" None
           (Some (firstRegistryUrl "sushi-test" "0.9.9"))
           (PackageLoadError "sushi-test#0.9.9" None) Sample.world
           (download Sample.env "sushi-test" "0.9.9" "sushi-test#0.9.9" None
              "cache" (Some (firstRegistryUrl "sushi-test" "0.9.9"))
              Sample.world).2).
  vm_compute. reflexivity.
Defined.

Lemma package_in_no_registry_is_not_loaded_witness :
  exists w',
    mergeDependency Sample.env "sushi-test" "0.9.9" newFHIRDefinitions "cache"
      Sample.world
    = (Throws (PackageLoadError "sushi-test#0.9.9" None), w')
    /\ requests w'
       = [downloadCall "https://packages.fhir.org/sushi-test/0.9.9";
          downloadCall "https://packages2.fhir.org/packages/sushi-test/0.9.9"]
    /\ files w' = files Sample.world
    /\ cache w' = cache Sample.world.
Proof.
  apply (package_in_no_registry_is_not_loaded Sample.env "sushi-test" "0.9.9"
           "cache" newFHIRDefinitions (OtherError "Not found")
           (OtherError "Not found") Sample.world); reflexivity.
Defined.

Lemma r5_current_without_content_falls_back_on_the_cache_witness :
  exists w',
    mergeDependency Public.env "hl7.fhir.r5.core" "current" newFHIRDefinitions
      "cache" Public.world
    = (Returns (merge Public.r5Cached newFHIRDefinitions), w')
    /\ requests w' = [downloadCall "https://build.fhir.org/hl7.fhir.r5.core.tgz"]
    /\ files w' = files Public.world.
Proof.
  apply (r5_current_without_content_falls_back_on_the_cache Public.env
           "hl7.fhir.r5.core" "cache" newFHIRDefinitions Public.r5Cached
           Public.world
           (loadFromPath Public.env "cache" "hl7.fhir.r5.core#current"
              Public.world).2);
    [reflexivity|vm_compute; reflexivity|reflexivity].
Defined.

Lemma downloaded_package_is_installed_and_merged_witness :
  exists w',
    mergeDependency Public.env "sushi-test" "0.2.0" newFHIRDefinitions "cache"
      Public.world
    = (Returns (merge Public.downloaded newFHIRDefinitions), w')
    /\ files w'
       = <["cache" := Dir [("hl7.fhir.r5.core#current", Dir Public.r5Package);
                           ("sushi-test#0.2.0", Dir Public.extracted)]]>
           (files Public.world)
    /\ cache w' = <["sushi-test#0.2.0" := Public.downloaded]> (cache Public.world)
    /\ requests w' = [downloadCall "https://packages.fhir.org/sushi-test/0.2.0"].
Proof.
  apply (downloaded_package_is_installed_and_merged Public.env "sushi-test"
           "0.2.0" "cache" newFHIRDefinitions (Binary "20210101000000")
           Public.extracted Public.extracted
           [("hl7.fhir.r5.core#current", Dir Public.r5Package)]
           Public.downloaded Public.world);
    vm_compute; reflexivity.
Defined.

(** ** Stores of several packages *)

Lemma pushChildren_children (stores : list FHIRDefinitions) (s : FHIRDefinitions) :
  pushChildren stores s
  = mkFHIRDefinitions (label s) (ownDefinitions s) (childFHIRDefs s ++ stores)
      (unsuccessfulPackageLoad s) (packageMetadataByLabel s).
Proof.
  revert s. induction stores as [|d stores IH]; intros s.
  - cbn. rewrite app_nil_r. now destruct s.
  - cbn [pushChildren fold_left]. fold (pushChildren stores (pushChild d s)).
    rewrite IH. cbn. now rewrite <- app_assoc.
Qed.

Section Stores.

Variable E : Env.
Variable exports_mergeDependency :
  string -> string -> FHIRDefinitions -> string -> M FHIRDefinitions.

(** X23.  Packages loaded one by one with [loadDependency] end up as children
    of one store, in the order of the calls: of the store given, when it
    had children already, and otherwise of a new store whose first child
    is the store given.  The first merge that fails ends the sequence with
    its error. *)
Theorem loadEach_appends_one_child_per_request
    (requests : list (string * string)) (FHIRDefs : FHIRDefinitions)
    (cachePath : string) (w : World) :
  loadEach exports_mergeDependency requests FHIRDefs cachePath w
  = match mergeEach exports_mergeDependency requests cachePath w with
    | (Returns stores, w') =>
        (Returns
           (pushChildren stores
              (if (length (childFHIRDefs FHIRDefs) =? 0)%nat
                  && negb (length requests =? 0)%nat
               then pushChild FHIRDefs newFHIRDefinitions
               else FHIRDefs)),
         w')
    | (Throws e, w') => (Throws e, w')
    end.
Proof.
  revert FHIRDefs w.
  induction requests as [|[packageName version] rest IH]; intros FHIRDefs w.
  - cbn. now rewrite andb_false_r.
  - cbn [loadEach]. unfold mergeEach. cbn [map inTurn fst snd].
    fold (mergeEach exports_mergeDependency rest cachePath).
    unfold loadDependency, bind, ret.
    destruct (exports_mergeDependency packageName version newFHIRDefinitions
                cachePath w) as [[s|e] w1]; [|reflexivity].
    cbn [length Nat.eqb negb]. rewrite andb_true_r.
    destruct (length (childFHIRDefs FHIRDefs) =? 0)%nat eqn:Hempty;
      rewrite IH;
      destruct (mergeEach exports_mergeDependency rest cachePath w1)
        as [[stores|e] w2]; try reflexivity; cbn [pushChild childFHIRDefs].
    rewrite length_app. cbn [length].
    replace (length (childFHIRDefs FHIRDefs) + 1 =? 0)%nat with false
      by (symmetry; apply Nat.eqb_neq; lia).
    reflexivity.
Qed.

End Stores.

Section Gathered.

Variable E : Env.
Variable exports_mergeDependency :
  string -> string -> FHIRDefinitions -> string -> Async MergeEnd.

(** X24.  A batch of two or more requests that has fulfilled, in whatever
    order its merges were taken up, has done so with a new store that has
    no label, no definitions of its own and no failure flag, whatever
    became of the requests, and whose children are the stores of the
    requests, one for each, in the order of the requests. *)
Theorem loadDependencies_gathers_the_stores (fhirPackages : list string)
    (cachePath : string) (order : list nat) (w w' : World)
    (fhirDefs : option FHIRDefinitions) :
  (2 <= length fhirPackages)%nat ->
  loadDependencies E exports_mergeDependency fhirPackages cachePath order w
  = (Fulfilled fhirDefs, w') ->
  exists outcomes,
    Forall2 (fun merge c => becomes merge (Settled c))
      (callAll (map (mergeOne exports_mergeDependency cachePath) fhirPackages)
         w).1
      outcomes
    /\ length outcomes = length fhirPackages
    /\ fhirDefs
       = Some (mkFHIRDefinitions "" []
                 (zip_with storeFor fhirPackages outcomes) false []).
Proof.
  intros Hlen Hrun.
  destruct (loadDependencies_fulfilled _ _ _ _ _ _ _ _ Hrun)
    as (outcomes & Hall & -> & _).
  assert (Hl : length outcomes = length fhirPackages).
  { apply Forall2_length in Hall. rewrite <- Hall.
    destruct (callAll_tracked E exports_mergeDependency cachePath fhirPackages w)
      as (merges & promises & w0 & -> & _ & Htr & _).
    clear -Htr. cbn [fst]. induction Htr; cbn [length map] in *; congruence. }
  exists outcomes. split; [exact Hall|]. split; [exact Hl|].
  unfold assemble.
  replace (1 <? length (zip_with storeFor fhirPackages outcomes))%nat with true.
  2:{ symmetry. apply Nat.ltb_lt. rewrite length_zip_with. lia. }
  fold (pushChildren (zip_with storeFor fhirPackages outcomes) newFHIRDefinitions).
  now rewrite pushChildren_children.
Qed.

End Gathered.

Lemma loadDependencies_gathers_the_stores_witness :
  exists outcomes,
    length outcomes = 2%nat
    /\ loadDependencies Sample.env Sample.mockLater
         ["hl7.fhir.r4.core#4.0.1"; "other#1.0.0"] "cache" [1; 0; 1]%nat
         Sample.world
       = (Fulfilled
            (Some (mkFHIRDefinitions "" []
                     (zip_with storeFor ["hl7.fhir.r4.core#4.0.1"; "other#1.0.0"]
                        outcomes) false [])),
          setLogged
            [("error",
              "Failed to load other#1.0.0: the package could not be loaded")]
            Sample.world).
Proof.
  destruct (loadDependencies_gathers_the_stores Sample.env Sample.mockLater
              ["hl7.fhir.r4.core#4.0.1"; "other#1.0.0"] "cache" [1; 0; 1]%nat
              Sample.world
              (setLogged
                 [("error",
                   "Failed to load other#1.0.0: the package could not be loaded")]
                 Sample.world)
              (Some (mkFHIRDefinitions "" []
                       [setPackage "hl7.fhir.r4.core#4.0.1" newFHIRDefinitions;
                        failedStore "other#1.0.0" newFHIRDefinitions] false [])))
    as (outcomes & _ & Hl & Hstores); [cbn; lia|vm_compute; reflexivity|].
  exists outcomes. split; [exact Hl|]. rewrite <- Hstores.
  vm_compute. reflexivity.
Defined.

(** ** [cleanCachedPackage], once more *)

Lemma names_replaceEntry k v (es : entries_t) :
  names (replaceEntry k v es) = names es.
Proof.
  unfold names. induction es as [|[n x] es IH]; [reflexivity|].
  cbn [replaceEntry]. destruct (String.eqb n k); [reflexivity|].
  cbn [fmap list_fmap fst]. f_equal. exact IH.
Qed.

Lemma names_removeEntry f n (es : entries_t) :
  n ∈ names (removeEntry f es) -> n ∈ names es /\ n <> f.
Proof.
  unfold names. induction es as [|[m x] es IH]; cbn [removeEntry].
  - intros H. now apply elem_of_nil in H.
  - destruct (String.eqb m f) eqn:Hmf.
    + intros [Hin Hne]%IH. split; [now right|exact Hne].
    + apply String.eqb_neq in Hmf. cbn [fmap list_fmap fst].
      intros [->|Hin]%elem_of_cons.
      * split; [now left|exact Hmf].
      * destruct (IH Hin) as [Hin' Hne]. split; [now right|exact Hne].
Qed.

Section CleanAgain.

Variable E : Env.

Lemma renameIntoPackage_names file (es es' : entries_t) n :
  renameIntoPackage E file es = Returns es' ->
  n ∈ names es' -> n ∈ names es /\ n <> file.
Proof.
  unfold renameIntoPackage.
  destruct (lookupEntry "package" es) as [[content|pk]|]; try discriminate;
    destruct (lookupEntry file es) as [src|]; try discriminate.
  destruct (lookupEntry file pk) as [[c|[|e0 existing]]|], src as [c'|es0];
    try discriminate; intros [= <-]; rewrite names_replaceEntry;
    apply names_removeEntry.
Qed.

Lemma renameAll_names (todo : list string) : forall (es es' : entries_t) n,
  renameAll E todo es = (es', None) ->
  n ∈ names es' -> n ∈ names es /\ n ∉ todo.
Proof.
  induction todo as [|file rest IH]; intros es es' n.
  - intros [= <-] Hin. split; [exact Hin|]. apply not_elem_of_nil.
  - cbn [renameAll].
    destruct (renameIntoPackage E file es) as [es1|e] eqn:Hren; [|discriminate].
    intros Hrest Hin. destruct (IH _ _ _ Hrest Hin) as [Hin1 Hnot].
    destruct (renameIntoPackage_names _ _ _ _ Hren Hin1) as [Hin0 Hne].
    split; [exact Hin0|]. intros [->|Hr]%elem_of_cons; [now apply Hne|].
    now apply Hnot.
Qed.

(** X25.  After a clean that raised nothing, a directory that had a [package]
    folder holds nothing else at its top level, and to clean the
    directory a second time changes nothing. *)
Theorem cleanCachedPackage_is_idempotent (es es' : entries_t) :
  cleanCachedPackage E es = (es', None) ->
  (is_Some (lookupEntry "package" es) ->
   forall n, n ∈ names es' -> n = "package")
  /\ cleanCachedPackage E es' = (es', None).
Proof.
  unfold cleanCachedPackage at 1.
  destruct (bool_decide (is_Some (lookupEntry "package" es))) eqn:Hpk.
  - intros Hrun.
    assert (Hall : forall n, n ∈ names es' -> n = "package").
    { intros n Hin. destruct (renameAll_names _ _ _ _ Hrun Hin) as [Hin0 Hnot].
      destruct (decide (n = "package")) as [->|Hne]; [reflexivity|].
      destruct Hnot. apply list_elem_of_filter. now split. }
    split; [intros _; exact Hall|].
    unfold cleanCachedPackage.
    destruct (bool_decide (is_Some (lookupEntry "package" es'))); [|reflexivity].
    destruct (filter (fun file => file <> "package") (names es')) as [|n l] eqn:Hf;
      [reflexivity|].
    assert (Hin : n ∈ n :: l) by now left.
    rewrite <- Hf in Hin. apply list_elem_of_filter in Hin as [Hne Hin].
    destruct Hne. now apply Hall.
  - intros [= <-]. apply bool_decide_eq_false in Hpk. split; [tauto|].
    unfold cleanCachedPackage. now rewrite bool_decide_eq_false_2.
Qed.

End CleanAgain.

Lemma cleanCachedPackage_is_idempotent_witness :
  (forall n, n ∈ names (cleanCachedPackage Sample.env Sample.wrongFormat).1 ->
             n = "package")
  /\ cleanCachedPackage Sample.env
       (cleanCachedPackage Sample.env Sample.wrongFormat).1
     = ((cleanCachedPackage Sample.env Sample.wrongFormat).1, None).
Proof.
  destruct (cleanCachedPackage_is_idempotent Sample.env Sample.wrongFormat
              (cleanCachedPackage Sample.env Sample.wrongFormat).1 eq_refl)
    as [Hall Hagain].
  split; [apply Hall; now eexists|exact Hagain].
Defined.

(** ** The branch of a [current] version *)

Lemma prefix_inv (p s : string) :
  String.prefix p s = true -> exists r, s = p +:+ r.
Proof.
  revert s. induction p as [|c p IH]; intros s; [now exists s|].
  destruct s as [|c' s]; cbn [String.prefix]; [discriminate|].
  destruct (ascii_dec c c') as [<-|]; [|discriminate].
  intros [r ->]%IH. now exists r.
Qed.

(** X26.  A version accepted as [current] is [current] itself, for which no
    branch is sought in the build listing, or [current$] followed by a
    branch that is not empty, and the branch sought is all that follows
    the first [$], further [$] included. *)
Theorem current_version_names_its_branch (version : string) :
  isCurrentVersion version = true ->
  (version = "current" /\ Js.afterFirst "$" version = None)
  \/ (exists branch,
        version = "current$" +:+ branch
        /\ branch <> ""
        /\ Js.afterFirst "$" version = Some branch).
Proof.
  unfold isCurrentVersion. intros [H|H]%orb_prop.
  - apply String.eqb_eq in H as ->. left. split; reflexivity.
  - right. apply andb_prop in H as [Hpre H]. unfold Js.startsWith in Hpre.
    apply prefix_inv in Hpre as [branch ->]. exists branch.
    apply andb_prop in H as [Hne _].
    assert (Hlen : String.length ("current$" +:+ branch) - 8 = String.length branch)
      by (rewrite length_append; cbn; lia).
    rewrite Hlen in Hne.
    pose proof (substring_suffix "current$" branch) as Hs.
    cbn [String.length] in Hs. rewrite Hs in Hne.
    split; [reflexivity|]. split; [|reflexivity].
    intros ->. discriminate Hne.
Qed.

Lemma current_version_names_its_branch_witness :
  ("current$my$branch" = "current" /\ Js.afterFirst "$" "current$my$branch" = None)
  \/ (exists branch,
        "current$my$branch" = "current$" +:+ branch
        /\ branch <> ""
        /\ Js.afterFirst "$" "current$my$branch" = Some branch).
Proof.
  apply (current_version_names_its_branch "current$my$branch"). reflexivity.
Defined.

(** ** The fallback from [dev] to [current] *)

Section DevFallback.

Variable E : Env.

(** X27.  A [dev] version that is not cached falls back on [current]: when
    [current] of the package is cached and no refresh of the build
    listing is due (and the package is no R5 core package), the merge
    returns the given store merged with the cached [current] package,
    without a request and without a change on the disk. *)
Theorem dev_falls_back_on_cached_current (packageName cachePath : string)
    (FHIRDefs : FHIRDefinitions) (p : LoadedPackage) (w w1 : World) :
  loadFromPath E cachePath (packageName +:+ "#" +:+ "dev") w = (Returns None, w) ->
  loadFromPath E cachePath (packageName +:+ "#" +:+ "current") w
  = (Returns (Some p), w1) ->
  Js.startsWith packageName "hl7.fhir.r5." = false ->
  refreshDue E w = false ->
  exists w',
    mergeDependency E packageName "dev" FHIRDefs cachePath w
    = (Returns (merge p FHIRDefs), w')
    /\ requests w' = requests w
    /\ files w' = files w
    /\ ("info", "Loaded package " +:+ packageName +:+ "#current") ∈ logged w'.
Proof.
  intros Hdev Hcur Hr5 Hdue.
  pose proof (loadFromPath_changes_cache_only _ _ _ _ _ _ Hcur) as Hw1.
  unfold refreshDue in Hdue.
  destruct (lastCurrentUpdate w) as [last|] eqn:Hlast; [|discriminate].
  unfold mergeDependency, resolveVersion.
  change (String.eqb "dev" "latest") with false.
  change (isPatchWildcard "dev") with false.
  change (isMinorWildcard "dev") with false.
  unfold bind at 1, ret at 1. unfold mergeResolved. cbv zeta.
  unfold bind at 1, log at 1. unfold bind at 1.
  rewrite loadFromPath_logged, Hdev. cbn [fst snd].
  unfold bind at 1, log at 1. unfold bind at 1, devFallback.
  cbn [String.eqb Ascii.eqb Bool.eqb].
  unfold bind at 1, log at 1. unfold bind at 1.
  change (packageName +:+ "#current") with (packageName +:+ "#" +:+ "current").
  rewrite !loadFromPath_logged, Hcur. cbn [fst snd]. unfold ret at 1.
  unfold bind at 1, choosePackageUrl. rewrite Hr5. cbn [andb].
  replace (isCurrentVersion "current") with true by reflexivity.
  unfold bind at 1, PackageCache_isCurrentPackageRefreshNeeded.
  rewrite Hw1. cbn [lastCurrentUpdate setLogged setCache]. rewrite Hlast.
  unfold bind at 1, newDate, ret at 1.
  cbn [clockReads setLogged setCache]. rewrite Hdue.
  eexists. split; [reflexivity|]. cbn. repeat split.
  rewrite !elem_of_app. right. now left.
Qed.

End DevFallback.

Lemma dev_falls_back_on_cached_current_witness :
  exists w',
    mergeDependency Sample.env "sushi-test" "dev" newFHIRDefinitions "cache"
      refreshedWorld
    = (Returns (merge currentPackage newFHIRDefinitions), w')
    /\ requests w' = requests refreshedWorld
    /\ files w' = files refreshedWorld
    /\ ("info", "Loaded package " +:+ "sushi-test" +:+ "#current") ∈ logged w'.
Proof.
  apply (dev_falls_back_on_cached_current Sample.env "sushi-test" "cache"
           newFHIRDefinitions currentPackage refreshedWorld
           (loadFromPath Sample.env "cache" "sushi-test#current" refreshedWorld).2);
    vm_compute; reflexivity.
Defined.

Lemma custom_registry_failure_reaches_the_caller_witness :
  exists w',
    mergeDependency Custom.env "bad-package" "1.0.0" newFHIRDefinitions "cache"
      Sample.world
    = (Throws (OtherError "Not found"), w')
    /\ requests w'
       = [{| call_url := "https://custom-registry.example.org/bad-package";
             call_responseType := None |}]
    /\ files w' = files Sample.world.
Proof.
  apply (custom_registry_failure_reaches_the_caller Custom.env Custom.registry
           "bad-package" "1.0.0" "cache" newFHIRDefinitions
           (OtherError "Not found") Sample.world);
    first [reflexivity | discriminate].
Defined.
